(** * Super-resolution demo: a shallow embedding of [main.cpp]

    The program is a command-line driver around an inference runtime and an
    image codec.  Its own logic is the control flow of [main]: parameter
    validation, image filtering, batch-size selection, tensor filling, the
    timed inference loop, and the slicing of the output buffer into planes.

    The embedding keeps that control flow as it is written.  The external
    collaborators (runtime, codec, clock, file system) are an oracle record
    [Env]; every call into them is logged in a trace and may raise, exactly
    as a C++ call may.  [main] is written in a small state-and-exception
    monad whose third outcome, [Undefined], stands for C++ undefined
    behaviour (a null dereference, an out-of-range subscript). *)

From Stdlib Require Import ZArith List String Ascii Bool Lia.
From Stdlib Require Import Floats DecimalString Sorted.
Import ListNotations.

Local Open Scope string_scope.
Local Open Scope Z_scope.

(** ** Machine integers *)

Module Machine.

(** [int] is 32 bits wide on every platform the demo is built for. *)
Definition INT_BITS : Z := 32.

(** [static_cast<int>(x)] and the implicit conversion to [int]: reduce
    modulo 2^32 into the signed range. *)
Definition to_int (x : Z) : Z :=
  (x + 2 ^ (INT_BITS - 1)) mod 2 ^ INT_BITS - 2 ^ (INT_BITS - 1).

(** [size_t] is 32 bits on the ARM target and 64 bits on a desktop build. *)
Inductive SizeWidth := Size32 | Size64.

Definition size_bits (sw : SizeWidth) : Z :=
  match sw with Size32 => 32 | Size64 => 64 end.

Definition SIZE_MODULUS (sw : SizeWidth) : Z := 2 ^ size_bits sw.

(** Conversion to [size_t], and the result of any [size_t] operation. *)
Definition to_size_t (sw : SizeWidth) (x : Z) : Z := x mod SIZE_MODULUS sw.

Definition size_mul (sw : SizeWidth) (a b : Z) : Z := to_size_t sw (a * b).
Definition size_add (sw : SizeWidth) (a b : Z) : Z := to_size_t sw (a + b).

(** [std::to_string] on an integer. *)
Definition to_string (z : Z) : string := NilZero.string_of_int (Z.to_int z).

End Machine.
Import Machine.

(** ** [clip] (lines 31-34) *)

Module Clip.

(** A type with [operator<] that is a strict total order. *)
Class Ordered (T : Type) := {
  less : T -> T -> bool;
  less_irrefl : forall a, less a a = false;
  less_trans : forall a b c, less a b = true -> less b c = true -> less a c = true;
  less_total : forall a b, less a b = false -> less b a = false -> a = b
}.

(** [a <= b] in terms of [operator<]: not [b < a]. *)
Definition leq {T} `{Ordered T} (a b : T) : Prop := less b a = false.

(** [std::min(a, b)] is [(b < a) ? b : a]. *)
Definition std_min {T} `{Ordered T} (a b : T) : T := if less b a then b else a.

(** [std::max(a, b)] is [(a < b) ? b : a]. *)
Definition std_max {T} `{Ordered T} (a b : T) : T := if less a b then b else a.

Definition clip {T} `{Ordered T} (n lower upper : T) : T :=
  std_max lower (std_min n upper).

(** [operator<] on integers. *)
Definition Ordered_Z : Ordered Z :=
  {| less := Z.ltb;
     less_irrefl := Z.ltb_irrefl;
     less_trans := fun a b c Hab Hbc =>
       proj2 (Z.ltb_lt a c)
             (Z.lt_trans a b c (proj1 (Z.ltb_lt a b) Hab) (proj1 (Z.ltb_lt b c) Hbc));
     less_total := fun a b Hab Hba =>
       Z.le_antisymm a b (proj1 (Z.ltb_ge b a) Hba) (proj1 (Z.ltb_ge a b) Hab) |}.

End Clip.

(** ** Data of the runtime and of the codec *)

(** Exceptions as the two handlers of [main] tell them apart: anything
    derived from [std::exception] (with its [what()]), and anything else. *)
Inductive exn :=
| std_exception (what : string)
| unknown_exception.

(** [std::logic_error] is a [std::exception]. *)
Definition logic_error (what : string) : exn := std_exception what.

(** [cv::Mat]: a header (rows, cols, element type) over pixel data. *)
Inductive MatType := CV_8UC1 | CV_8UC3 | CV_32FC1.

Inductive MatData :=
| U8 (px : list Z)
| F32 (px : list float).

Record Mat := mkMat {
  rows : Z;
  cols : Z;
  mat_type : MatType;
  mat_data : MatData
}.

Definition data_is_null (d : MatData) : bool :=
  match d with
  | U8 [] | F32 [] => true
  | _ => false
  end.

(** [cv::Mat::empty()]: no data, or no elements. *)
Definition Mat_empty (m : Mat) : bool :=
  data_is_null (mat_data m) || (rows m * cols m =? 0).

Inductive Interpolation := INTER_LINEAR | INTER_CUBIC.

(** [SizeVector]: the dimensions of a tensor, [N; C; H; W] for the tensors
    of this demo. *)
Definition SizeVector := list Z.

Inductive Precision := FP32 | OtherPrecision.

Record TensorDesc := mkDesc {
  precision : Precision;
  dims : SizeVector
}.

(** [CNNNetwork]: the declared inputs and outputs in the iteration order of
    the [std::map]s the runtime returns, and the batch size.  An output whose
    [DataPtr] is null is [None]. *)
Record CNNNetwork := mkNet {
  batchSize : Z;
  inputsInfo : list (string * TensorDesc);
  outputsInfo : list (string * option TensorDesc)
}.

(** A blob of the inference request.  The memory of an input blob is kept
    per batch slot, as the image written there; the memory of an output blob
    is the flat [float] buffer. *)
Inductive BlobKind := InputBlob | OutputBlob.

Record Blob := mkBlob {
  kind : BlobKind;
  bdims : SizeVector;
  slots : list (option Mat);
  buffer : list float
}.

(** Calls into the runtime and the codec that have an effect or may raise. *)
Inductive Call :=
| getPluginByDevice (pp d : string)
| printPluginVersion
| AddExtension_cpu
| make_so_pointer (l : string)
| AddExtension (l : string)
| SetConfig (c : string)
| ReadNetwork (m : string)
| ReadWeights (bin : string)
| setBatchSize (n : Z)
| LoadNetwork (net : CNNNetwork)
| CreateInferRequest
| cv_resize (img : Mat) (w h : Z) (interp : Interpolation)
| Infer (k : nat)
| printPerformanceCounts
| imshow (win : string) (img : Mat)
| waitKey
| imwrite (name : string) (img : Mat).

(** What the run does that can be observed from outside. *)
Inductive Event :=
| slog_info (msg : string)
| slog_warn (msg : string)
| slog_err (msg : string)
| showUsage
| cout (msg : string)
| cout_average (v : float)
| called (c : Call).

(** The command-line flags after parsing ([FLAGS_ni] is an [int32] flag). *)
Record Flags := mkFlags {
  FLAGS_h : bool;
  FLAGS_i : string;
  FLAGS_m : string;
  FLAGS_d : string;
  FLAGS_pp : string;
  FLAGS_l : string;
  FLAGS_c : string;
  FLAGS_ni : Z;
  FLAGS_pc : bool;
  FLAGS_show : bool
}.

(** The world outside [main.cpp]. *)
Record Env := mkEnv {
  size_width : SizeWidth;
  (** [GetInferenceEngineVersion()], printed *)
  ie_version : string;
  (** [parseInputFilesArguments]: the files found for [-i] *)
  input_files : string -> list string;
  (** [fileNameNoExt] of the samples' common header *)
  fileNameNoExt : string -> string;
  (** the network that [ReadNetwork]/[ReadWeights] produce for a model path *)
  getNetwork : string -> CNNNetwork;
  (** [cv::imread]: an empty [Mat] when the file cannot be decoded *)
  imread : string -> Mat;
  (** the result of [cv::resize] *)
  resize_result : Mat -> Z -> Z -> Interpolation -> Mat;
  (** [Time::now()], by the number of earlier clock reads, in clock ticks *)
  Time_now : nat -> Z;
  (** a tick difference as [float] seconds, then as [double] milliseconds *)
  duration_ms : Z -> float;
  (** element [j] of output [name] after the [k]-th [Infer()] on the blobs *)
  infer_output : nat -> list (string * Blob) -> string -> nat -> float;
  (** [Mat::convertTo(_, CV_8UC1, alpha)] *)
  convertTo_8UC1 : Mat -> float -> Mat;
  (** [cv::merge] *)
  cv_merge : list Mat -> Mat;
  (** which external calls raise, and what *)
  raises : Call -> option exn
}.

(** ** The monad of [main]: state, exceptions, undefined behaviour *)

Record State := mkState {
  trace : list Event;
  clock_reads : nat;
  infer_calls : nat;
  request : list (string * Blob)
}.

Definition initial_state : State :=
  {| trace := []; clock_reads := 0; infer_calls := 0; request := [] |}.

Inductive Outcome (A : Type) :=
| Ok (a : A)
| Throw (e : exn)
| Undefined.
Arguments Ok {A} a.
Arguments Throw {A} e.
Arguments Undefined {A}.

Definition M (A : Type) : Type := State -> Outcome A * State.

Definition ret {A} (a : A) : M A := fun s => (Ok a, s).

Definition bind {A B} (m : M A) (f : A -> M B) : M B :=
  fun s =>
    match m s with
    | (Ok a, s') => f a s'
    | (Throw e, s') => (Throw e, s')
    | (Undefined, s') => (Undefined, s')
    end.

Definition throw {A} (e : exn) : M A := fun s => (Throw e, s).

Definition undefined {A} : M A := fun s => (Undefined, s).

Declare Scope cpp_scope.
Delimit Scope cpp_scope with cpp.
Notation "x <- m ;; k" := (bind m (fun x => k))
  (at level 100, m at next level, right associativity) : cpp_scope.
Notation "m ;; k" := (bind m (fun _ => k))
  (at level 100, right associativity) : cpp_scope.
Local Open Scope cpp_scope.

Definition log_event (e : Event) (s : State) : State :=
  {| trace := (trace s ++ [e])%list;
     clock_reads := clock_reads s;
     infer_calls := infer_calls s;
     request := request s |}.

Definition emit (e : Event) : M unit := fun s => (Ok tt, log_event e s).

(** A value that exists in C++ only when a subscript or a dereference is
    valid. *)
Definition defined {A} (o : option A) : M A :=
  match o with
  | Some a => ret a
  | None => undefined
  end.

Definition set_request (r : list (string * Blob)) : M unit :=
  fun s => (Ok tt, {| trace := trace s;
                      clock_reads := clock_reads s;
                      infer_calls := infer_calls s;
                      request := r |}).

(** ** Helpers on strings and containers *)

(** [std::string::empty()] *)
Definition empty (s : string) : bool := String.eqb s "".

(** [s.find(sub) != std::string::npos] *)
Definition contains (sub s : string) : bool :=
  match String.index 0 sub s with
  | Some _ => true
  | None => false
  end.

Definition is_nil {A} (l : list A) : bool :=
  match l with
  | [] => true
  | _ => false
  end.

(** Lookup by key in a [std::map] given in iteration order. *)
Fixpoint lookup {A} (key : string) (m : list (string * A)) : option A :=
  match m with
  | [] => None
  | (k, v) :: rest => if String.eqb k key then Some v else lookup key rest
  end.

Fixpoint update {A} (key : string) (v : A) (m : list (string * A))
  : list (string * A) :=
  match m with
  | [] => []
  | (k, v0) :: rest =>
      if String.eqb k key then (k, v) :: rest else (k, v0) :: update key v rest
  end.

Fixpoint set_nth {A} (i : nat) (x : A) (l : list A) {struct l} : list A :=
  match l with
  | [] => []
  | y :: t =>
      match i with
      | O => x :: t
      | S i' => y :: set_nth i' x t
      end
  end.

(** [static_cast<double>] of an [int]. *)
Definition double_of_int (z : Z) : float :=
  if z <? 0 then PrimFloat.opp (PrimFloat.of_uint63 (Uint63.of_Z (- z)))
  else PrimFloat.of_uint63 (Uint63.of_Z z).

(** [static_cast<float>] of a tick count: the nearest binary32 number. *)
Definition float_of_ticks (z : Z) : spec_float :=
  binary_normalize 24 128 z 0 false.

(** [fsec fs = t1 - t0; ms d = std::chrono::duration_cast<ms>(fs); d.count()]
    for a clock whose tick is a nanosecond: the tick difference is divided
    by 10^9 in [float] arithmetic ([fsec] is [duration<float>]), and the
    result is multiplied by 1000 in [double] arithmetic ([ms] is
    [duration<double, std::ratio<1, 1000>>]). *)
Definition chrono_ms (ticks : Z) : float :=
  (SF2Prim (SFdiv 24 128 (float_of_ticks ticks) (float_of_ticks 1000000000))
   * 1000)%float.

(** ** The runtime's side of the batch size

    Modelled from the spec: the inference runtime is not under src/.  The
    batch is "the leading tensor dimension representing how many independent
    samples are processed together", and the output tensor is "a
    four-dimensional buffer (batch, channel, height, width)": setting the
    batch size of the network makes it the leading dimension of every blob
    the request allocates for that network. *)

Definition with_batchSize (n : Z) (net : CNNNetwork) : CNNNetwork :=
  {| batchSize := n;
     inputsInfo := inputsInfo net;
     outputsInfo := outputsInfo net |}.

Definition getBatchSize (net : CNNNetwork) : Z := batchSize net.

Definition with_batch (n : Z) (d : SizeVector) : SizeVector :=
  match d with
  | [] => []
  | _ :: t => n :: t
  end.

Definition numel (d : SizeVector) : Z := fold_right Z.mul 1 d.

Definition allocate_input (n : Z) (desc : TensorDesc) : Blob :=
  {| kind := InputBlob;
     bdims := with_batch n (dims desc);
     slots := repeat None (Z.to_nat n);
     buffer := [] |}.

Definition allocate_output (n : Z) (desc : TensorDesc) : Blob :=
  {| kind := OutputBlob;
     bdims := with_batch n (dims desc);
     slots := [];
     buffer := repeat 0%float (Z.to_nat (numel (with_batch n (dims desc)))) |}.

Fixpoint allocate_outputs (n : Z) (outs : list (string * option TensorDesc))
  : list (string * Blob) :=
  match outs with
  | [] => []
  | (name, Some desc) :: rest => (name, allocate_output n desc) :: allocate_outputs n rest
  | (_, None) :: rest => allocate_outputs n rest
  end.

Definition allocate_blobs (net : CNNNetwork) : list (string * Blob) :=
  (map (fun p => (fst p, allocate_input (batchSize net) (snd p))) (inputsInfo net)
   ++ allocate_outputs (batchSize net) (outputsInfo net))%list.

Definition setPrecision (p : Precision) (d : TensorDesc) : TensorDesc :=
  {| precision := p; dims := dims d |}.

(** ** Output planes (lines 245-252) *)

(** The three subscripts of [outputData] at which the planes of batch
    element [i] start, computed in [size_t]. *)
Definition plane_offsets (sw : SizeWidth) (i nunOfPixels numOfChannels : Z)
  : list Z :=
  let base := size_mul sw (size_mul sw i nunOfPixels) numOfChannels in
  [ base;
    size_add sw base nunOfPixels;
    size_add sw base (size_mul sw nunOfPixels 2) ].

(** The subscripts a [cv::Mat(h, w, CV_32FC1, &outputData[off])] covers; the
    constructor takes [int] rows and columns. *)
Definition plane_indices (off h w : Z) : list Z :=
  map (fun j => off + Z.of_nat j) (seq 0 (Z.to_nat (to_int h * to_int w))).

(** Every subscript read for batch element [i]. *)
Definition read_indices (sw : SizeWidth) (i numOfChannels h w : Z) : list Z :=
  flat_map (fun off => plane_indices off h w)
           (plane_offsets sw i (size_mul sw w h) numOfChannels).

Fixpoint read_all (buf : list float) (idxs : list Z) : option (list float) :=
  match idxs with
  | [] => Some []
  | j :: rest =>
      match nth_error buf (Z.to_nat j), read_all buf rest with
      | Some x, Some xs => if j <? 0 then None else Some (x :: xs)
      | _, _ => None
      end
  end.

(** One plane, as a [Mat] over the floats it covers; [None] when it reaches
    outside the buffer. *)
Definition plane (buf : list float) (h w off : Z) : option Mat :=
  match read_all buf (plane_indices off h w) with
  | Some px => Some {| rows := to_int h; cols := to_int w;
                       mat_type := CV_32FC1; mat_data := F32 px |}
  | None => None
  end.

Fixpoint planes (buf : list float) (h w : Z) (offs : list Z) : option (list Mat) :=
  match offs with
  | [] => Some []
  | off :: rest =>
      match plane buf h w off, planes buf h w rest with
      | Some p, Some ps => Some (p :: ps)
      | _, _ => None
      end
  end.

(** ** The program *)

Section Program.

Variable env : Env.
Variable fl : Flags.

(** A call into the runtime or the codec: it shows in the trace, then it
    returns or raises. *)
Definition call (c : Call) : M unit :=
  emit (called c) ;;
  match raises env c with
  | Some e => throw e
  | None => ret tt
  end.

(** *** [ParseAndCheckCommandLine] (lines 36-59) *)

Definition ParseAndCheckCommandLine : M bool :=
  emit (slog_info "Parsing input parameters") ;;
  if FLAGS_h fl then
    emit showUsage ;;
    ret false
  else if FLAGS_ni fl <? 1 then
    throw (logic_error "Parameter -ni should be more than 0 !!! (default 1)")
  else if empty (FLAGS_i fl) then
    throw (logic_error "Parameter -i is not set")
  else if empty (FLAGS_m fl) then
    throw (logic_error "Parameter -m is not set")
  else
    ret true.

(** *** 1. Load plugin (lines 76-102) *)

Definition load_plugin : M unit :=
  emit (slog_info "Loading plugin") ;;
  call (getPluginByDevice (FLAGS_pp fl) (FLAGS_d fl)) ;;
  call printPluginVersion ;;
  (if contains "CPU" (FLAGS_d fl) then call AddExtension_cpu else ret tt) ;;
  (if negb (empty (FLAGS_l fl)) then
     call (make_so_pointer (FLAGS_l fl)) ;;
     call (AddExtension (FLAGS_l fl)) ;;
     emit (slog_info ("CPU Extension loaded: " ++ FLAGS_l fl))
   else ret tt) ;;
  (if negb (empty (FLAGS_c fl)) then
     call (SetConfig (FLAGS_c fl)) ;;
     emit (slog_info ("GPU Extension loaded: " ++ FLAGS_c fl))
   else ret tt).

(** *** 2. Read the network (lines 106-115) *)

Definition read_network : M CNNNetwork :=
  emit (slog_info "Loading network files") ;;
  call (ReadNetwork (FLAGS_m fl)) ;;
  let binFileName := fileNameNoExt env (FLAGS_m fl) ++ ".bin" in
  call (ReadWeights binFileName) ;;
  ret (getNetwork env (FLAGS_m fl)).

(** *** 3. Configure input (lines 121-157) *)

Definition lrInputBlobName : string := "0".

(** The loop over [imageNames] (lines 133-151).  [inputInfo["0"]] on a map
    without that key yields a null pointer, and the next line dereferences
    it; [getDims()[3]] needs four dimensions. *)
Fixpoint collect_images (inputInfo : list (string * TensorDesc))
         (imageNames : list string) (inputImages : list Mat) : M (list Mat) :=
  match imageNames with
  | [] => ret inputImages
  | i :: rest =>
      let img := imread env i in
      if Mat_empty img then
        emit (slog_warn ("Image " ++ i ++ " cannot be read!")) ;;
        collect_images inputInfo rest inputImages
      else
        lrInputInfoItem <- defined (lookup lrInputBlobName inputInfo) ;;
        d3 <- defined (nth_error (dims lrInputInfoItem) 3) ;;
        d2 <- defined (nth_error (dims lrInputInfoItem) 2) ;;
        let w := to_int d3 in
        let h := to_int d2 in
        if negb (w =? cols img) || negb (h =? rows img) then
          emit (slog_warn ("Size of the image " ++ i ++ " is not equal to WxH = "
                           ++ to_string w ++ "x" ++ to_string h)) ;;
          collect_images inputInfo rest inputImages
        else
          collect_images inputInfo rest (inputImages ++ [img])%list
  end.

Definition configure_input (network : CNNNetwork) (imageNames : list string)
  : M (CNNNetwork * list Mat) :=
  emit (slog_info "Preparing input blobs") ;;
  let inputInfo := inputsInfo network in
  let size := Z.of_nat (List.length inputInfo) in
  if negb (size =? 1) && negb (size =? 2) then
    throw (logic_error "The demo supports topologies with 1 or 2 inputs only")
  else
    inputImages <- collect_images inputInfo imageNames [] ;;
    if is_nil inputImages then
      throw (logic_error "Valid input images were not found!")
    else
      call (setBatchSize (Z.of_nat (List.length imageNames))) ;;
      let network := with_batchSize (Z.of_nat (List.length imageNames)) network in
      emit (slog_info ("Batch size is " ++ to_string (getBatchSize network))) ;;
      ret (network, inputImages).

(** *** Configure output (lines 160-175) *)

Fixpoint configure_outputs (outputInfo : list (string * option TensorDesc))
         (firstOutputName : string)
  : M (list (string * option TensorDesc) * string) :=
  match outputInfo with
  | [] => ret ([], firstOutputName)
  | (name, outputData) :: rest =>
      let firstOutputName :=
        if empty firstOutputName then name else firstOutputName in
      match outputData with
      | None => throw (logic_error "output data pointer is not valid")
      | Some d =>
          r <- configure_outputs rest firstOutputName ;;
          ret ((name, Some (setPrecision FP32 d)) :: fst r, snd r)
      end
  end.

Definition configure_output (network : CNNNetwork) : M (CNNNetwork * string) :=
  emit (slog_info "Preparing output blobs") ;;
  r <- configure_outputs (outputsInfo network) "" ;;
  ret ({| batchSize := batchSize network;
          inputsInfo := inputsInfo network;
          outputsInfo := fst r |}, snd r).

(** *** 4, 5. Load the model, create the request (lines 179-185) *)

Definition create_request (network : CNNNetwork) : M unit :=
  emit (slog_info "Loading model to the plugin") ;;
  call (LoadNetwork network) ;;
  emit (slog_info "Create infer request") ;;
  call CreateInferRequest ;;
  set_request (allocate_blobs network).

(** *** 6. Prepare input (lines 189-207) *)

(** [inferRequest.GetBlob(name)]: a pointer to the request's blob of that
    name, which is its name here; the runtime raises when there is none. *)
Definition GetBlob (name : string) : M string :=
  fun s =>
    match lookup name (request s) with
    | Some _ => (Ok name, s)
    | None =>
        (Throw (std_exception ("Failed to find input or output with name: " ++ name)), s)
    end.

Definition deref (blob : string) : M Blob :=
  fun s => defined (lookup blob (request s)) s.

(** Modelled from the spec: [matU8ToBlob] is in the samples' common header,
    which is not under src/.  It "converts the decoded image's
    8-bit-per-channel pixel data into the tensor's expected memory layout and
    floating precision, writing into the pre-allocated request buffer", at
    the image's batch index, with "no normalization beyond type/layout
    conversion": the slot of that batch index holds the image.  A batch index
    past the blob's batch is a write outside the buffer. *)
Definition matU8ToBlob (orig_image : Mat) (blob : string) (batchIndex : nat)
  : M unit :=
  fun s =>
    match lookup blob (request s) with
    | None => (Undefined, s)
    | Some b =>
        if (batchIndex <? List.length (slots b))%nat then
          (Ok tt,
           {| trace := trace s;
              clock_reads := clock_reads s;
              infer_calls := infer_calls s;
              request :=
                update blob
                       {| kind := kind b; bdims := bdims b;
                          slots := set_nth batchIndex (Some orig_image) (slots b);
                          buffer := buffer b |}
                       (request s) |})
        else (Undefined, s)
    end.

Definition bicInputBlobName : string := "1".

(** The loop of lines 190-207, from index [i] on. *)
Fixpoint fill_inputs (lrInputBlob : string) (twoInputs : bool)
         (inputImages : list Mat) (i : nat) : M unit :=
  match inputImages with
  | [] => ret tt
  | img :: rest =>
      matU8ToBlob img lrInputBlob i ;;
      (if twoInputs then
         bicInputBlob <- GetBlob bicInputBlobName ;;
         b <- deref bicInputBlob ;;
         d3 <- defined (nth_error (bdims b) 3) ;;
         d2 <- defined (nth_error (bdims b) 2) ;;
         let w := to_int d3 in
         let h := to_int d2 in
         call (cv_resize img w h INTER_CUBIC) ;;
         let resized := resize_result env img w h INTER_CUBIC in
         matU8ToBlob resized bicInputBlob i
       else ret tt) ;;
      fill_inputs lrInputBlob twoInputs rest (S i)
  end.

Definition prepare_input (inputInfo : list (string * TensorDesc))
           (inputImages : list Mat) : M unit :=
  lrInputBlob <- GetBlob lrInputBlobName ;;
  fill_inputs lrInputBlob (Z.of_nat (List.length inputInfo) =? 2) inputImages 0.

(** *** 7. Do inference (lines 211-234) *)

Definition Time_now_ : M Z :=
  fun s => (Ok (Time_now env (clock_reads s)),
            {| trace := trace s;
               clock_reads := S (clock_reads s);
               infer_calls := infer_calls s;
               request := request s |}).

(** The output blobs after a forward pass. *)
Definition infer_blobs (k : nat) (blobs : list (string * Blob))
  : list (string * Blob) :=
  map (fun p =>
         match kind (snd p) with
         | InputBlob => p
         | OutputBlob =>
             (fst p,
              {| kind := OutputBlob; bdims := bdims (snd p); slots := slots (snd p);
                 buffer := map (infer_output env k blobs (fst p))
                               (seq 0 (List.length (buffer (snd p)))) |})
         end) blobs.

(** [inferRequest.Infer()] *)
Definition Infer_ : M unit :=
  k <- (fun s => (Ok (infer_calls s),
                  {| trace := trace s;
                     clock_reads := clock_reads s;
                     infer_calls := S (infer_calls s);
                     request := request s |})) ;;
  call (Infer k) ;;
  (fun s => set_request (infer_blobs k (request s)) s).

(** The loop of lines 219-226 with [n] iterations to go. *)
Fixpoint inference_loop (n : nat) (total : float) : M float :=
  match n with
  | O => ret total
  | S n' =>
      t0 <- Time_now_ ;;
      Infer_ ;;
      t1 <- Time_now_ ;;
      let d := duration_ms env (t1 - t0) in
      inference_loop n' (total + d)%float
  end.

(** [iter < FLAGS_ni] compares in [size_t]. *)
Definition iterations : nat :=
  Z.to_nat (to_size_t (size_width env) (FLAGS_ni fl)).

Definition do_inference : M unit :=
  emit (slog_info ("Start inference (" ++ to_string (FLAGS_ni fl) ++ " iterations)")) ;;
  total <- inference_loop iterations 0%float ;;
  emit (cout_average (total / double_of_int (FLAGS_ni fl))%float) ;;
  if FLAGS_pc fl then call printPerformanceCounts else ret tt.

(** *** 8. Process output (lines 238-267) *)

(** The loop of lines 249-267 over the batch elements [elems]. *)
Fixpoint write_results (outputData : list float)
         (numOfChannels h w nunOfPixels : Z) (elems : list nat) : M unit :=
  match elems with
  | [] => ret tt
  | i :: rest =>
      let offs :=
        plane_offsets (size_width env) (Z.of_nat i) nunOfPixels numOfChannels in
      imgPlanes <- defined (planes outputData h w offs) ;;
      let imgPlanes := map (fun img => convertTo_8UC1 env img 255%float) imgPlanes in
      let resultImg := cv_merge env imgPlanes in
      (if FLAGS_show fl then
         emit (cout "To close the application, press 'CTRL+C' or any key with focus on the output window") ;;
         call (imshow "result" resultImg) ;;
         call waitKey
       else ret tt) ;;
      let outImgName :=
        "sr_" ++ to_string (size_add (size_width env) (Z.of_nat i) 1) ++ ".png" in
      call (imwrite outImgName resultImg) ;;
      write_results outputData numOfChannels h w nunOfPixels rest
  end.

Definition process_output (firstOutputName : string) : M unit :=
  outputBlob <- GetBlob firstOutputName ;;
  b <- deref outputBlob ;;
  let outputData := buffer b in
  numOfImages <- defined (nth_error (bdims b) 0) ;;
  numOfChannels <- defined (nth_error (bdims b) 1) ;;
  h <- defined (nth_error (bdims b) 2) ;;
  w <- defined (nth_error (bdims b) 3) ;;
  let nunOfPixels := size_mul (size_width env) w h in
  emit (slog_info ("Output size [N,C,H,W]: " ++ to_string numOfImages ++ ", "
                   ++ to_string numOfChannels ++ ", " ++ to_string h ++ ", "
                   ++ to_string w)) ;;
  write_results outputData numOfChannels h w nunOfPixels
                (seq 0 (Z.to_nat numOfImages)).

(** *** [main] (lines 61-281) *)

(** Lines 63-115: up to the loaded network; [None] is the early [return 0]. *)
Definition startup : M (option (list string * CNNNetwork)) :=
  emit (slog_info ("InferenceEngine: " ++ ie_version env)) ;;
  ok <- ParseAndCheckCommandLine ;;
  if negb ok then ret None
  else
    let imageNames := input_files env (FLAGS_i fl) in
    if is_nil imageNames then
      throw (logic_error "No suitable images were found")
    else
      load_plugin ;;
      network <- read_network ;;
      ret (Some (imageNames, network)).

(** Lines 118-267. *)
Definition pipeline (imageNames : list string) (network : CNNNetwork) : M unit :=
  r <- configure_input network imageNames ;;
  let inputInfo := inputsInfo network in
  let inputImages := snd r in
  r' <- configure_output (fst r) ;;
  let firstOutputName := snd r' in
  create_request (fst r') ;;
  prepare_input inputInfo inputImages ;;
  do_inference ;;
  process_output firstOutputName.

(** The [try] block; [Some c] is a [return c] inside it. *)
Definition try_block : M (option Z) :=
  r <- startup ;;
  match r with
  | None => ret (Some 0)
  | Some (imageNames, network) =>
      pipeline imageNames network ;;
      ret None
  end.

(** A finished run: the exit code ([None] after undefined behaviour, where
    C++ promises none) and the final state. *)
Record Run := mkRun {
  exit_code : option Z;
  final : State
}.

Definition main : Run :=
  match try_block initial_state with
  | (Ok (Some c), s) => {| exit_code := Some c; final := s |}
  | (Ok None, s) =>
      {| exit_code := Some 0;
         final := log_event (slog_info "Execution successful") s |}
  | (Throw (std_exception what), s) =>
      {| exit_code := Some 1; final := log_event (slog_err what) s |}
  | (Throw unknown_exception, s) =>
      {| exit_code := Some 1;
         final := log_event (slog_err "Unknown/internal exception happened") s |}
  | (Undefined, s) => {| exit_code := None; final := s |}
  end.

End Program.

(** ** Observations on runs *)

(** *** Computations that stay clear of some events

    [avoids Q m]: whatever [m] does, it only appends events to the trace, and
    none of them satisfies [Q]. *)

Definition avoids {A} (Q : Event -> Prop) (m : M A) : Prop :=
  forall s, exists t,
    trace (snd (m s)) = (trace s ++ t)%list /\ Forall (fun e => ~ Q e) t.

(** A forward pass. *)
Definition is_Infer (e : Event) : Prop := exists k, e = called (Infer k).

(** Reading the model: the description or the weights. *)
Definition is_model_read (e : Event) : Prop :=
  (exists m, e = called (ReadNetwork m)) \/ (exists bin, e = called (ReadWeights bin)).

(** ** A small world to run the program in

    A low-resolution input of 2x2 pixels and an output of 4x4; one image
    file that decodes to 2x2, one that decodes to 3x3, and any other path
    does not decode. *)

Module Scenario.

Definition lr_image : Mat :=
  {| rows := 2; cols := 2; mat_type := CV_8UC3;
     mat_data := U8 [10; 20; 30; 40; 50; 60; 70; 80; 90; 100; 110; 120] |}.

Definition big_image : Mat :=
  {| rows := 3; cols := 3; mat_type := CV_8UC3;
     mat_data := U8 [1; 2; 3; 4; 5; 6; 7; 8; 9; 1; 2; 3; 4; 5; 6; 7; 8; 9;
                     1; 2; 3; 4; 5; 6; 7; 8; 9] |}.

Definition no_image : Mat :=
  {| rows := 0; cols := 0; mat_type := CV_8UC3; mat_data := U8 [] |}.

Definition lr_desc : TensorDesc := {| precision := FP32; dims := [1; 3; 2; 2] |}.
Definition hr_desc : TensorDesc := {| precision := FP32; dims := [1; 3; 4; 4] |}.

(** One input, one output. *)
Definition net_one_input : CNNNetwork :=
  {| batchSize := 1;
     inputsInfo := [("0", lr_desc)];
     outputsInfo := [("129", Some hr_desc)] |}.

(** The low-resolution input and its bicubic companion. *)
Definition net_two_inputs : CNNNetwork :=
  {| batchSize := 1;
     inputsInfo := [("0", lr_desc); ("1", hr_desc)];
     outputsInfo := [("129", Some hr_desc)] |}.

Definition net_three_inputs : CNNNetwork :=
  {| batchSize := 1;
     inputsInfo := [("0", lr_desc); ("1", hr_desc); ("2", hr_desc)];
     outputsInfo := [("129", Some hr_desc)] |}.

Definition decode (path : string) : Mat :=
  if String.eqb path "lr.png" then lr_image
  else if String.eqb path "big.png" then big_image
  else no_image.

(** [-i lr.png] is one file; [-i dir] is a directory of two files, the
    second of which is not an image; [-i mixed] adds an image of the wrong
    size. *)
Definition files (i : string) : list string :=
  if String.eqb i "lr.png" then ["lr.png"]
  else if String.eqb i "dir" then ["lr.png"; "notes.txt"]
  else if String.eqb i "mixed" then ["big.png"; "lr.png"; "notes.txt"]
  else if String.eqb i "big.png" then ["big.png"]
  else [].

(** The low-resolution input and a second input that is not named "1". *)
Definition net_lr_and_bic : CNNNetwork :=
  {| batchSize := 1;
     inputsInfo := [("0", lr_desc); ("bic", hr_desc)];
     outputsInfo := [("129", Some hr_desc)] |}.

(** One input, which is not named "0". *)
Definition net_data_input : CNNNetwork :=
  {| batchSize := 1;
     inputsInfo := [("data", lr_desc)];
     outputsInfo := [("129", Some hr_desc)] |}.

(** One input named "0" whose declared width, 2^32 + 2, is no [int]
    value. *)
Definition net_wide_input : CNNNetwork :=
  {| batchSize := 1;
     inputsInfo := [("0", {| precision := FP32; dims := [1; 3; 2; 4294967298] |})];
     outputsInfo := [("129", Some hr_desc)] |}.

(** Two outputs, the second of which has no data. *)
Definition net_null_output : CNNNetwork :=
  {| batchSize := 1;
     inputsInfo := [("0", lr_desc)];
     outputsInfo := [("129", Some hr_desc); ("130", None)] |}.

(** Stand-in for the codec's resize: the result has the requested size; the
    pixels are kept under cubic interpolation and dropped under linear
    interpolation, so that the two differ. *)
Definition resized (img : Mat) (w h : Z) (interp : Interpolation) : Mat :=
  {| rows := h; cols := w; mat_type := mat_type img;
     mat_data := match interp with
                 | INTER_CUBIC => mat_data img
                 | INTER_LINEAR => U8 []
                 end |}.

(** Stand-in for the conversion to 8 bits: the values are kept. *)
Definition converted (img : Mat) (_ : float) : Mat :=
  {| rows := rows img; cols := cols img; mat_type := CV_8UC1;
     mat_data := mat_data img |}.

Definition floats_of (img : Mat) : list float :=
  match mat_data img with
  | F32 px => px
  | U8 _ => []
  end.

(** Stand-in for the merge: the values of the planes, one plane after the
    other. *)
Definition merged (imgPlanes : list Mat) : Mat :=
  match imgPlanes with
  | [] => no_image
  | p :: _ => {| rows := rows p; cols := cols p; mat_type := CV_8UC3;
                 mat_data := F32 (flat_map floats_of imgPlanes) |}
  end.

(** A world around a given network, with the given failures; the clock
    ticks in nanoseconds and advances 3 ms per read. *)
Definition world (net : CNNNetwork) (failures : Call -> option exn) : Env :=
  {| size_width := Size32;
     ie_version := "1.6";
     input_files := files;
     fileNameNoExt := fun m => m;
     getNetwork := fun _ => net;
     imread := decode;
     resize_result := resized;
     Time_now := fun k => 3000000 * Z.of_nat k;
     duration_ms := chrono_ms;
     infer_output := fun _ _ _ _ => 0%float;
     convertTo_8UC1 := converted;
     cv_merge := merged;
     raises := failures |}.

Definition no_failure (_ : Call) : option exn := None.

(** The runtime does not find the device (a typed exception). *)
Definition no_device (c : Call) : option exn :=
  match c with
  | getPluginByDevice _ _ => Some (std_exception "Cannot find plugin")
  | _ => None
  end.

(** Something that is not a [std::exception] is thrown while the weights
    are read. *)
Definition odd_weights (c : Call) : option exn :=
  match c with
  | ReadWeights _ => Some unknown_exception
  | _ => None
  end.

(** The device fails in the second forward pass of a run. *)
Definition second_pass_fails (c : Call) : option exn :=
  match c with
  | Infer 1 => Some (std_exception "Device lost")
  | _ => None
  end.

Definition flags (h : bool) (i : string) (ni : Z) : Flags :=
  {| FLAGS_h := h; FLAGS_i := i; FLAGS_m := "model.xml"; FLAGS_d := "MYRIAD";
     FLAGS_pp := ""; FLAGS_l := ""; FLAGS_c := ""; FLAGS_ni := ni;
     FLAGS_pc := false; FLAGS_show := false |}.

End Scenario.

(** *** Accepted and rejected candidates *)

(** An image that decoded and has exactly the size [w] x [h]. *)
Definition accepted (w h : Z) (img : Mat) : bool :=
  negb (Mat_empty img) && ((w =? cols img) && (h =? rows img)).

(** The accepted images among the candidates, in the order of the
    candidates. *)
Definition accepted_images (env : Env) (w h : Z) (imageNames : list string)
  : list Mat :=
  filter (accepted w h) (map (imread env) imageNames).

(** The warning a candidate draws: none when it is accepted, one when it is
    rejected. *)
Definition rejection_warnings (env : Env) (w h : Z) (i : string) : list Event :=
  if accepted w h (imread env i) then []
  else if Mat_empty (imread env i) then
    [slog_warn ("Image " ++ i ++ " cannot be read!")]
  else
    [slog_warn ("Size of the image " ++ i ++ " is not equal to WxH = "
                ++ to_string w ++ "x" ++ to_string h)].

(** A state with more events in its trace, and nothing else changed. *)
Definition add_events (t : list Event) (s : State) : State :=
  {| trace := (trace s ++ t)%list;
     clock_reads := clock_reads s;
     infer_calls := infer_calls s;
     request := request s |}.

(** The names of the files written, in the order of writing. *)
Fixpoint written_files (t : list Event) : list string :=
  match t with
  | [] => []
  | called (imwrite name _) :: rest => name :: written_files rest
  | _ :: rest => written_files rest
  end.

(** *** The images of the output step *)

(** The [Mat] that [cv::Mat(h, w, CV_32FC1, &outputData[off])] is when its
    subscripts stay inside the buffer: [int] rows and columns, over the
    floats of the buffer from [off] on. *)
Definition plane_view (buf : list float) (h w off : Z) : Mat :=
  {| rows := to_int h; cols := to_int w; mat_type := CV_32FC1;
     mat_data := F32 (map (fun j => nth (Z.to_nat j) buf 0%float)
                          (plane_indices off h w)) |}.

(** The image made of the planes at [offs]: each plane converted to 8 bits
    with the factor 255, and the converted planes merged. *)
Definition result_image (env : Env) (buf : list float) (h w : Z) (offs : list Z)
  : Mat :=
  cv_merge env (map (fun img => convertTo_8UC1 env img 255%float)
                    (map (plane_view buf h w) offs)).

(** The images written to files, in order. *)
Fixpoint written_images (t : list Event) : list Mat :=
  match t with
  | [] => []
  | called (imwrite _ img) :: rest => img :: written_images rest
  | _ :: rest => written_images rest
  end.

(** A computation that has no undefined behaviour, from any state. *)
Definition stays_defined {A} (m : M A) : Prop :=
  forall s, fst (m s) <> Undefined.

(** *** The timed loop *)

(** The duration measured around pass [k] of a loop that starts when the
    clock has been read [c] times: the clock is read once before and once
    after each pass. *)
Definition measured (env : Env) (c k : nat) : float :=
  duration_ms env (Time_now env (c + 2 * k + 1) - Time_now env (c + 2 * k)).

Definition durations (env : Env) (c n : nat) : list float :=
  map (measured env c) (seq 0 n).

(** The sum of durations, accumulated from 0.0 in the order of the passes. *)
Definition sum_ms (ds : list float) : float := fold_left PrimFloat.add ds 0%float.

(** [n] forward passes, the first of which is pass number [k0] of the run. *)
Definition passes (k0 n : nat) : list Event :=
  map (fun k => called (Infer k)) (seq k0 n).

(** The number of forward passes in a trace. *)
Fixpoint forward_passes (t : list Event) : nat :=
  match t with
  | [] => O
  | called (Infer _) :: rest => S (forward_passes rest)
  | _ :: rest => forward_passes rest
  end.

(** *** The calls a run may make *)

(** The numbered step of [main] in which a call is written. *)
Definition stage_of (c : Call) : nat :=
  match c with
  | getPluginByDevice _ _ | printPluginVersion | AddExtension_cpu
  | make_so_pointer _ | AddExtension _ | SetConfig _ => 1
  | ReadNetwork _ | ReadWeights _ => 2
  | setBatchSize _ => 3
  | LoadNetwork _ => 4
  | CreateInferRequest => 5
  | cv_resize _ _ _ _ => 6
  | Infer _ | printPerformanceCounts => 7
  | imshow _ _ | waitKey | imwrite _ _ => 8
  end.

(** What the flags and the model allow a call to be. *)
Definition permitted (env : Env) (fl : Flags) (c : Call) : Prop :=
  match c with
  | getPluginByDevice pp d => pp = FLAGS_pp fl /\ d = FLAGS_d fl
  | printPluginVersion => True
  | AddExtension_cpu => contains "CPU" (FLAGS_d fl) = true
  | make_so_pointer l => empty (FLAGS_l fl) = false /\ l = FLAGS_l fl
  | AddExtension l => empty (FLAGS_l fl) = false /\ l = FLAGS_l fl
  | SetConfig c => empty (FLAGS_c fl) = false /\ c = FLAGS_c fl
  | ReadNetwork m => m = FLAGS_m fl
  | ReadWeights bin => bin = fileNameNoExt env (FLAGS_m fl) ++ ".bin"
  | setBatchSize n => n = Z.of_nat (List.length (input_files env (FLAGS_i fl)))
  | LoadNetwork net =>
      batchSize net = Z.of_nat (List.length (input_files env (FLAGS_i fl))) /\
      inputsInfo net = inputsInfo (getNetwork env (FLAGS_m fl))
  | CreateInferRequest => True
  | cv_resize _ _ _ interp =>
      interp = INTER_CUBIC /\
      List.length (inputsInfo (getNetwork env (FLAGS_m fl))) = 2%nat
  | Infer _ => True
  | printPerformanceCounts => FLAGS_pc fl = true
  | imshow win _ => FLAGS_show fl = true /\ win = "result"
  | waitKey => FLAGS_show fl = true
  | imwrite _ _ => True
  end.

(** An event that is no call, or a permitted call of a step between [lo]
    and [hi]. *)
Definition allowed (env : Env) (fl : Flags) (lo hi : nat) (e : Event) : Prop :=
  match e with
  | called c => permitted env fl c /\ (lo <= stage_of c <= hi)%nat
  | _ => True
  end.


(** [emits_only P m]: whatever [m] does, it only appends events to the
    trace, and all of them satisfy [P]. *)
Definition emits_only {A} (P : Event -> Prop) (m : M A) : Prop :=
  forall s, exists t,
    trace (snd (m s)) = (trace s ++ t)%list /\ Forall P t.

(** [triple P m Q E]: from a state in [P], [m] either returns a value and a
    state in [Q], or ends otherwise in a state in [E]. *)
Definition triple {A} (P : State -> Prop) (m : M A)
           (Q : A -> State -> Prop) (E : State -> Prop) : Prop :=
  forall s, P s ->
    match m s with
    | (Ok a, s') => Q a s'
    | (Throw _, s') => E s'
    | (Undefined, s') => E s'
    end.

(** A property of the trace alone, as a property of states. *)
Definition on_trace (T : list Event -> Prop) (s : State) : Prop := T (trace s).

(** *** The output names and the shape of the request *)

(** The first name that is not the empty string, or the empty string. *)
Fixpoint first_nonempty (names : list string) : string :=
  match names with
  | [] => ""
  | name :: rest => if empty name then first_nonempty rest else name
  end.

(** [b'] is [b] up to the contents of its buffer; an input blob is the same. *)
Definition same_shape (b b' : Blob) : Prop :=
  kind b' = kind b /\ bdims b' = bdims b /\ slots b' = slots b /\
  List.length (buffer b') = List.length (buffer b) /\
  (kind b = InputBlob -> b' = b).

(** The two requests have the same blobs under the same names, up to the
    contents of the output buffers. *)
Definition same_shapes (r r' : list (string * Blob)) : Prop :=
  Forall2 (fun p p' => fst p' = fst p /\ same_shape (snd p) (snd p')) r r'.

(** The names [sr_1.png] ... [sr_n.png]. *)
Definition sr_names (n : nat) : list string :=
  map (fun k => "sr_" ++ to_string (Z.of_nat k) ++ ".png") (seq 1 n).

(** A network as [create_request] gets it in a run: the model that was
    read, with the batch size set. *)
Definition bound_network (env : Env) (fl : Flags) (network : CNNNetwork) : Prop :=
  batchSize network = Z.of_nat (List.length (input_files env (FLAGS_i fl))) /\
  inputsInfo network = inputsInfo (getNetwork env (FLAGS_m fl)).

(** Every call of a trace is permitted. *)
Definition all_permitted (env : Env) (fl : Flags) (t : list Event) : Prop :=
  Forall (fun e => match e with
                   | called c => permitted env fl c
                   | _ => True
                   end) t.


(** No call of the trace is of a step after [k]. *)
Definition calls_up_to (k : nat) (t : list Event) : Prop :=
  forall c, In (called c) t -> (stage_of c <= k)%nat.




(** * Properties *)

(** ** Machine integers *)

Lemma SIZE_MODULUS_pos sw : 0 < SIZE_MODULUS sw.
Proof. destruct sw; reflexivity. Qed.

Lemma int_fits_size_t sw : 2 ^ 31 < SIZE_MODULUS sw.
Proof. destruct sw; reflexivity. Qed.

Lemma to_size_t_small sw x : 0 <= x < SIZE_MODULUS sw -> to_size_t sw x = x.
Proof. intros Hx. unfold to_size_t. now apply Z.mod_small. Qed.

Lemma to_size_t_idem sw x : to_size_t sw (to_size_t sw x) = to_size_t sw x.
Proof.
  unfold to_size_t. apply Z.mod_mod.
  pose proof (SIZE_MODULUS_pos sw). lia.
Qed.

Lemma to_int_small x : 0 <= x < 2 ^ 31 -> to_int x = x.
Proof.
  intros Hx. unfold to_int, INT_BITS. simpl Z.sub.
  rewrite Z.mod_small; lia.
Qed.

(** A conversion to [int] never grows a non-negative value in magnitude. *)
Lemma abs_to_int_le x : 0 <= x -> Z.abs (to_int x) <= x.
Proof.
  intros Hx. unfold to_int, INT_BITS. simpl Z.sub.
  pose proof (Z.mod_pos_bound (x + 2 ^ 31) (2 ^ 32) eq_refl) as Hb.
  pose proof (Z.div_mod (x + 2 ^ 31) (2 ^ 32)) as Hd.
  assert (0 <= (x + 2 ^ 31) / 2 ^ 32) by (apply Z.div_pos; lia).
  assert (Hq : (x + 2 ^ 31) / 2 ^ 32 = 0 \/ 1 <= (x + 2 ^ 31) / 2 ^ 32) by lia.
  destruct Hq as [Hq | Hq].
  - rewrite Hq in Hd. lia.
  - lia.
Qed.

Lemma to_int_product_le h w :
  0 <= h -> 0 <= w -> to_int h * to_int w <= h * w.
Proof.
  intros Hh Hw.
  pose proof (abs_to_int_le h Hh). pose proof (abs_to_int_le w Hw).
  transitivity (Z.abs (to_int h) * Z.abs (to_int w)).
  - rewrite <- Z.abs_mul. lia.
  - apply Z.mul_le_mono_nonneg; lia.
Qed.

(** ** [clip] *)

Section ClipProperties.

Import Clip.
Context {T : Type} `{Ordered T}.

Lemma less_asym (a b : T) : less a b = true -> less b a = false.
Proof.
  intros Hab. destruct (less b a) eqn:Hba; [|reflexivity].
  pose proof (less_trans _ _ _ Hab Hba) as Haa.
  rewrite less_irrefl in Haa. discriminate.
Qed.

Lemma leq_refl (a : T) : leq a a.
Proof. apply less_irrefl. Qed.

(** C10: for [lower <= upper], [clip n lower upper] lies in the closed
    interval from [lower] to [upper], and it is [n] itself whenever [n]
    already lies there. *)
Theorem clip_within_bounds (n lower upper : T) :
  leq lower upper ->
  (leq lower (clip n lower upper) /\ leq (clip n lower upper) upper) /\
  (leq lower n -> leq n upper -> clip n lower upper = n).
Proof.
  unfold leq, clip, std_max, std_min. intros Hlu.
  destruct (less upper n) eqn:Hun.
  - destruct (less lower upper) eqn:Hl.
    + repeat split.
      * now apply less_asym.
      * apply less_irrefl.
      * intros _ Hn. discriminate.
    + repeat split.
      * apply less_irrefl.
      * exact Hlu.
      * intros _ Hn. discriminate.
  - destruct (less lower n) eqn:Hln.
    + repeat split.
      * now apply less_asym.
      * exact Hun.
    + repeat split.
      * apply less_irrefl.
      * exact Hlu.
      * intros Hnl _. now apply less_total.
Qed.

End ClipProperties.

(** [clip] on integers: 5 is cut down to the interval from 0 to 3, and 2 is
    left alone. *)
Lemma clip_within_bounds_witness :
  @Clip.leq Z Clip.Ordered_Z 0 3 /\
  (@Clip.leq Z Clip.Ordered_Z 0 (@Clip.clip Z Clip.Ordered_Z 5 0 3) /\
   @Clip.leq Z Clip.Ordered_Z (@Clip.clip Z Clip.Ordered_Z 5 0 3) 3) /\
  @Clip.clip Z Clip.Ordered_Z 2 0 3 = 2.
Proof.
  split; [reflexivity|]. split.
  - apply (proj1 (@clip_within_bounds Z Clip.Ordered_Z 5 0 3 eq_refl)).
  - apply (proj2 (@clip_within_bounds Z Clip.Ordered_Z 2 0 3 eq_refl)); reflexivity.
Defined.

(** ** Output planes *)

Lemma plane_offsets_mod sw i C H W :
  plane_offsets sw i (size_mul sw W H) C =
  map (to_size_t sw)
      [ i * (H * W) * C + 0; i * (H * W) * C + H * W; i * (H * W) * C + 2 * (H * W) ].
Proof.
  pose proof (SIZE_MODULUS_pos sw) as Hm.
  assert (Hnz : SIZE_MODULUS sw <> 0) by lia.
  unfold plane_offsets, size_mul, size_add, to_size_t. cbn [map].
  rewrite (Z.mul_comm W H).
  assert (Hbase : ((i * ((H * W) mod SIZE_MODULUS sw)) mod SIZE_MODULUS sw * C)
                    mod SIZE_MODULUS sw
                  = (i * (H * W) * C) mod SIZE_MODULUS sw).
  { rewrite Z.mul_mod_idemp_l by assumption.
    replace (i * ((H * W) mod SIZE_MODULUS sw) * C)
      with ((H * W) mod SIZE_MODULUS sw * (i * C)) by ring.
    rewrite Z.mul_mod_idemp_l by assumption.
    f_equal. ring. }
  rewrite Hbase. f_equal; [|f_equal; [|f_equal]].
  - now rewrite Z.add_0_r.
  - now rewrite Z.add_mod_idemp_l, Z.add_mod_idemp_r by assumption.
  - rewrite Z.add_mod_idemp_l by assumption.
    rewrite Z.mul_mod_idemp_l, Z.add_mod_idemp_r by assumption.
    now rewrite (Z.mul_comm (H * W) 2).
Qed.

Lemma plane_offsets_exact sw N H W i :
  0 <= H -> 0 <= W -> 0 <= i < N -> N * 3 * H * W < SIZE_MODULUS sw ->
  plane_offsets sw i (size_mul sw W H) 3 =
  [ i * 3 * (H * W); i * 3 * (H * W) + H * W; i * 3 * (H * W) + 2 * (H * W) ].
Proof.
  intros HH HW Hi Hfit.
  rewrite plane_offsets_mod. cbn [map].
  assert (0 <= H * W) by (apply Z.mul_nonneg_nonneg; lia).
  assert ((i + 1) * 3 * (H * W) <= N * 3 * (H * W)).
  { apply Z.mul_le_mono_nonneg_r; lia. }
  rewrite !to_size_t_small by nia.
  f_equal; [|f_equal; [|f_equal]]; lia.
Qed.

Lemma in_plane_indices j off h w :
  0 <= h -> 0 <= w ->
  In j (plane_indices off h w) -> off <= j < off + h * w.
Proof.
  intros Hh Hw Hin. unfold plane_indices in Hin.
  apply in_map_iff in Hin. destruct Hin as [k [Hk Hin]].
  apply in_seq in Hin.
  pose proof (to_int_product_le h w Hh Hw). lia.
Qed.

Lemma read_all_defined buf idxs :
  (forall j, In j idxs -> 0 <= j < Z.of_nat (List.length buf)) ->
  exists px, read_all buf idxs = Some px.
Proof.
  induction idxs as [|j rest IH]; intros Hin.
  - now exists [].
  - destruct IH as [xs Hxs]; [intros k Hk; apply Hin; now right|].
    assert (Hj : 0 <= j < Z.of_nat (List.length buf)) by (apply Hin; now left).
    destruct (nth_error buf (Z.to_nat j)) as [x|] eqn:Hnth.
    + exists (x :: xs). cbn [read_all]. rewrite Hnth, Hxs.
      destruct (Z.ltb_spec j 0); [lia | reflexivity].
    + apply nth_error_None in Hnth. lia.
Qed.

Lemma planes_defined buf h w offs :
  (forall off j, In off offs -> In j (plane_indices off h w) ->
                 0 <= j < Z.of_nat (List.length buf)) ->
  exists ps, planes buf h w offs = Some ps /\ List.length ps = List.length offs.
Proof.
  induction offs as [|off rest IH]; intros Hin.
  - now exists [].
  - destruct IH as [ps [Hps Hlen]]; [intros o j Ho; apply Hin; now right|].
    destruct (read_all_defined buf (plane_indices off h w)) as [px Hpx].
    { intros j Hj. apply (Hin off); [now left | assumption]. }
    eexists. cbn [planes]. unfold plane. rewrite Hpx, Hps.
    split; [reflexivity | cbn [List.length]; now rewrite Hlen].
Qed.

(** ** Running the monad *)

Lemma bind_Ok {A B} (m : M A) (f : A -> M B) s a s' :
  m s = (Ok a, s') -> bind m f s = f a s'.
Proof. intros Hm. unfold bind. now rewrite Hm. Qed.

Lemma bind_Throw {A B} (m : M A) (f : A -> M B) s e s' :
  m s = (Throw e, s') -> bind m f s = (Throw e, s').
Proof. intros Hm. unfold bind. now rewrite Hm. Qed.

Lemma bind_Undefined {A B} (m : M A) (f : A -> M B) s s' :
  m s = (Undefined, s') -> bind m f s = (Undefined, s').
Proof. intros Hm. unfold bind. now rewrite Hm. Qed.

(** What a [bind] that returned must have done. *)
Lemma bind_Ok_inv {A B} (m : M A) (f : A -> M B) s b s' :
  bind m f s = (Ok b, s') ->
  exists a s1, m s = (Ok a, s1) /\ f a s1 = (Ok b, s').
Proof.
  unfold bind. destruct (m s) as [[a | e |] s1]; intros Hb.
  - now exists a, s1.
  - discriminate.
  - discriminate.
Qed.

Lemma emit_run e s : emit e s = (Ok tt, log_event e s).
Proof. reflexivity. Qed.

Lemma call_returns env c s :
  raises env c = None -> call env c s = (Ok tt, log_event (called c) s).
Proof. intros Hr. unfold call, bind, emit. now rewrite Hr. Qed.

Lemma call_raises env c e s :
  raises env c = Some e -> call env c s = (Throw e, log_event (called c) s).
Proof. intros Hr. unfold call, bind, emit. now rewrite Hr. Qed.

Section Avoids.

Variable Q : Event -> Prop.

Lemma avoids_ret {A} (a : A) : avoids Q (ret a).
Proof. intros s. exists []. cbn. now rewrite app_nil_r. Qed.

Lemma avoids_throw {A} e : avoids Q (@throw A e).
Proof. intros s. exists []. cbn. now rewrite app_nil_r. Qed.

Lemma avoids_undefined {A} : avoids Q (@undefined A).
Proof. intros s. exists []. cbn. now rewrite app_nil_r. Qed.

Lemma avoids_defined {A} (o : option A) : avoids Q (defined o).
Proof. destruct o; [apply avoids_ret | apply avoids_undefined]. Qed.

Lemma avoids_emit e : ~ Q e -> avoids Q (emit e).
Proof. intros He s. exists [e]. cbn. split; [reflexivity | now constructor]. Qed.

Lemma avoids_bind {A B} (m : M A) (f : A -> M B) :
  avoids Q m -> (forall a, avoids Q (f a)) -> avoids Q (bind m f).
Proof.
  intros Hm Hf s. destruct (Hm s) as [t1 [Ht1 Hq1]].
  unfold bind. destruct (m s) as [[a | e |] s1]; cbn in Ht1.
  - destruct (Hf a s1) as [t2 [Ht2 Hq2]].
    exists (t1 ++ t2)%list. rewrite Ht2, Ht1, app_assoc.
    split; [reflexivity | now apply Forall_app].
  - now exists t1.
  - now exists t1.
Qed.

Lemma avoids_call env c : ~ Q (called c) -> avoids Q (call env c).
Proof.
  intros Hc. unfold call. apply avoids_bind; [now apply avoids_emit|].
  intros _. destruct (raises env c); [apply avoids_throw | apply avoids_ret].
Qed.

Lemma avoids_if {A} (b : bool) (m1 m2 : M A) :
  avoids Q m1 -> avoids Q m2 -> avoids Q (if b then m1 else m2).
Proof. now destruct b. Qed.

End Avoids.

(** An event that [m] avoids is in the trace afterwards only if it was there
    before. *)
Lemma avoids_In {A} (Q : Event -> Prop) (m : M A) s e :
  avoids Q m -> Q e -> In e (trace (snd (m s))) -> In e (trace s).
Proof.
  intros Hm He Hin. destruct (Hm s) as [t [Ht Hq]].
  rewrite Ht in Hin. apply in_app_or in Hin. destruct Hin as [Hin | Hin].
  - exact Hin.
  - rewrite Forall_forall in Hq. now destruct (Hq e Hin).
Qed.

Ltac not_that_event :=
  let H := fresh in
  intros H;
  first [ destruct H as [? H]; discriminate H
        | destruct H as [[? H] | [? H]]; discriminate H ].

Ltac avoids_step :=
  first [ apply avoids_ret | apply avoids_throw | apply avoids_undefined
        | apply avoids_defined
        | apply avoids_emit; not_that_event
        | apply avoids_call; not_that_event
        | apply avoids_if
        | apply avoids_bind; [|intros ?] ].

Lemma ParseAndCheckCommandLine_no_Infer fl :
  avoids is_Infer (ParseAndCheckCommandLine fl).
Proof. unfold ParseAndCheckCommandLine. repeat avoids_step. Qed.

Lemma load_plugin_no_Infer env fl : avoids is_Infer (load_plugin env fl).
Proof. unfold load_plugin. repeat avoids_step. Qed.

Lemma read_network_no_Infer env fl : avoids is_Infer (read_network env fl).
Proof. unfold read_network. repeat avoids_step. Qed.

(** Nothing up to the loaded network runs a forward pass. *)
Lemma startup_no_Infer env fl : avoids is_Infer (startup env fl).
Proof.
  unfold startup.
  apply avoids_bind; [avoids_step|intros _].
  apply avoids_bind; [apply ParseAndCheckCommandLine_no_Infer|intros ok].
  apply avoids_if; [avoids_step|].
  apply avoids_if; [avoids_step|].
  apply avoids_bind; [apply load_plugin_no_Infer|intros _].
  apply avoids_bind; [apply read_network_no_Infer|intros net].
  avoids_step.
Qed.

(** ** Exit codes *)

Lemma try_block_returns_0 env fl s0 c s :
  try_block env fl s0 = (Ok (Some c), s) -> c = 0.
Proof.
  unfold try_block. intros Hb.
  apply bind_Ok_inv in Hb. destruct Hb as [r [s1 [_ Hk]]].
  destruct r as [[imageNames network]|].
  - apply bind_Ok_inv in Hk. destruct Hk as [? [? [_ Hr]]]. discriminate Hr.
  - now inversion Hk.
Qed.

Lemma help_run env fl :
  FLAGS_h fl = true ->
  main env fl =
  {| exit_code := Some 0;
     final := {| trace := [slog_info ("InferenceEngine: " ++ ie_version env);
                           slog_info "Parsing input parameters";
                           showUsage];
                 clock_reads := 0; infer_calls := 0; request := [] |} |}.
Proof.
  intros Hh. unfold main, try_block, startup, ParseAndCheckCommandLine, bind, emit.
  rewrite Hh. reflexivity.
Qed.

(** C8: the process exits with code 0 when the help flag is present and when
    the [try] block runs to its end, and with code 1 whenever the block
    raises, be it a [std::exception] or anything else. *)
Theorem exit_codes env fl :
  (FLAGS_h fl = true -> exit_code (main env fl) = Some 0) /\
  (forall r s, try_block env fl initial_state = (Ok r, s) ->
               exit_code (main env fl) = Some 0) /\
  (forall what s, try_block env fl initial_state = (Throw (std_exception what), s) ->
                  exit_code (main env fl) = Some 1) /\
  (forall s, try_block env fl initial_state = (Throw unknown_exception, s) ->
             exit_code (main env fl) = Some 1).
Proof.
  repeat split.
  - intros Hh. now rewrite help_run.
  - intros r s Hb. unfold main. rewrite Hb. destruct r as [c|]; cbn.
    + now rewrite (try_block_returns_0 _ _ _ _ _ Hb).
    + reflexivity.
  - intros what s Hb. unfold main. now rewrite Hb.
  - intros s Hb. unfold main. now rewrite Hb.
Qed.

(** The four kinds of run: help, a complete run on one image, a device that
    is not found, and an untyped exception while reading the weights. *)
Lemma exit_codes_witness :
  exit_code (main (Scenario.world Scenario.net_one_input Scenario.no_failure)
                  (Scenario.flags true "" 0)) = Some 0 /\
  exit_code (main (Scenario.world Scenario.net_one_input Scenario.no_failure)
                  (Scenario.flags false "lr.png" 1)) = Some 0 /\
  exit_code (main (Scenario.world Scenario.net_one_input Scenario.no_device)
                  (Scenario.flags false "lr.png" 1)) = Some 1 /\
  exit_code (main (Scenario.world Scenario.net_one_input Scenario.odd_weights)
                  (Scenario.flags false "lr.png" 1)) = Some 1.
Proof.
  split; [|split; [|split]].
  - apply (proj1 (exit_codes _ _)). reflexivity.
  - eapply (proj1 (proj2 (exit_codes _ _))). vm_compute. reflexivity.
  - eapply (proj1 (proj2 (proj2 (exit_codes _ _)))). vm_compute. reflexivity.
  - eapply (proj2 (proj2 (proj2 (exit_codes _ _)))). vm_compute. reflexivity.
Defined.

(** ** The iteration count is checked before the model is touched *)

Lemma nonpositive_ni_run env fl :
  FLAGS_h fl = false -> FLAGS_ni fl < 1 ->
  main env fl =
  {| exit_code := Some 1;
     final := {| trace := [slog_info ("InferenceEngine: " ++ ie_version env);
                           slog_info "Parsing input parameters";
                           slog_err "Parameter -ni should be more than 0 !!! (default 1)"];
                 clock_reads := 0; infer_calls := 0; request := [] |} |}.
Proof.
  intros Hh Hni. apply Z.ltb_lt in Hni.
  unfold main, try_block, startup, ParseAndCheckCommandLine, bind, emit.
  rewrite Hh, Hni. reflexivity.
Qed.

(** C5, as the code has it: with [-ni] 0 or negative the model is never
    read; unless the help flag is given the run aborts with the fatal error
    about [-ni] and exit code 1, and with the help flag it shows the usage
    and exits with code 0. *)
Theorem nonpositive_ni_never_reads_model env fl :
  FLAGS_ni fl < 1 ->
  (forall e, is_model_read e -> ~ In e (trace (final (main env fl)))) /\
  (FLAGS_h fl = false ->
   exit_code (main env fl) = Some 1 /\
   In (slog_err "Parameter -ni should be more than 0 !!! (default 1)")
      (trace (final (main env fl)))) /\
  (FLAGS_h fl = true ->
   exit_code (main env fl) = Some 0 /\ In showUsage (trace (final (main env fl)))).
Proof.
  intros Hni. destruct (FLAGS_h fl) eqn:Hh.
  - rewrite (help_run env fl Hh). cbn. split; [|split].
    + intros e He Hin.
      destruct Hin as [<- | [<- | [<- | []]]];
        destruct He as [[? He] | [? He]]; discriminate He.
    + intros Hf. discriminate Hf.
    + intros _. split; [reflexivity|]. right. right. now left.
  - rewrite (nonpositive_ni_run env fl Hh Hni). cbn. split; [|split].
    + intros e He Hin.
      destruct Hin as [<- | [<- | [<- | []]]];
        destruct He as [[? He] | [? He]]; discriminate He.
    + intros _. split; [reflexivity|]. right. right. now left.
    + intros Hf. discriminate Hf.
Qed.

(** [-ni 0] on one image: exit code 1, and the model file is not read. *)
Lemma nonpositive_ni_never_reads_model_witness :
  FLAGS_ni (Scenario.flags false "lr.png" 0) < 1 /\
  exit_code (main (Scenario.world Scenario.net_one_input Scenario.no_failure)
                  (Scenario.flags false "lr.png" 0)) = Some 1 /\
  ~ In (called (ReadNetwork "model.xml"))
       (trace (final (main (Scenario.world Scenario.net_one_input Scenario.no_failure)
                           (Scenario.flags false "lr.png" 0)))).
Proof.
  assert (Hni : FLAGS_ni (Scenario.flags false "lr.png" 0) < 1) by reflexivity.
  split; [exact Hni|].
  destruct (nonpositive_ni_never_reads_model
              (Scenario.world Scenario.net_one_input Scenario.no_failure)
              (Scenario.flags false "lr.png" 0) Hni) as [Hread [Herr _]].
  split.
  - apply Herr. reflexivity.
  - apply Hread. left. now exists "model.xml".
Defined.

(** [-h -ni 0]: the iteration count is 0, and the run is no abort: it exits
    with code 0 and logs no error. *)
Lemma nonpositive_ni_with_help_exits_0 :
  FLAGS_ni (Scenario.flags true "lr.png" 0) <= 0 /\
  exit_code (main (Scenario.world Scenario.net_one_input Scenario.no_failure)
                  (Scenario.flags true "lr.png" 0)) = Some 0 /\
  (forall msg,
      ~ In (slog_err msg)
           (trace (final (main (Scenario.world Scenario.net_one_input Scenario.no_failure)
                               (Scenario.flags true "lr.png" 0))))).
Proof.
  split; [discriminate|]. split; [reflexivity|].
  intros msg Hin. vm_compute in Hin.
  destruct Hin as [Hin | [Hin | [Hin | []]]]; discriminate Hin.
Qed.

(** ** The number of inputs is checked before anything is inferred *)

Lemma configure_input_unsupported env network imageNames s :
  (List.length (inputsInfo network) < 1 \/ 2 < List.length (inputsInfo network))%nat ->
  configure_input env network imageNames s =
  (Throw (logic_error "The demo supports topologies with 1 or 2 inputs only"),
   log_event (slog_info "Preparing input blobs") s).
Proof.
  intros Hn. unfold configure_input, bind, emit.
  destruct (Z.eqb_spec (Z.of_nat (List.length (inputsInfo network))) 1); [lia|].
  destruct (Z.eqb_spec (Z.of_nat (List.length (inputsInfo network))) 2); [lia|].
  reflexivity.
Qed.

(** C4: when the network that was loaded declares fewer than 1 or more than
    2 inputs, the run ends with the fatal error about the topology and exit
    code 1, and no forward pass has been run. *)
Theorem unsupported_input_count_aborts env fl imageNames network s :
  startup env fl initial_state = (Ok (Some (imageNames, network)), s) ->
  (List.length (inputsInfo network) < 1 \/ 2 < List.length (inputsInfo network))%nat ->
  exit_code (main env fl) = Some 1 /\
  In (slog_err "The demo supports topologies with 1 or 2 inputs only")
     (trace (final (main env fl))) /\
  (forall e, is_Infer e -> ~ In e (trace (final (main env fl)))).
Proof.
  intros Hstart Hn.
  assert (Hmain : main env fl =
                  {| exit_code := Some 1;
                     final := log_event
                                (slog_err "The demo supports topologies with 1 or 2 inputs only")
                                (log_event (slog_info "Preparing input blobs") s) |}).
  { unfold main, try_block. rewrite (bind_Ok _ _ _ _ _ Hstart).
    unfold pipeline.
    rewrite (bind_Throw _ _ _ _ _
               (bind_Throw _ _ _ _ _
                  (configure_input_unsupported env network imageNames s Hn))).
    reflexivity. }
  rewrite Hmain. cbn. repeat split.
  - apply in_or_app. right. now left.
  - intros e He Hin.
    apply in_app_or in Hin. destruct Hin as [Hin | [<- | []]].
    + apply in_app_or in Hin. destruct Hin as [Hin | [<- | []]].
      * pose proof (avoids_In is_Infer (startup env fl) initial_state e
                              (startup_no_Infer env fl) He) as Hno.
        rewrite Hstart in Hno. exact (Hno Hin).
      * destruct He as [k He]. discriminate He.
    + destruct He as [k He]. discriminate He.
Qed.

(** A model with three inputs: the run stops at the topology check. *)
Lemma unsupported_input_count_aborts_witness :
  (2 < List.length (inputsInfo Scenario.net_three_inputs))%nat /\
  exit_code (main (Scenario.world Scenario.net_three_inputs Scenario.no_failure)
                  (Scenario.flags false "lr.png" 1)) = Some 1 /\
  ~ In (called (Infer 0))
       (trace (final (main (Scenario.world Scenario.net_three_inputs Scenario.no_failure)
                           (Scenario.flags false "lr.png" 1)))).
Proof.
  assert (Hn : (2 < List.length (inputsInfo Scenario.net_three_inputs))%nat)
    by (cbn; lia).
  split; [exact Hn|].
  edestruct (unsupported_input_count_aborts
               (Scenario.world Scenario.net_three_inputs Scenario.no_failure)
               (Scenario.flags false "lr.png" 1)
               ["lr.png"] Scenario.net_three_inputs) as [Hexit [_ Hno]].
  - vm_compute. reflexivity.
  - right. exact Hn.
  - split; [exact Hexit|]. apply Hno. now exists 0%nat.
Defined.

(** ** The filter over the candidate images *)

Lemma add_events_nil s : add_events [] s = s.
Proof. destruct s. unfold add_events. cbn. now rewrite app_nil_r. Qed.

Lemma log_event_add_events e t s :
  log_event e (add_events t s) = add_events (t ++ [e]) s.
Proof. unfold log_event, add_events. cbn. now rewrite app_assoc. Qed.

Lemma add_events_add_events t1 t2 s :
  add_events t2 (add_events t1 s) = add_events (t1 ++ t2) s.
Proof. unfold add_events. cbn. now rewrite app_assoc. Qed.

Lemma log_event_as_add_events e s : log_event e s = add_events [e] s.
Proof. reflexivity. Qed.

(** The loop over the candidates keeps what it had, appends the accepted
    images in order, and warns once about each rejected one. *)
Lemma collect_images_filter env inputInfo desc n c h w :
  lookup lrInputBlobName inputInfo = Some desc ->
  dims desc = [n; c; h; w] ->
  0 <= w < 2 ^ 31 -> 0 <= h < 2 ^ 31 ->
  forall imageNames inputImages s,
    collect_images env inputInfo imageNames inputImages s =
    (Ok (inputImages ++ accepted_images env w h imageNames)%list,
     add_events (flat_map (rejection_warnings env w h) imageNames) s).
Proof.
  intros Hlr Hdims Hw Hh.
  induction imageNames as [|i rest IH]; intros inputImages s.
  - cbn. now rewrite app_nil_r, add_events_nil.
  - cbn [collect_images accepted_images map filter flat_map].
    unfold rejection_warnings at 1.
    destruct (Mat_empty (imread env i)) eqn:Hempty.
    + assert (Hacc : accepted w h (imread env i) = false)
        by (unfold accepted; now rewrite Hempty).
      rewrite Hacc.
      rewrite (bind_Ok _ _ _ _ _ (emit_run _ s)).
      rewrite IH, log_event_as_add_events, add_events_add_events.
      reflexivity.
    + unfold bind, defined.
      rewrite Hlr. cbn [ret]. rewrite Hdims. cbn [nth_error ret].
      rewrite (to_int_small w Hw), (to_int_small h Hh).
      destruct (w =? cols (imread env i)) eqn:Hc;
        destruct (h =? rows (imread env i)) eqn:Hr;
        assert (Hacc : accepted w h (imread env i) = (true && true) \/
                       accepted w h (imread env i) = false)
          by (unfold accepted; rewrite Hempty, Hc, Hr; cbn; auto);
        destruct Hacc as [Hacc | Hacc];
        try (unfold accepted in Hacc; rewrite Hempty, Hc, Hr in Hacc; discriminate Hacc);
        rewrite Hacc; cbn [negb andb orb emit].
      * rewrite IH. cbn [app]. now rewrite <- app_assoc.
      * rewrite IH, log_event_as_add_events, add_events_add_events. reflexivity.
      * rewrite IH, log_event_as_add_events, add_events_add_events. reflexivity.
      * rewrite IH, log_event_as_add_events, add_events_add_events. reflexivity.
Qed.

(** The whole input-binding stage, for a network with 1 or 2 inputs. *)
Lemma configure_input_run env network imageNames desc n c h w s :
  lookup lrInputBlobName (inputsInfo network) = Some desc ->
  dims desc = [n; c; h; w] ->
  0 <= w < 2 ^ 31 -> 0 <= h < 2 ^ 31 ->
  (List.length (inputsInfo network) = 1 \/ List.length (inputsInfo network) = 2)%nat ->
  let candidates := Z.of_nat (List.length imageNames) in
  let seen := (slog_info "Preparing input blobs"
               :: flat_map (rejection_warnings env w h) imageNames)%list in
  configure_input env network imageNames s =
  if is_nil (accepted_images env w h imageNames) then
    (Throw (logic_error "Valid input images were not found!"), add_events seen s)
  else
    match raises env (setBatchSize candidates) with
    | Some e => (Throw e, add_events (seen ++ [called (setBatchSize candidates)]) s)
    | None =>
        (Ok (with_batchSize candidates network, accepted_images env w h imageNames),
         add_events (seen ++ [called (setBatchSize candidates);
                              slog_info ("Batch size is " ++ to_string candidates)]) s)
    end.
Proof.
  intros Hlr Hdims Hw Hh Hn candidates seen.
  unfold configure_input.
  rewrite (bind_Ok _ _ _ _ _ (emit_run _ s)).
  assert (Hsize : negb (Z.of_nat (List.length (inputsInfo network)) =? 1)
                  && negb (Z.of_nat (List.length (inputsInfo network)) =? 2) = false).
  { destruct Hn as [-> | ->]; reflexivity. }
  rewrite Hsize.
  rewrite (bind_Ok _ _ _ _ _
             (collect_images_filter env (inputsInfo network) desc n c h w
                                    Hlr Hdims Hw Hh imageNames [] _)).
  cbn [app]. rewrite log_event_as_add_events, add_events_add_events. cbn [app].
  fold seen.
  destruct (is_nil (accepted_images env w h imageNames)); [reflexivity|].
  fold candidates. unfold call, bind, emit, throw, ret.
  rewrite log_event_add_events.
  destruct (raises env (setBatchSize candidates)); [reflexivity|].
  rewrite log_event_add_events, <- app_assoc. reflexivity.
Qed.

(** C6, as the code has it: when the network declares an input named "0"
    with four dimensions, the last two of which, [h] and [w], are [int]
    values, the loop
    over the candidates returns exactly the images that decoded and have
    that size, in order, and warns once about every other candidate without
    stopping; and when none is left, the run that got as far as the loaded
    network ends with the fatal error about valid images and exit code 1. *)
Theorem rejected_candidates_are_skipped env fl network imageNames desc n c h w :
  lookup lrInputBlobName (inputsInfo network) = Some desc ->
  dims desc = [n; c; h; w] ->
  0 <= w < 2 ^ 31 -> 0 <= h < 2 ^ 31 ->
  (forall s,
      collect_images env (inputsInfo network) imageNames [] s =
      (Ok (accepted_images env w h imageNames),
       add_events (flat_map (rejection_warnings env w h) imageNames) s)) /\
  (forall s0,
      startup env fl initial_state = (Ok (Some (imageNames, network)), s0) ->
      (List.length (inputsInfo network) = 1 \/ List.length (inputsInfo network) = 2)%nat ->
      accepted_images env w h imageNames = [] ->
      exit_code (main env fl) = Some 1 /\
      In (slog_err "Valid input images were not found!") (trace (final (main env fl)))).
Proof.
  intros Hlr Hdims Hw Hh. split.
  - intros s.
    now rewrite (collect_images_filter env (inputsInfo network) desc n c h w
                                       Hlr Hdims Hw Hh imageNames [] s).
  - intros s0 Hstart Hn Hnone.
    pose proof (configure_input_run env network imageNames desc n c h w s0
                                    Hlr Hdims Hw Hh Hn) as Hrun.
    cbv zeta in Hrun. rewrite Hnone in Hrun. cbn [is_nil] in Hrun.
    unfold main, try_block. rewrite (bind_Ok _ _ _ _ _ Hstart).
    unfold pipeline.
    rewrite (bind_Throw _ _ _ _ _ (bind_Throw _ _ _ _ _ Hrun)).
    cbn. split; [reflexivity|].
    apply in_or_app. right. now left.
Qed.

(** Three candidates, of which one has the wrong size and one is no image:
    one image is kept and two warnings are logged.  And a run on the
    wrong-sized image alone ends with exit code 1. *)
Lemma rejected_candidates_are_skipped_witness :
  collect_images (Scenario.world Scenario.net_one_input Scenario.no_failure)
                 (inputsInfo Scenario.net_one_input)
                 ["big.png"; "lr.png"; "notes.txt"] [] initial_state =
  (Ok [Scenario.lr_image],
   add_events [slog_warn "Size of the image big.png is not equal to WxH = 2x2";
               slog_warn "Image notes.txt cannot be read!"] initial_state) /\
  exit_code (main (Scenario.world Scenario.net_one_input Scenario.no_failure)
                  (Scenario.flags false "big.png" 1)) = Some 1.
Proof.
  assert (H2 : 0 <= 2 < 2 ^ 31) by (split; [discriminate | reflexivity]).
  split.
  - apply (proj1 (rejected_candidates_are_skipped
                    (Scenario.world Scenario.net_one_input Scenario.no_failure)
                    (Scenario.flags false "mixed" 1)
                    Scenario.net_one_input ["big.png"; "lr.png"; "notes.txt"]
                    Scenario.lr_desc 1 3 2 2 eq_refl eq_refl H2 H2)).
  - refine (proj1 (proj2 (rejected_candidates_are_skipped
                    (Scenario.world Scenario.net_one_input Scenario.no_failure)
                    (Scenario.flags false "big.png" 1)
                    Scenario.net_one_input ["big.png"]
                    Scenario.lr_desc 1 3 2 2 eq_refl eq_refl H2 H2) _ _ _ _)).
    + vm_compute. reflexivity.
    + left. reflexivity.
    + reflexivity.
Defined.

(** Without an input named "0" the size that the candidates are compared
    with is read through a null pointer: on a model whose only input is
    named "data", the 3x3 candidate, which decodes and does not have the
    2x2 size of that input, draws no warning and no fatal error, and the run
    has no defined outcome.  And a declared width that is no [int] value is
    truncated before the comparison: against a declared width of 2^32 + 2
    the 2x2 image, whose width differs, is kept without a warning. *)
Lemma wrong_size_candidate_is_not_skipped :
  Mat_empty (Scenario.decode "big.png") = false /\
  fst (collect_images (Scenario.world Scenario.net_data_input Scenario.no_failure)
                      (inputsInfo Scenario.net_data_input) ["big.png"] []
                      initial_state) = Undefined /\
  exit_code (main (Scenario.world Scenario.net_data_input Scenario.no_failure)
                  (Scenario.flags false "big.png" 1)) = None /\
  (forall msg,
      ~ In (slog_warn msg)
           (trace (final (main (Scenario.world Scenario.net_data_input
                                               Scenario.no_failure)
                               (Scenario.flags false "big.png" 1)))) /\
      ~ In (slog_err msg)
           (trace (final (main (Scenario.world Scenario.net_data_input
                                               Scenario.no_failure)
                               (Scenario.flags false "big.png" 1))))) /\
  cols Scenario.lr_image <> 4294967298 /\
  collect_images (Scenario.world Scenario.net_wide_input Scenario.no_failure)
                 (inputsInfo Scenario.net_wide_input) ["lr.png"] []
                 initial_state = (Ok [Scenario.lr_image], initial_state).
Proof.
  split; [reflexivity|]. split; [reflexivity|]. split; [reflexivity|].
  split; [|split; [discriminate | reflexivity]].
  intros msg. split; intros Hin; vm_compute in Hin;
    repeat (destruct Hin as [Hin | Hin]; [discriminate Hin|]); exact Hin.
Qed.

(** ** The batch size *)

(** Whenever input binding succeeds, the batch size it leaves is the number
    of candidate paths. *)
Lemma batch_size_is_candidate_count env network imageNames s network' inputImages s' :
  configure_input env network imageNames s = (Ok (network', inputImages), s') ->
  getBatchSize network' = Z.of_nat (List.length imageNames).
Proof.
  unfold configure_input. intros Hrun.
  apply bind_Ok_inv in Hrun. destruct Hrun as [[] [s1 [_ Hrun]]].
  destruct (negb (Z.of_nat (List.length (inputsInfo network)) =? 1)
            && negb (Z.of_nat (List.length (inputsInfo network)) =? 2));
    [discriminate Hrun|].
  apply bind_Ok_inv in Hrun. destruct Hrun as [imgs [s2 [_ Hrun]]].
  destruct (is_nil imgs); [discriminate Hrun|].
  apply bind_Ok_inv in Hrun. destruct Hrun as [[] [s3 [_ Hrun]]].
  apply bind_Ok_inv in Hrun. destruct Hrun as [[] [s4 [_ Hrun]]].
  inversion Hrun. reflexivity.
Qed.

(** C1 at two candidate paths of which the second is no image: input binding
    succeeds with one accepted image, and leaves the batch size at 2. *)
Theorem batch_size_counts_rejected_candidates :
  exists network' s',
    configure_input (Scenario.world Scenario.net_one_input Scenario.no_failure)
                    Scenario.net_one_input ["lr.png"; "notes.txt"] initial_state
    = (Ok (network', [Scenario.lr_image]), s') /\
    accepted_images (Scenario.world Scenario.net_one_input Scenario.no_failure)
                    2 2 ["lr.png"; "notes.txt"] = [Scenario.lr_image] /\
    getBatchSize network' = 2.
Proof.
  eexists. eexists. split; [vm_compute; reflexivity|].
  split; reflexivity.
Qed.

(** ** The files written *)

Lemma written_files_app t1 t2 :
  written_files (t1 ++ t2) = (written_files t1 ++ written_files t2)%list.
Proof.
  induction t1 as [|e t1 IH]; [reflexivity|].
  destruct e as [| | | | | |c]; cbn; try exact IH.
  destruct c; cbn; try exact IH. now rewrite IH.
Qed.

Lemma defined_Ok_inv {A} (o : option A) s a s' :
  defined o s = (Ok a, s') -> o = Some a /\ s' = s.
Proof.
  destruct o as [x|]; cbn; intros Hd; [|discriminate Hd].
  inversion Hd. now split.
Qed.

Lemma call_Ok_inv env c s u s' :
  call env c s = (Ok u, s') -> s' = log_event (called c) s.
Proof.
  unfold call, bind, emit. destruct (raises env c); intros Hc.
  - discriminate Hc.
  - now inversion Hc.
Qed.

(** The name under which batch element [i] is written. *)
Lemma write_results_files env fl outputData numOfChannels h w nunOfPixels :
  forall elems s s',
    write_results env fl outputData numOfChannels h w nunOfPixels elems s = (Ok tt, s') ->
    written_files (trace s') =
    List.app (written_files (trace s))
             (map (fun i => "sr_" ++ to_string (size_add (size_width env) (Z.of_nat i) 1)
                            ++ ".png") elems).
Proof.
  induction elems as [|i rest IH]; intros s s' Hrun.
  - inversion Hrun. cbn. now rewrite app_nil_r.
  - cbn [write_results] in Hrun.
    apply bind_Ok_inv in Hrun. destruct Hrun as [imgPlanes [s1 [Hpl Hrun]]].
    apply defined_Ok_inv in Hpl. destruct Hpl as [_ ->].
    apply bind_Ok_inv in Hrun. destruct Hrun as [[] [s2 [Hshow Hrun]]].
    assert (Hs2 : written_files (trace s2) = written_files (trace s)).
    { destruct (FLAGS_show fl).
      - apply bind_Ok_inv in Hshow. destruct Hshow as [[] [s3 [He Hshow]]].
        inversion He; subst s3.
        apply bind_Ok_inv in Hshow. destruct Hshow as [[] [s4 [Hc1 Hc2]]].
        apply call_Ok_inv in Hc1, Hc2. subst s4 s2.
        cbn [trace log_event]. rewrite !written_files_app. cbn.
        now rewrite !app_nil_r.
      - now inversion Hshow. }
    apply bind_Ok_inv in Hrun. destruct Hrun as [[] [s3 [Hw Hrun]]].
    apply call_Ok_inv in Hw. subst s3.
    rewrite (IH _ _ Hrun). cbn [trace log_event map].
    rewrite written_files_app, Hs2. cbn [written_files].
    now rewrite <- app_assoc.
Qed.

(** C2 at the same two candidates: one image is accepted, and the run writes
    two files, [sr_1.png] and [sr_2.png]. *)
Theorem two_files_for_one_accepted_image :
  accepted_images (Scenario.world Scenario.net_one_input Scenario.no_failure)
                  2 2 ["lr.png"; "notes.txt"] = [Scenario.lr_image] /\
  exit_code (main (Scenario.world Scenario.net_one_input Scenario.no_failure)
                  (Scenario.flags false "dir" 1)) = Some 0 /\
  written_files
    (trace (final (main (Scenario.world Scenario.net_one_input Scenario.no_failure)
                        (Scenario.flags false "dir" 1))))
  = ["sr_1.png"; "sr_2.png"].
Proof.
  split; [reflexivity|]. split; vm_compute; reflexivity.
Qed.

(** ** The timed inference loop *)

Lemma forward_passes_app t1 t2 :
  forward_passes (t1 ++ t2) = (forward_passes t1 + forward_passes t2)%nat.
Proof.
  induction t1 as [|e t1 IH]; [reflexivity|].
  destruct e as [| | | | | |c]; cbn; try exact IH.
  destruct c; cbn; try exact IH. now rewrite IH.
Qed.


Lemma durations_S env c n :
  durations env c (S n) = measured env c 0 :: durations env (S (S c)) n.
Proof.
  unfold durations. cbn [seq map]. f_equal.
  rewrite <- seq_shift, map_map. apply map_ext. intros k.
  unfold measured.
  replace (c + 2 * S k + 1)%nat with (S (S c) + 2 * k + 1)%nat by lia.
  replace (c + 2 * S k)%nat with (S (S c) + 2 * k)%nat by lia.
  reflexivity.
Qed.

Lemma measured_0 env c :
  measured env c 0 = duration_ms env (Time_now env (S c) - Time_now env c).
Proof.
  unfold measured.
  replace (c + 2 * 0 + 1)%nat with (S c) by lia.
  replace (c + 2 * 0)%nat with c by lia.
  reflexivity.
Qed.

(** The loop with [n] iterations to go, when no pass raises: it returns the
    running total plus the [n] measured durations, added in order, after
    exactly [n] forward passes and [2 n] clock reads. *)
Lemma inference_loop_run env n :
  forall total s,
    (forall k, (k < n)%nat -> raises env (Infer (infer_calls s + k)) = None) ->
    exists s',
      inference_loop env n total s =
      (Ok (fold_left PrimFloat.add (durations env (clock_reads s) n) total), s') /\
      trace s' = (trace s ++ passes (infer_calls s) n)%list /\
      clock_reads s' = (clock_reads s + 2 * n)%nat /\
      infer_calls s' = (infer_calls s + n)%nat.
Proof.
  induction n as [|n IH]; intros total s Hok.
  - exists s. cbn. rewrite app_nil_r. repeat split; lia.
  - assert (H0 : raises env (Infer (infer_calls s)) = None).
    { rewrite <- (Nat.add_0_r (infer_calls s)). apply Hok. lia. }
    cbn [inference_loop]. unfold bind at 1. cbn [Time_now_].
    unfold Infer_. unfold bind at 1. unfold bind at 1. cbn [infer_calls].
    unfold bind at 1. rewrite call_returns by exact H0.
    unfold set_request. cbn [trace clock_reads infer_calls request log_event].
    unfold bind at 1. cbn [Time_now_ trace clock_reads infer_calls request].
    match goal with
    | |- context [inference_loop env n ?t ?s1] =>
        destruct (IH t s1) as [s' [Hrun [Htr [Hclk Hinf]]]]
    end.
    { intros k Hk. cbn [infer_calls].
      replace (S (infer_calls s) + k)%nat with (infer_calls s + S k)%nat by lia.
      apply Hok. lia. }
    exists s'. rewrite Hrun. cbn [trace clock_reads infer_calls] in *.
    rewrite durations_S, measured_0. cbn [fold_left].
    split; [reflexivity|]. split; [|split; lia].
    rewrite Htr. unfold passes. cbn [seq map]. now rewrite <- app_assoc.
Qed.

Lemma iterations_of_int env fl :
  1 <= FLAGS_ni fl < 2 ^ 31 -> iterations env fl = Z.to_nat (FLAGS_ni fl).
Proof.
  intros Hni. unfold iterations. rewrite to_size_t_small; [reflexivity|].
  pose proof (int_fits_size_t (size_width env)). lia.
Qed.

(** The inference stage up to the optional performance counters. *)
Lemma do_inference_run env fl s :
  1 <= FLAGS_ni fl < 2 ^ 31 ->
  (forall k, (k < Z.to_nat (FLAGS_ni fl))%nat ->
             raises env (Infer (infer_calls s + k)) = None) ->
  exists s',
    trace s' =
      (trace s
       ++ slog_info ("Start inference (" ++ to_string (FLAGS_ni fl) ++ " iterations)")
       :: passes (infer_calls s) (Z.to_nat (FLAGS_ni fl))
       ++ [cout_average
             (sum_ms (durations env (clock_reads s) (Z.to_nat (FLAGS_ni fl)))
              / double_of_int (FLAGS_ni fl))%float])%list /\
    do_inference env fl s =
      if FLAGS_pc fl then call env printPerformanceCounts s' else (Ok tt, s').
Proof.
  intros Hni Hok.
  destruct (inference_loop_run env (Z.to_nat (FLAGS_ni fl)) 0%float
              (log_event (slog_info ("Start inference (" ++ to_string (FLAGS_ni fl)
                                     ++ " iterations)")) s))
    as [s' [Hrun [Htr _]]]; [exact Hok|].
  cbn [trace infer_calls clock_reads log_event] in Hrun, Htr.
  exists (log_event
            (cout_average
               (sum_ms (durations env (clock_reads s) (Z.to_nat (FLAGS_ni fl)))
                / double_of_int (FLAGS_ni fl))%float) s').
  split.
  - cbn [trace log_event]. rewrite Htr. rewrite <- !app_assoc. reflexivity.
  - unfold do_inference.
    rewrite (bind_Ok _ _ _ _ _ (emit_run _ s)).
    rewrite (iterations_of_int env fl Hni).
    rewrite (bind_Ok _ _ _ _ _ Hrun).
    rewrite (bind_Ok _ _ _ _ _ (emit_run _ s')).
    now destruct (FLAGS_pc fl).
Qed.



(** ** Filling the input blobs *)

Lemma lookup_update_same {A} key (v v0 : A) m :
  lookup key m = Some v0 -> lookup key (update key v m) = Some v.
Proof.
  induction m as [|[k x] m IH]; cbn; [discriminate|].
  destruct (String.eqb k key) eqn:Hk; cbn; rewrite Hk; [reflexivity | exact IH].
Qed.

Lemma lookup_update_other {A} key key' (v : A) m :
  key <> key' -> lookup key' (update key v m) = lookup key' m.
Proof.
  intros Hne. induction m as [|[k x] m IH]; cbn; [reflexivity|].
  destruct (String.eqb_spec k key) as [-> | Hk]; cbn.
  - destruct (String.eqb_spec key key'); [contradiction | reflexivity].
  - destruct (String.eqb k key'); [reflexivity | exact IH].
Qed.

Lemma length_set_nth {A} i (x : A) l : List.length (set_nth i x l) = List.length l.
Proof.
  revert i. induction l as [|y l IH]; intros i; [reflexivity|].
  destruct i; cbn; [reflexivity | now rewrite IH].
Qed.

Lemma nth_error_set_nth_same {A} i (x : A) l :
  (i < List.length l)%nat -> nth_error (set_nth i x l) i = Some x.
Proof.
  revert i. induction l as [|y l IH]; intros i Hi; cbn in Hi; [lia|].
  destruct i; cbn; [reflexivity | apply IH; lia].
Qed.

Lemma nth_error_set_nth_other {A} i j (x : A) l :
  i <> j -> nth_error (set_nth i x l) j = nth_error l j.
Proof.
  revert i j. induction l as [|y l IH]; intros i j Hne; [reflexivity|].
  destruct i, j; cbn; try reflexivity; [contradiction | apply IH; lia].
Qed.

(** Writing an image into a slot that exists. *)
Lemma matU8ToBlob_run img blob i s b :
  lookup blob (request s) = Some b ->
  (i < List.length (slots b))%nat ->
  matU8ToBlob img blob i s =
  (Ok tt,
   {| trace := trace s; clock_reads := clock_reads s; infer_calls := infer_calls s;
      request := update blob
                        {| kind := kind b; bdims := bdims b;
                           slots := set_nth i (Some img) (slots b);
                           buffer := buffer b |}
                        (request s) |}).
Proof.
  intros Hb Hi. unfold matU8ToBlob. rewrite Hb.
  apply Nat.ltb_lt in Hi. now rewrite Hi.
Qed.

Lemma GetBlob_run name s b :
  lookup name (request s) = Some b -> GetBlob name s = (Ok name, s).
Proof. intros Hb. unfold GetBlob. now rewrite Hb. Qed.

Lemma names_differ : lrInputBlobName <> bicInputBlobName.
Proof. discriminate. Qed.

(** The filling loop from batch index [i] on, for a network with two
    inputs: every image goes to its own slot of the first blob, and its
    cubic resize to the same slot of the second; the slots below [i] are
    left as they were. *)
Lemma fill_inputs_two env n c H W :
  0 <= W < 2 ^ 31 -> 0 <= H < 2 ^ 31 ->
  forall inputImages i s b0 b1,
    lookup lrInputBlobName (request s) = Some b0 ->
    lookup bicInputBlobName (request s) = Some b1 ->
    bdims b1 = [n; c; H; W] ->
    (i + List.length inputImages <= List.length (slots b0))%nat ->
    (i + List.length inputImages <= List.length (slots b1))%nat ->
    (forall img, In img inputImages ->
                 raises env (cv_resize img W H INTER_CUBIC) = None) ->
    exists s' b0' b1',
      fill_inputs env lrInputBlobName true inputImages i s = (Ok tt, s') /\
      lookup lrInputBlobName (request s') = Some b0' /\
      lookup bicInputBlobName (request s') = Some b1' /\
      List.length (slots b0') = List.length (slots b0) /\
      List.length (slots b1') = List.length (slots b1) /\
      bdims b1' = [n; c; H; W] /\
      (forall j, (j < i)%nat ->
                 nth_error (slots b0') j = nth_error (slots b0) j /\
                 nth_error (slots b1') j = nth_error (slots b1) j) /\
      (forall j img, nth_error inputImages j = Some img ->
                     nth_error (slots b0') (i + j) = Some (Some img) /\
                     nth_error (slots b1') (i + j) =
                       Some (Some (resize_result env img W H INTER_CUBIC))).
Proof.
  intros HW HH.
  induction inputImages as [|img rest IH]; intros i s b0 b1 H0 H1 Hd Hl0 Hl1 Hres.
  - exists s, b0, b1. cbn. repeat split; try assumption; try reflexivity.
    + destruct j; discriminate.
    + destruct j; discriminate.
  - cbn [List.length] in Hl0, Hl1.
    cbn [fill_inputs].
    rewrite (bind_Ok _ _ _ _ _ (matU8ToBlob_run img _ i s b0 H0 ltac:(lia))).
    set (b0a := {| kind := kind b0; bdims := bdims b0;
                   slots := set_nth i (Some img) (slots b0);
                   buffer := buffer b0 |}).
    set (s1 := {| trace := trace s; clock_reads := clock_reads s;
                  infer_calls := infer_calls s;
                  request := update lrInputBlobName b0a (request s) |}).
    assert (H1s1 : lookup bicInputBlobName (request s1) = Some b1).
    { cbn [request s1]. rewrite lookup_update_other by exact names_differ.
      exact H1. }
    assert (Hraise : raises env (cv_resize img W H INTER_CUBIC) = None)
      by (apply Hres; now left).
    set (resized := resize_result env img W H INTER_CUBIC).
    set (b1a := {| kind := kind b1; bdims := bdims b1;
                   slots := set_nth i (Some resized) (slots b1);
                   buffer := buffer b1 |}).
    set (s2 := log_event (called (cv_resize img W H INTER_CUBIC)) s1).
    set (s3 := {| trace := trace s2; clock_reads := clock_reads s2;
                  infer_calls := infer_calls s2;
                  request := update bicInputBlobName b1a (request s2) |}).
    assert (Hstep :
              (bicInputBlob <- GetBlob bicInputBlobName ;;
               b <- deref bicInputBlob ;;
               d3 <- defined (nth_error (bdims b) 3) ;;
               d2 <- defined (nth_error (bdims b) 2) ;;
               call env (cv_resize img (to_int d3) (to_int d2) INTER_CUBIC) ;;
               matU8ToBlob (resize_result env img (to_int d3) (to_int d2) INTER_CUBIC)
                           bicInputBlob i) s1
              = (Ok tt, s3)).
    { rewrite (bind_Ok _ _ _ _ _ (GetBlob_run _ s1 b1 H1s1)).
      unfold deref at 1. unfold bind at 1. rewrite H1s1. cbn [defined ret].
      rewrite Hd. cbn [nth_error defined]. unfold bind at 1. cbn [ret].
      unfold bind at 1. cbn [ret].
      rewrite (to_int_small W HW), (to_int_small H HH).
      rewrite (bind_Ok _ _ _ _ _ (call_returns env _ s1 Hraise)).
      fold s2. fold resized.
      apply (matU8ToBlob_run resized _ i s2 b1); [exact H1s1 | lia]. }
    rewrite (bind_Ok _ _ _ _ _ Hstep).
    assert (H0s3 : lookup lrInputBlobName (request s3) = Some b0a).
    { cbn [request s3 s2 log_event s1].
      rewrite lookup_update_other by (intros Heq; symmetry in Heq; exact (names_differ Heq)).
      now apply (lookup_update_same _ _ b0). }
    assert (H1s3 : lookup bicInputBlobName (request s3) = Some b1a).
    { cbn [request s3]. now apply (lookup_update_same _ _ b1). }
    destruct (IH (S i) s3 b0a b1a H0s3 H1s3) as
        [s' [b0' [b1' [Hrun [H0' [H1' [Hlen0 [Hlen1 [Hd' [Hkeep Hnew]]]]]]]]]].
    + exact Hd.
    + cbn [slots b0a]. rewrite length_set_nth. lia.
    + cbn [slots b1a]. rewrite length_set_nth. lia.
    + intros img' Hin. apply Hres. now right.
    + exists s', b0', b1'. rewrite Hrun.
      cbn [slots b0a b1a] in Hlen0, Hlen1. rewrite length_set_nth in Hlen0, Hlen1.
      split; [reflexivity|]. split; [exact H0'|]. split; [exact H1'|].
      split; [exact Hlen0|]. split; [exact Hlen1|]. split; [exact Hd'|]. split.
      * intros j Hj. destruct (Hkeep j ltac:(lia)) as [Hk0 Hk1].
        rewrite Hk0, Hk1. cbn [slots b0a b1a].
        split; apply nth_error_set_nth_other; lia.
      * intros j img' Hj. destruct j as [|j]; cbn [nth_error] in Hj.
        -- inversion Hj; subst img'. rewrite Nat.add_0_r.
           destruct (Hkeep i ltac:(lia)) as [Hk0 Hk1].
           rewrite Hk0, Hk1. cbn [slots b0a b1a].
           split; apply nth_error_set_nth_same; lia.
        -- replace (i + S j)%nat with (S i + j)%nat by lia.
           now apply Hnew.
Qed.

(** C3, as the code has it: when the network declares exactly 2 inputs, and
    the request has blobs named "0" and "1", the second with four dimensions
    whose height and width are [int] values, both with a batch slot for
    every accepted image, and the codec
    resizes each of them without raising, then after the filling stage slot
    [i] of the second input blob holds exactly the cubic resize of accepted
    image [i] to the declared width and height of that second input. *)
Theorem companion_is_cubic_resize env inputInfo inputImages s b0 b1 n c H W :
  List.length inputInfo = 2%nat ->
  lookup lrInputBlobName (request s) = Some b0 ->
  lookup bicInputBlobName (request s) = Some b1 ->
  bdims b1 = [n; c; H; W] ->
  0 <= W < 2 ^ 31 -> 0 <= H < 2 ^ 31 ->
  (List.length inputImages <= List.length (slots b0))%nat ->
  (List.length inputImages <= List.length (slots b1))%nat ->
  (forall img, In img inputImages ->
               raises env (cv_resize img W H INTER_CUBIC) = None) ->
  exists s' b1',
    prepare_input env inputInfo inputImages s = (Ok tt, s') /\
    lookup bicInputBlobName (request s') = Some b1' /\
    bdims b1' = [n; c; H; W] /\
    (forall i img,
        nth_error inputImages i = Some img ->
        nth_error (slots b1') i =
          Some (Some (resize_result env img W H INTER_CUBIC))).
Proof.
  intros Htwo H0 H1 Hd HW HH Hl0 Hl1 Hres.
  destruct (fill_inputs_two env n c H W HW HH inputImages 0%nat s b0 b1
                            H0 H1 Hd Hl0 Hl1 Hres)
    as [s' [b0' [b1' [Hrun [_ [H1' [_ [_ [Hd' [_ Hnew]]]]]]]]]].
  exists s', b1'. split; [|split; [exact H1'|split; [exact Hd'|]]].
  - unfold prepare_input.
    rewrite (bind_Ok _ _ _ _ _ (GetBlob_run _ s b0 H0)).
    rewrite Htwo. exact Hrun.
  - intros i img Hi. exact (proj2 (Hnew i img Hi)).
Qed.

(** The model with a 2x2 input and a 4x4 companion, one accepted image and
    a batch of 1: slot 0 of blob "1" holds the image resized to 4x4. *)
Lemma companion_is_cubic_resize_witness :
  exists s' b1',
    prepare_input (Scenario.world Scenario.net_two_inputs Scenario.no_failure)
                  (inputsInfo Scenario.net_two_inputs) [Scenario.lr_image]
                  {| trace := []; clock_reads := 0; infer_calls := 0;
                     request := allocate_blobs Scenario.net_two_inputs |}
    = (Ok tt, s') /\
    lookup bicInputBlobName (request s') = Some b1' /\
    nth_error (slots b1') 0 =
      Some (Some (Scenario.resized Scenario.lr_image 4 4 INTER_CUBIC)).
Proof.
  assert (H4 : 0 <= 4 < 2 ^ 31) by (split; [discriminate | reflexivity]).
  destruct (companion_is_cubic_resize
              (Scenario.world Scenario.net_two_inputs Scenario.no_failure)
              (inputsInfo Scenario.net_two_inputs) [Scenario.lr_image]
              {| trace := []; clock_reads := 0; infer_calls := 0;
                 request := allocate_blobs Scenario.net_two_inputs |}
              (allocate_input 1 Scenario.lr_desc)
              (allocate_input 1 Scenario.hr_desc)
              1 3 4 4 eq_refl eq_refl eq_refl eq_refl H4 H4
              (le_n 1) (le_n 1) (fun _ _ => eq_refl))
    as [s' [b1' [Hrun [Hb [_ Hslot]]]]].
  exists s', b1'. split; [exact Hrun|]. split; [exact Hb|].
  apply (Hslot 0%nat Scenario.lr_image). reflexivity.
Defined.

(** A model with exactly 2 inputs, named "0" and "bic", run on one accepted
    image: the lookup of the blob "1" (line 199) throws, the run ends with
    exit code 1, the codec is never asked to resize, and the slot of the
    second input is left unfilled. *)
Lemma companion_needs_an_input_named_1 :
  List.length (inputsInfo Scenario.net_lr_and_bic) = 2%nat /\
  accepted_images (Scenario.world Scenario.net_lr_and_bic Scenario.no_failure)
                  2 2 ["lr.png"] = [Scenario.lr_image] /\
  exit_code (main (Scenario.world Scenario.net_lr_and_bic Scenario.no_failure)
                  (Scenario.flags false "lr.png" 1)) = Some 1 /\
  In (slog_err "Failed to find input or output with name: 1")
     (trace (final (main (Scenario.world Scenario.net_lr_and_bic Scenario.no_failure)
                         (Scenario.flags false "lr.png" 1)))) /\
  (forall img w h interp,
      ~ In (called (cv_resize img w h interp))
           (trace (final (main (Scenario.world Scenario.net_lr_and_bic
                                               Scenario.no_failure)
                               (Scenario.flags false "lr.png" 1))))) /\
  lookup "bic"
         (request (final (main (Scenario.world Scenario.net_lr_and_bic
                                               Scenario.no_failure)
                               (Scenario.flags false "lr.png" 1)))) =
  Some {| kind := InputBlob; bdims := [1; 3; 4; 4]; slots := [None]; buffer := [] |}.
Proof.
  split; [reflexivity|]. split; [reflexivity|]. split; [reflexivity|].
  split; [vm_compute; tauto|]. split; [|reflexivity].
  intros img w h interp Hin. vm_compute in Hin.
  repeat (destruct Hin as [Hin | Hin]; [discriminate Hin|]). exact Hin.
Qed.

(** The request that [create_request] leaves has, for every declared input,
    a blob with one slot per unit of the batch size. *)
Lemma allocate_blobs_input net name desc :
  lookup name (inputsInfo net) = Some desc ->
  lookup name (allocate_blobs net) = Some (allocate_input (batchSize net) desc).
Proof.
  unfold allocate_blobs. generalize (allocate_outputs (batchSize net) (outputsInfo net)).
  intros outs. induction (inputsInfo net) as [|[k d] ins IH]; cbn; [discriminate|].
  destruct (String.eqb k name).
  - intros Hd. now inversion Hd.
  - exact IH.
Qed.

Lemma allocate_input_slots n desc :
  List.length (slots (allocate_input n desc)) = Z.to_nat n.
Proof. cbn. apply repeat_length. Qed.

(** ** Runs of the small world *)

Example to_int_wraps : to_int (2 ^ 32 + 2) = 2 /\ to_int (2 ^ 31) = - 2 ^ 31.
Proof. split; reflexivity. Qed.

Example to_string_13 : to_string 13 = "13".
Proof. reflexivity. Qed.

Example contains_CPU :
  contains "CPU" "HETERO:FPGA,CPU" = true /\ contains "CPU" "MYRIAD" = false.
Proof. split; reflexivity. Qed.

(** A pass of 3 ms is measured as 3.0000000260770321 ms: 0.003 is no
    [float], and the nearest one is a little more. *)
Example chrono_ms_of_3_ms : chrono_ms 3000000 = 0x1.80000038p+1%float.
Proof. vm_compute. reflexivity. Qed.

(** One image, one iteration: the whole trace of a successful run. *)
Example run_on_one_image :
  main (Scenario.world Scenario.net_one_input Scenario.no_failure)
       (Scenario.flags false "lr.png" 1) =
  {| exit_code := Some 0;
     final :=
       {| trace :=
            [slog_info "InferenceEngine: 1.6";
             slog_info "Parsing input parameters";
             slog_info "Loading plugin";
             called (getPluginByDevice "" "MYRIAD");
             called printPluginVersion;
             slog_info "Loading network files";
             called (ReadNetwork "model.xml");
             called (ReadWeights "model.xml.bin");
             slog_info "Preparing input blobs";
             called (setBatchSize 1);
             slog_info "Batch size is 1";
             slog_info "Preparing output blobs";
             slog_info "Loading model to the plugin";
             called (LoadNetwork Scenario.net_one_input);
             slog_info "Create infer request";
             called CreateInferRequest;
             slog_info "Start inference (1 iterations)";
             called (Infer 0);
             cout_average 0x1.80000038p+1%float;
             slog_info "Output size [N,C,H,W]: 1, 3, 4, 4";
             called (imwrite "sr_1.png"
                             {| rows := 4; cols := 4; mat_type := CV_8UC3;
                                mat_data := F32 (repeat 0%float 48) |});
             slog_info "Execution successful"];
          clock_reads := 2;
          infer_calls := 1;
          request :=
            [("0", {| kind := InputBlob; bdims := [1; 3; 2; 2];
                      slots := [Some Scenario.lr_image]; buffer := [] |});
             ("129", {| kind := OutputBlob; bdims := [1; 3; 4; 4]; slots := [];
                        buffer := repeat 0%float 48 |})] |} |}.
Proof. vm_compute. reflexivity. Qed.

(** A network whose only input is not named "0": the lookup of line 141
    yields a null pointer and the run has no defined exit code. *)
Example input_not_named_0 :
  exit_code
    (main (Scenario.world Scenario.net_data_input Scenario.no_failure)
          (Scenario.flags false "lr.png" 1)) = None.
Proof. reflexivity. Qed.

(** * More on the code *)

(** ** [clip] outside its intended use, and as a function of [n] *)

Section ClipMore.

Import Clip.
Context {T : Type} `{Ordered T}.

Lemma leq_of_less (a b : T) : less a b = true -> leq a b.
Proof. apply less_asym. Qed.

Lemma leq_trans (a b c : T) : leq a b -> leq b c -> leq a c.
Proof.
  unfold leq. intros Hab Hbc.
  destruct (less c a) eqn:Hca; [|reflexivity].
  destruct (less a b) eqn:Hlt.
  - rewrite (less_trans _ _ _ Hca Hlt) in Hbc. discriminate.
  - rewrite (less_total _ _ Hlt Hab) in Hca. rewrite Hca in Hbc. discriminate.
Qed.

Lemma std_min_monotone (a b u : T) : leq a b -> leq (std_min a u) (std_min b u).
Proof.
  unfold std_min, leq. intros Hab.
  destruct (less u a) eqn:Hua; destruct (less u b) eqn:Hub.
  - apply less_irrefl.
  - destruct (less b u) eqn:Hbu; [|reflexivity].
    rewrite (less_trans _ _ _ Hbu Hua) in Hab. discriminate.
  - exact Hua.
  - exact Hab.
Qed.

Lemma std_max_monotone (l a b : T) : leq a b -> leq (std_max l a) (std_max l b).
Proof.
  unfold std_max, leq. intros Hab.
  destruct (less l a) eqn:Hla; destruct (less l b) eqn:Hlb.
  - exact Hab.
  - pose proof (leq_trans a b l Hab Hlb) as Hal. unfold leq in Hal.
    rewrite Hla in Hal. discriminate.
  - now apply less_asym.
  - apply less_irrefl.
Qed.

(** X1: when the bounds are given the wrong way round, [upper < lower],
    [clip] returns [lower] whatever [n] is. *)
Theorem clip_inverted_bounds (n lower upper : T) :
  less upper lower = true -> clip n lower upper = lower.
Proof.
  intros Hul. unfold clip, std_max, std_min.
  destruct (less upper n) eqn:Hun.
  - now rewrite (less_asym _ _ Hul).
  - destruct (less lower n) eqn:Hln; [|reflexivity].
    rewrite (less_trans _ _ _ Hul Hln) in Hun. discriminate.
Qed.

(** X2: [clip] is monotone in [n], for any bounds. *)
Theorem clip_monotone (n1 n2 lower upper : T) :
  leq n1 n2 -> leq (clip n1 lower upper) (clip n2 lower upper).
Proof.
  intros Hn. unfold clip.
  apply std_max_monotone, std_min_monotone, Hn.
Qed.

(** X3: clipping twice with the same bounds is clipping once, for any
    bounds. *)
Theorem clip_idempotent (n lower upper : T) :
  clip (clip n lower upper) lower upper = clip n lower upper.
Proof.
  unfold clip, std_max, std_min.
  destruct (less upper n) eqn:Hun.
  - (* the inner call yields [upper] or [lower] *)
    destruct (less lower upper) eqn:Hlu.
    + now rewrite less_irrefl, Hlu.
    + destruct (less upper lower) eqn:Hul.
      * now rewrite Hlu.
      * now rewrite less_irrefl.
  - (* the inner call yields [n] or [lower] *)
    destruct (less lower n) eqn:Hln.
    + now rewrite Hun, Hln.
    + destruct (less upper lower) eqn:Hul.
      * destruct (less lower upper) eqn:Hlu; [|reflexivity].
        pose proof (less_asym _ _ Hul) as Hc. rewrite Hlu in Hc. discriminate.
      * now rewrite less_irrefl.
Qed.

End ClipMore.

(** Bounds 3 and 0 the wrong way round: 1 is sent to 3. *)
Lemma clip_inverted_bounds_witness :
  @Clip.less Z Clip.Ordered_Z 0 3 = true /\
  @Clip.clip Z Clip.Ordered_Z 1 3 0 = 3.
Proof.
  split; [reflexivity|].
  apply (@clip_inverted_bounds Z Clip.Ordered_Z 1 3 0). reflexivity.
Defined.

(** 1 is at most 7, and so is what [clip] makes of them between 2 and 5. *)
Lemma clip_monotone_witness :
  @Clip.leq Z Clip.Ordered_Z 1 7 /\
  @Clip.leq Z Clip.Ordered_Z (@Clip.clip Z Clip.Ordered_Z 1 2 5)
            (@Clip.clip Z Clip.Ordered_Z 7 2 5).
Proof.
  split; [reflexivity|].
  apply (@clip_monotone Z Clip.Ordered_Z 1 7 2 5). reflexivity.
Defined.

(** ** What a computation appends to the trace *)

Section EmitsOnly.

Variable P : Event -> Prop.

Lemma emits_only_silent {A} (m : M A) :
  (forall s, trace (snd (m s)) = trace s) -> emits_only P m.
Proof. intros Hm s. exists []. rewrite Hm, app_nil_r. now split. Qed.

Lemma emits_only_ret {A} (a : A) : emits_only P (ret a).
Proof. now apply emits_only_silent. Qed.

Lemma emits_only_throw {A} e : emits_only P (@throw A e).
Proof. now apply emits_only_silent. Qed.

Lemma emits_only_undefined {A} : emits_only P (@undefined A).
Proof. now apply emits_only_silent. Qed.

Lemma emits_only_defined {A} (o : option A) : emits_only P (defined o).
Proof. destruct o; [apply emits_only_ret | apply emits_only_undefined]. Qed.

Lemma emits_only_emit e : P e -> emits_only P (emit e).
Proof. intros He s. exists [e]. cbn. split; [reflexivity | now constructor]. Qed.

(** Sequencing, where the continuation may rely on what [m] returned. *)
Lemma emits_only_bind {A B} (m : M A) (f : A -> M B) :
  emits_only P m ->
  (forall a s s', m s = (Ok a, s') -> emits_only P (f a)) ->
  emits_only P (bind m f).
Proof.
  intros Hm Hf s. destruct (Hm s) as [t1 [Ht1 Hp1]].
  unfold bind. destruct (m s) as [[a | e |] s1] eqn:Hms; cbn in Ht1.
  - destruct (Hf a s s1 Hms s1) as [t2 [Ht2 Hp2]].
    exists (t1 ++ t2)%list. rewrite Ht2, Ht1, app_assoc.
    split; [reflexivity | now apply Forall_app].
  - now exists t1.
  - now exists t1.
Qed.

Lemma emits_only_call env c : P (called c) -> emits_only P (call env c).
Proof.
  intros Hc. unfold call. apply emits_only_bind; [now apply emits_only_emit|].
  intros _ _ _ _. destruct (raises env c); [apply emits_only_throw | apply emits_only_ret].
Qed.

End EmitsOnly.

Lemma emits_only_weaken {A} (P P' : Event -> Prop) (m : M A) :
  (forall e, P e -> P' e) -> emits_only P m -> emits_only P' m.
Proof.
  intros Himp Hm s. destruct (Hm s) as [t [Ht Hp]].
  exists t. split; [exact Ht|]. eapply Forall_impl; eassumption.
Qed.

Lemma allowed_widen env fl lo hi lo' hi' e :
  (lo' <= lo)%nat -> (hi <= hi')%nat ->
  allowed env fl lo hi e -> allowed env fl lo' hi' e.
Proof.
  intros Hlo Hhi. destruct e; cbn; try exact (fun x => x).
  intros [Hp Hs]. split; [exact Hp | lia].
Qed.

Lemma GetBlob_trace name s : trace (snd (GetBlob name s)) = trace s.
Proof. unfold GetBlob. now destruct (lookup name (request s)). Qed.

Lemma deref_trace blob s : trace (snd (deref blob s)) = trace s.
Proof. unfold deref. now destruct (lookup blob (request s)). Qed.

Lemma matU8ToBlob_trace img blob i s :
  trace (snd (matU8ToBlob img blob i s)) = trace s.
Proof.
  unfold matU8ToBlob. destruct (lookup blob (request s)) as [b|]; [|reflexivity].
  now destruct (i <? List.length (slots b))%nat.
Qed.

Ltac emits_step :=
  first [ apply emits_only_ret | apply emits_only_throw | apply emits_only_undefined
        | apply emits_only_defined
        | apply emits_only_emit; exact I
        | apply emits_only_silent; first [ exact (GetBlob_trace _)
                                         | exact (deref_trace _)
                                         | exact (matU8ToBlob_trace _ _ _)
                                         | intros ?; reflexivity ]
        | apply emits_only_bind; [|intros ? ? ? ?] ].

(** *** The calls of each step *)

Section Steps.

Variable env : Env.
Variable fl : Flags.

Lemma ParseAndCheckCommandLine_emits lo hi :
  emits_only (allowed env fl lo hi) (ParseAndCheckCommandLine fl).
Proof.
  unfold ParseAndCheckCommandLine. emits_step; [emits_step|].
  destruct (FLAGS_h fl); [repeat emits_step|].
  destruct (FLAGS_ni fl <? 1); [emits_step|].
  destruct (empty (FLAGS_i fl)); [emits_step|].
  destruct (empty (FLAGS_m fl)); emits_step.
Qed.

Lemma load_plugin_emits : emits_only (allowed env fl 1 1) (load_plugin env fl).
Proof.
  unfold load_plugin. emits_step; [emits_step|].
  emits_step; [apply emits_only_call; cbn; auto|].
  emits_step; [apply emits_only_call; cbn; auto|].
  emits_step.
  { destruct (contains "CPU" (FLAGS_d fl)) eqn:Hd; [|emits_step].
    apply emits_only_call. cbn. auto. }
  emits_step.
  { destruct (empty (FLAGS_l fl)) eqn:Hl; cbn [negb]; [emits_step|].
    emits_step; [apply emits_only_call; cbn; auto|].
    emits_step; [apply emits_only_call; cbn; auto|].
    emits_step. }
  destruct (empty (FLAGS_c fl)) eqn:Hc; cbn [negb]; [emits_step|].
  emits_step; [apply emits_only_call; cbn; auto|].
  emits_step.
Qed.

Lemma read_network_emits : emits_only (allowed env fl 2 2) (read_network env fl).
Proof.
  unfold read_network. emits_step; [emits_step|].
  emits_step; [apply emits_only_call; cbn; auto|].
  emits_step; [apply emits_only_call; cbn; auto|].
  emits_step.
Qed.

Lemma startup_emits : emits_only (allowed env fl 1 2) (startup env fl).
Proof.
  unfold startup. emits_step; [emits_step|].
  emits_step; [apply ParseAndCheckCommandLine_emits|].
  match goal with |- context [if ?b then _ else _] => destruct b end; [emits_step|].
  destruct (is_nil (input_files env (FLAGS_i fl))); [emits_step|].
  emits_step.
  { eapply emits_only_weaken; [|apply load_plugin_emits].
    intros e. apply allowed_widen; lia. }
  emits_step; [|emits_step].
  eapply emits_only_weaken; [|apply read_network_emits].
  intros e. apply allowed_widen; lia.
Qed.

Lemma collect_images_emits lo hi inputInfo imageNames :
  forall inputImages,
    emits_only (allowed env fl lo hi)
               (collect_images env inputInfo imageNames inputImages).
Proof.
  induction imageNames as [|i rest IH]; intros inputImages; cbn [collect_images].
  - emits_step.
  - destruct (Mat_empty (imread env i)).
    + emits_step; [emits_step | apply IH].
    + emits_step; [emits_step|].
      emits_step; [emits_step|].
      emits_step; [emits_step|].
      match goal with |- context [if ?b then _ else _] => destruct b end.
      * emits_step; [emits_step | apply IH].
      * apply IH.
Qed.

Lemma configure_input_emits network :
  emits_only (allowed env fl 3 3)
             (configure_input env network (input_files env (FLAGS_i fl))).
Proof.
  unfold configure_input. emits_step; [emits_step|].
  match goal with |- context [if ?b then _ else _] => destruct b end; [emits_step|].
  emits_step; [apply collect_images_emits|].
  match goal with |- context [if ?b then _ else _] => destruct b end; [emits_step|].
  emits_step; [apply emits_only_call; cbn; auto|].
  emits_step; emits_step.
Qed.

Lemma configure_outputs_emits lo hi outputInfo :
  forall firstOutputName,
    emits_only (allowed env fl lo hi) (configure_outputs outputInfo firstOutputName).
Proof.
  induction outputInfo as [|[name [d|]] rest IH]; intros firstOutputName;
    cbn [configure_outputs].
  - emits_step.
  - emits_step; [apply IH | emits_step].
  - emits_step.
Qed.

Lemma configure_output_emits lo hi network :
  emits_only (allowed env fl lo hi) (configure_output network).
Proof.
  unfold configure_output. emits_step; [emits_step|].
  emits_step; [apply configure_outputs_emits | emits_step].
Qed.

Lemma create_request_emits network :
  batchSize network = Z.of_nat (List.length (input_files env (FLAGS_i fl))) ->
  inputsInfo network = inputsInfo (getNetwork env (FLAGS_m fl)) ->
  emits_only (allowed env fl 4 5) (create_request env network).
Proof.
  intros Hb Hi. unfold create_request. emits_step; [emits_step|].
  emits_step; [apply emits_only_call; cbn; auto|].
  emits_step; [emits_step|].
  emits_step; [apply emits_only_call; cbn; auto|].
  emits_step.
Qed.

Lemma fill_inputs_emits lrInputBlob twoInputs inputImages :
  (twoInputs = true ->
   List.length (inputsInfo (getNetwork env (FLAGS_m fl))) = 2%nat) ->
  forall i,
    emits_only (allowed env fl 6 6)
               (fill_inputs env lrInputBlob twoInputs inputImages i).
Proof.
  intros Htwo. induction inputImages as [|img rest IH]; intros i; cbn [fill_inputs].
  - emits_step.
  - emits_step; [emits_step|].
    emits_step; [|apply IH].
    destruct twoInputs; [|emits_step].
    emits_step; [emits_step|].
    emits_step; [emits_step|].
    emits_step; [emits_step|].
    emits_step; [emits_step|].
    emits_step; [apply emits_only_call; cbn; auto|].
    emits_step.
Qed.

Lemma prepare_input_emits inputImages :
  emits_only (allowed env fl 6 6)
             (prepare_input env (inputsInfo (getNetwork env (FLAGS_m fl))) inputImages).
Proof.
  unfold prepare_input. emits_step; [emits_step|].
  apply fill_inputs_emits. intros H2. apply Z.eqb_eq in H2. lia.
Qed.

Lemma Infer_emits : emits_only (allowed env fl 7 7) (Infer_ env).
Proof.
  unfold Infer_. emits_step; [emits_step|].
  emits_step; [apply emits_only_call; cbn; auto|].
  emits_step.
Qed.

Lemma inference_loop_emits n :
  forall total, emits_only (allowed env fl 7 7) (inference_loop env n total).
Proof.
  induction n as [|n IH]; intros total; cbn [inference_loop].
  - emits_step.
  - emits_step; [emits_step|].
    emits_step; [apply Infer_emits|].
    emits_step; [emits_step | apply IH].
Qed.

Lemma do_inference_emits : emits_only (allowed env fl 7 7) (do_inference env fl).
Proof.
  unfold do_inference. emits_step; [emits_step|].
  emits_step; [apply inference_loop_emits|].
  emits_step; [emits_step|].
  destruct (FLAGS_pc fl) eqn:Hpc; [|emits_step].
  apply emits_only_call. cbn. auto.
Qed.

Lemma write_results_emits outputData numOfChannels h w nunOfPixels elems :
  emits_only (allowed env fl 8 8)
             (write_results env fl outputData numOfChannels h w nunOfPixels elems).
Proof.
  induction elems as [|i rest IH]; cbn [write_results].
  - emits_step.
  - emits_step; [emits_step|].
    emits_step.
    { destruct (FLAGS_show fl) eqn:Hshow; [|emits_step].
      emits_step; [emits_step|].
      emits_step; apply emits_only_call; cbn; auto. }
    emits_step; [apply emits_only_call; cbn; auto | apply IH].
Qed.

Lemma process_output_emits firstOutputName :
  emits_only (allowed env fl 8 8) (process_output env fl firstOutputName).
Proof.
  unfold process_output. emits_step; [emits_step|].
  emits_step; [emits_step|].
  emits_step; [emits_step|].
  emits_step; [emits_step|].
  emits_step; [emits_step|].
  emits_step; [emits_step|].
  emits_step; [emits_step|].
  apply write_results_emits.
Qed.

End Steps.

(** ** Triples *)

Lemma triple_bind {A B} (P : State -> Prop) (m : M A) (f : A -> M B)
      (Q : A -> State -> Prop) (R : B -> State -> Prop) (E : State -> Prop) :
  triple P m Q E -> (forall a, triple (Q a) (f a) R E) -> triple P (bind m f) R E.
Proof.
  intros Hm Hf s Hs. specialize (Hm s Hs). unfold bind.
  destruct (m s) as [[a | e |] s1]; [|exact Hm|exact Hm].
  exact (Hf a s1 Hm).
Qed.

Lemma triple_conseq {A} (P P' : State -> Prop) (m : M A)
      (Q Q' : A -> State -> Prop) (E E' : State -> Prop) :
  (forall s, P' s -> P s) -> (forall a s, Q a s -> Q' a s) ->
  (forall s, E s -> E' s) ->
  triple P m Q E -> triple P' m Q' E'.
Proof.
  intros HP HQ HE Hm s Hs. specialize (Hm s (HP s Hs)).
  destruct (m s) as [[a | e |] s1]; auto.
Qed.

(** What is known of every value [m] returns is known in the postcondition. *)
Lemma triple_value {A} (P : State -> Prop) (m : M A)
      (Q : A -> State -> Prop) (E : State -> Prop) (V : A -> Prop) :
  (forall s a s', m s = (Ok a, s') -> V a) ->
  triple P m Q E -> triple P m (fun a s => Q a s /\ V a) E.
Proof.
  intros HV Hm s Hs. specialize (Hm s Hs).
  destruct (m s) as [[a | e |] s1] eqn:Hms; [|exact Hm|exact Hm].
  split; [exact Hm | exact (HV s a s1 Hms)].
Qed.

Lemma triple_ret {A} (P : State -> Prop) (a : A) (E : State -> Prop) :
  triple P (ret a) (fun _ => P) E.
Proof. intros s Hs. exact Hs. Qed.

(** A computation that only appends events of one kind takes a property of
    traces to what such events make of it, however it ends. *)
Lemma triple_of_emits {A} (T T' : list Event -> Prop) (Pe : Event -> Prop) (m : M A) :
  emits_only Pe m ->
  (forall t0 t, T t0 -> Forall Pe t -> T' (t0 ++ t)%list) ->
  triple (on_trace T) m (fun _ => on_trace T') (on_trace T').
Proof.
  intros Hm Hstep s Hs. destruct (Hm s) as [t [Ht Hp]].
  unfold on_trace in *.
  destruct (m s) as [[a | e |] s1]; cbn in Ht; rewrite Ht; now apply Hstep.
Qed.

(** *** What the steps return *)

Lemma startup_value env fl s imageNames network s' :
  startup env fl s = (Ok (Some (imageNames, network)), s') ->
  imageNames = input_files env (FLAGS_i fl) /\
  network = getNetwork env (FLAGS_m fl).
Proof.
  unfold startup. intros Hrun.
  apply bind_Ok_inv in Hrun. destruct Hrun as [[] [s1 [_ Hrun]]].
  apply bind_Ok_inv in Hrun. destruct Hrun as [ok [s2 [_ Hrun]]].
  destruct (negb ok); [discriminate Hrun|].
  destruct (is_nil (input_files env (FLAGS_i fl))); [discriminate Hrun|].
  apply bind_Ok_inv in Hrun. destruct Hrun as [[] [s3 [_ Hrun]]].
  apply bind_Ok_inv in Hrun. destruct Hrun as [net [s4 [Hnet Hrun]]].
  inversion Hrun; subst. split; [reflexivity|].
  unfold read_network in Hnet.
  apply bind_Ok_inv in Hnet. destruct Hnet as [[] [s5 [_ Hnet]]].
  apply bind_Ok_inv in Hnet. destruct Hnet as [[] [s6 [_ Hnet]]].
  apply bind_Ok_inv in Hnet. destruct Hnet as [[] [s7 [_ Hnet]]].
  now inversion Hnet.
Qed.

Lemma configure_input_value env network imageNames s network' inputImages s' :
  configure_input env network imageNames s = (Ok (network', inputImages), s') ->
  network' = with_batchSize (Z.of_nat (List.length imageNames)) network.
Proof.
  unfold configure_input. intros Hrun.
  apply bind_Ok_inv in Hrun. destruct Hrun as [[] [s1 [_ Hrun]]].
  destruct (negb (Z.of_nat (List.length (inputsInfo network)) =? 1)
            && negb (Z.of_nat (List.length (inputsInfo network)) =? 2));
    [discriminate Hrun|].
  apply bind_Ok_inv in Hrun. destruct Hrun as [imgs [s2 [_ Hrun]]].
  destruct (is_nil imgs); [discriminate Hrun|].
  apply bind_Ok_inv in Hrun. destruct Hrun as [[] [s3 [_ Hrun]]].
  apply bind_Ok_inv in Hrun. destruct Hrun as [[] [s4 [_ Hrun]]].
  now inversion Hrun.
Qed.

Lemma configure_output_value network s network' firstOutputName s' :
  configure_output network s = (Ok (network', firstOutputName), s') ->
  batchSize network' = batchSize network /\
  inputsInfo network' = inputsInfo network.
Proof.
  unfold configure_output. intros Hrun.
  apply bind_Ok_inv in Hrun. destruct Hrun as [[] [s1 [_ Hrun]]].
  apply bind_Ok_inv in Hrun. destruct Hrun as [r [s2 [_ Hrun]]].
  inversion Hrun. now split.
Qed.

(** *** The [try] block, step by step *)

Section TryBlock.

Variable env : Env.
Variable fl : Flags.

(** The steps of the [try] block, each on the network and the candidates
    that the run hands to it; the early [return 0] of the help flag goes
    straight to the end. *)
Lemma try_block_stages (P0 P2 P3 P3' P5 P6 P7 P8 E : State -> Prop) :
  triple P0 (startup env fl)
         (fun r s => match r with Some _ => P2 s | None => P8 s end) E ->
  triple P2 (configure_input env (getNetwork env (FLAGS_m fl))
                             (input_files env (FLAGS_i fl)))
         (fun _ => P3) E ->
  triple P3 (configure_output
               (with_batchSize (Z.of_nat (List.length (input_files env (FLAGS_i fl))))
                               (getNetwork env (FLAGS_m fl))))
         (fun _ => P3') E ->
  (forall network, bound_network env fl network ->
                   triple P3' (create_request env network) (fun _ => P5) E) ->
  (forall inputImages,
      triple P5 (prepare_input env (inputsInfo (getNetwork env (FLAGS_m fl)))
                               inputImages)
             (fun _ => P6) E) ->
  triple P6 (do_inference env fl) (fun _ => P7) E ->
  (forall firstOutputName,
      triple P7 (process_output env fl firstOutputName) (fun _ => P8) E) ->
  triple P0 (try_block env fl) (fun _ => P8) E.
Proof.
  intros H1 H2 H3 H4 H5 H6 H7.
  unfold try_block.
  apply (triple_bind _ _ _
           (fun r s => match r with Some _ => P2 s | None => P8 s end /\
                       forall imageNames network, r = Some (imageNames, network) ->
                         imageNames = input_files env (FLAGS_i fl) /\
                         network = getNetwork env (FLAGS_m fl))).
  { apply triple_value; [|exact H1].
    intros s r s' Hrun imageNames network ->.
    exact (startup_value env fl s imageNames network s' Hrun). }
  intros [[imageNames network]|]; [|intros s [Hs _]; exact Hs].
  intros s [Hs Hval]. destruct (Hval imageNames network eq_refl) as [Hn Hnet].
  subst imageNames network. clear Hval.
  revert s Hs.
  change (triple P2 (bind (pipeline env fl (input_files env (FLAGS_i fl))
                                    (getNetwork env (FLAGS_m fl)))
                          (fun _ => ret (@None Z)))
                 (fun _ => P8) E).
  apply (triple_bind _ _ _ (fun _ => P8)); [|intros u; apply triple_ret].
  unfold pipeline.
  apply (triple_bind _ _ _
           (fun r s => P3 s /\ fst r = with_batchSize
                                         (Z.of_nat (List.length (input_files env (FLAGS_i fl))))
                                         (getNetwork env (FLAGS_m fl)))).
  { apply triple_value; [|exact H2].
    intros s [network' inputImages] s' Hrun. cbn [fst].
    exact (configure_input_value _ _ _ _ _ _ _ Hrun). }
  intros [network' inputImages]. cbn [fst snd].
  apply (triple_bind _ _ _ (fun r s => P3' s /\ bound_network env fl (fst r))).
  { intros s [Hs Hnet]. subst network'.
    pose proof (H3 s Hs) as H3s.
    destruct (configure_output
                (with_batchSize (Z.of_nat (List.length (input_files env (FLAGS_i fl))))
                                (getNetwork env (FLAGS_m fl))) s)
      as [[[network'' name] | e |] s1] eqn:Hrun; [|exact H3s|exact H3s].
    split; [exact H3s|]. cbn [fst].
    destruct (configure_output_value _ _ _ _ _ Hrun) as [Hb Hi].
    unfold bound_network. rewrite Hb, Hi. now split. }
  intros [network'' firstOutputName]. cbn [fst snd].
  apply (triple_bind _ _ _ (fun _ => P5)).
  { intros s [Hs Hnet]. exact (H4 network'' Hnet s Hs). }
  intros _.
  apply (triple_bind _ _ _ (fun _ => P6)); [apply H5|]. intros _.
  apply (triple_bind _ _ _ (fun _ => P7)); [apply H6|]. intros _.
  apply H7.
Qed.

Lemma try_block_triple (P0 P2 P3 P3' P5 P6 P7 P8 E : State -> Prop) :
  triple P0 (startup env fl) (fun _ => P2) E ->
  (forall network,
      triple P2 (configure_input env network (input_files env (FLAGS_i fl)))
             (fun _ => P3) E) ->
  (forall network, triple P3 (configure_output network) (fun _ => P3') E) ->
  (forall network, bound_network env fl network ->
                   triple P3' (create_request env network) (fun _ => P5) E) ->
  (forall inputImages,
      triple P5 (prepare_input env (inputsInfo (getNetwork env (FLAGS_m fl)))
                               inputImages)
             (fun _ => P6) E) ->
  triple P6 (do_inference env fl) (fun _ => P7) E ->
  (forall firstOutputName,
      triple P7 (process_output env fl firstOutputName) (fun _ => P8) E) ->
  (forall s, P2 s -> P8 s) ->
  triple P0 (try_block env fl) (fun _ => P8) E.
Proof.
  intros H1 H2 H3 H4 H5 H6 H7 Hearly.
  apply (try_block_stages P0 P2 P3 P3' P5 P6 P7 P8 E); auto.
  intros s Hs. specialize (H1 s Hs).
  destruct (startup env fl s) as [[[r|] | e |] s1]; auto.
Qed.

End TryBlock.

Lemma triple_throw {A} (P : State -> Prop) e (Q : A -> State -> Prop)
      (E : State -> Prop) :
  (forall s, P s -> E s) -> triple P (@throw A e) Q E.
Proof. intros HE s Hs. exact (HE s Hs). Qed.

(** The trace of a run is the trace of its [try] block, and at most one
    more line of the log. *)
Lemma main_trace env fl :
  exists l,
    trace (final (main env fl)) =
      (trace (snd (try_block env fl initial_state)) ++ l)%list /\
    Forall (fun e => match e with called _ => False | _ => True end) l.
Proof.
  unfold main.
  destruct (try_block env fl initial_state) as [[[c|] | [what|] |] s]; cbn.
  - exists []. now rewrite app_nil_r.
  - eexists. split; [reflexivity|]. now repeat constructor.
  - eexists. split; [reflexivity|]. now repeat constructor.
  - eexists. split; [reflexivity|]. now repeat constructor.
  - exists []. now rewrite app_nil_r.
Qed.

(** *** A property of traces that every step maintains

    [T k] is what is known of the trace once step [k] is over.  It is enough
    that a step [n] takes [T k], for an earlier [k], to [T n]. *)

Section BySteps.

Variable env : Env.
Variable fl : Flags.
Variable T : nat -> list Event -> Prop.

Hypothesis T_step :
  forall n k t0 t,
    (k <= n)%nat -> T k t0 -> Forall (allowed env fl n n) t -> T n (t0 ++ t)%list.

Lemma T_later k n t : (k <= n)%nat -> T k t -> T n t.
Proof.
  intros Hk Ht. rewrite <- (app_nil_r t). apply (T_step n k); auto.
Qed.

Lemma step_triple {A} (m : M A) k n :
  (k <= n <= 8)%nat ->
  emits_only (allowed env fl n n) m ->
  triple (on_trace (T k)) m (fun _ => on_trace (T n)) (on_trace (T 8)).
Proof.
  intros Hk Hm.
  apply (triple_conseq (on_trace (T k)) _ _ (fun _ => on_trace (T n)) _ (on_trace (T n)));
    auto.
  - intros s. apply T_later. lia.
  - apply (triple_of_emits _ _ (allowed env fl n n)); [exact Hm|].
    intros t0 t. apply T_step. lia.
Qed.

Lemma startup_by_steps :
  triple (on_trace (T 0)) (startup env fl) (fun _ => on_trace (T 2)) (on_trace (T 8)).
Proof.
  unfold startup.
  apply (triple_bind _ _ _ (fun _ => on_trace (T 0))).
  { apply step_triple; [lia|]. apply emits_only_emit. exact I. }
  intros _.
  apply (triple_bind _ _ _ (fun _ => on_trace (T 0))).
  { apply step_triple; [lia|]. apply ParseAndCheckCommandLine_emits. }
  intros ok. destruct (negb ok).
  { intros s Hs. cbn. revert Hs. apply T_later. lia. }
  destruct (is_nil (input_files env (FLAGS_i fl))).
  { apply triple_throw. intros s. apply T_later. lia. }
  apply (triple_bind _ _ _ (fun _ => on_trace (T 1))).
  { apply step_triple; [lia|]. apply load_plugin_emits. }
  intros _.
  apply (triple_bind _ _ _ (fun _ => on_trace (T 2))).
  { apply step_triple; [lia|]. apply read_network_emits. }
  intros network. apply triple_ret.
Qed.

Lemma create_request_by_steps network :
  bound_network env fl network ->
  triple (on_trace (T 3)) (create_request env network)
         (fun _ => on_trace (T 5)) (on_trace (T 8)).
Proof.
  intros [Hb Hi]. unfold create_request.
  apply (triple_bind _ _ _ (fun _ => on_trace (T 3))).
  { apply step_triple; [lia|]. apply emits_only_emit. exact I. }
  intros _.
  apply (triple_bind _ _ _ (fun _ => on_trace (T 4))).
  { apply step_triple; [lia|]. apply emits_only_call. cbn. auto. }
  intros _.
  apply (triple_bind _ _ _ (fun _ => on_trace (T 4))).
  { apply step_triple; [lia|]. apply emits_only_emit. exact I. }
  intros _.
  apply (triple_bind _ _ _ (fun _ => on_trace (T 5))).
  { apply step_triple; [lia|]. apply emits_only_call. cbn. auto. }
  intros _.
  apply step_triple; [lia|]. now apply emits_only_silent.
Qed.

(** From the start of the [try] block to its end, however it ends. *)
Lemma try_block_by_steps :
  triple (on_trace (T 0)) (try_block env fl)
         (fun _ => on_trace (T 8)) (on_trace (T 8)).
Proof.
  apply (try_block_triple env fl
           (on_trace (T 0)) (on_trace (T 2)) (on_trace (T 3)) (on_trace (T 3))
           (on_trace (T 5)) (on_trace (T 6)) (on_trace (T 7)) (on_trace (T 8))).
  - apply startup_by_steps.
  - intros network. apply step_triple; [lia|]. apply configure_input_emits.
  - intros network. apply step_triple; [lia|]. apply configure_output_emits.
  - intros network. apply create_request_by_steps.
  - intros inputImages. apply step_triple; [lia|]. apply prepare_input_emits.
  - apply step_triple; [lia|]. apply do_inference_emits.
  - intros name. apply step_triple; [lia|]. apply process_output_emits.
  - intros s. apply T_later. lia.
Qed.

(** The same for the whole run, which starts with an empty trace. *)
Lemma main_by_steps :
  T 0 [] ->
  (forall t e, T 8 t -> match e with called _ => False | _ => True end ->
               T 8 (t ++ [e])%list) ->
  T 8 (trace (final (main env fl))).
Proof.
  intros H0 Hlog.
  pose proof (try_block_by_steps initial_state H0) as Htry.
  unfold main.
  destruct (try_block env fl initial_state) as [[[c|] | [what|] |] s];
    cbn; try exact Htry; apply Hlog; try exact Htry; exact I.
Qed.

End BySteps.

(** ** Every call is one the flags and the model permit *)

Lemma allowed_permitted env fl lo hi t :
  Forall (allowed env fl lo hi) t -> all_permitted env fl t.
Proof.
  apply Forall_impl. intros [| | | | | |c]; cbn; try exact (fun x => x).
  now intros [Hp _].
Qed.

(** X4: every call into the runtime or the codec that a run makes is
    permitted by the flags and the model: the plugin is asked for with the
    [-pp] and [-d] values; the CPU extension is added only for a device that
    names the CPU, the [-l] extension and the [-c] configuration only when
    set; the model read is the [-m] file and its weights file; the batch
    size set is the number of candidate paths; a resize is cubic and happens
    only for a model with two inputs; the performance counters are printed
    only with [-pc]; a window is shown, and a key waited for, only with
    [-show]. *)
Theorem every_call_is_permitted env fl c :
  In (called c) (trace (final (main env fl))) -> permitted env fl c.
Proof.
  intros Hin.
  assert (Hall : all_permitted env fl (trace (final (main env fl)))).
  { apply (main_by_steps env fl (fun _ => all_permitted env fl)).
    - intros n k t0 t _ H0 Ht. apply Forall_app. split; [exact H0|].
      exact (allowed_permitted env fl n n t Ht).
    - constructor.
    - intros t e Ht He. apply Forall_app. split; [exact Ht|].
      constructor; [|constructor]. destruct e; try exact I. destruct He. }
  unfold all_permitted in Hall. rewrite Forall_forall in Hall.
  exact (Hall (called c) Hin).
Qed.

(** The run on two candidates sets the batch size, and to nothing but the
    number of candidates. *)
Lemma every_call_is_permitted_witness :
  In (called (setBatchSize 2))
     (trace (final (main (Scenario.world Scenario.net_one_input Scenario.no_failure)
                         (Scenario.flags false "dir" 1)))) /\
  permitted (Scenario.world Scenario.net_one_input Scenario.no_failure)
            (Scenario.flags false "dir" 1) (setBatchSize 2).
Proof.
  assert (Hin : In (called (setBatchSize 2))
                   (trace (final (main (Scenario.world Scenario.net_one_input
                                                       Scenario.no_failure)
                                       (Scenario.flags false "dir" 1))))).
  { vm_compute. do 10 right. left. reflexivity. }
  split; [exact Hin|].
  exact (every_call_is_permitted _ _ _ Hin).
Defined.

(** ** The steps of the calls in a trace *)





(** ** Parameters that are not set *)

Lemma empty_spec s : empty s = true <-> s = "".
Proof. unfold empty. apply String.eqb_eq. Qed.

(** X6: with no help flag and an iteration count of at least 1, a run
    without [-i], or with [-i] and without [-m], ends with exit code 1 and
    the error about the first of the two that is not set, and has called
    nothing: no plugin is loaded and no file is read. *)
Theorem unset_paths_abort env fl :
  FLAGS_h fl = false -> 1 <= FLAGS_ni fl ->
  FLAGS_i fl = "" \/ FLAGS_m fl = "" ->
  exit_code (main env fl) = Some 1 /\
  trace (final (main env fl)) =
    [slog_info ("InferenceEngine: " ++ ie_version env);
     slog_info "Parsing input parameters";
     slog_err (if empty (FLAGS_i fl) then "Parameter -i is not set"
               else "Parameter -m is not set")].
Proof.
  intros Hh Hni Hunset.
  assert (Hlt : (FLAGS_ni fl <? 1) = false) by (apply Z.ltb_ge; lia).
  unfold main, try_block, startup, ParseAndCheckCommandLine, bind, emit.
  rewrite Hh, Hlt.
  destruct (empty (FLAGS_i fl)) eqn:Hi; [now split|].
  destruct (empty (FLAGS_m fl)) eqn:Hm; [now split|].
  destruct Hunset as [Hu | Hu]; apply empty_spec in Hu; congruence.
Qed.

(** [-m model.xml] alone. *)
Lemma unset_paths_abort_witness :
  exit_code (main (Scenario.world Scenario.net_one_input Scenario.no_failure)
                  (Scenario.flags false "" 1)) = Some 1 /\
  trace (final (main (Scenario.world Scenario.net_one_input Scenario.no_failure)
                     (Scenario.flags false "" 1))) =
    [slog_info "InferenceEngine: 1.6";
     slog_info "Parsing input parameters";
     slog_err "Parameter -i is not set"].
Proof.
  apply (unset_paths_abort
           (Scenario.world Scenario.net_one_input Scenario.no_failure)
           (Scenario.flags false "" 1)).
  - reflexivity.
  - discriminate.
  - left. reflexivity.
Defined.

(** X7: when the parameters are in order and no file is found for [-i],
    the run ends with exit code 1 and the error that no suitable images were
    found, before the plugin is asked for: nothing has been called. *)
Theorem no_input_files_abort env fl :
  FLAGS_h fl = false -> 1 <= FLAGS_ni fl ->
  FLAGS_i fl <> "" -> FLAGS_m fl <> "" ->
  input_files env (FLAGS_i fl) = [] ->
  exit_code (main env fl) = Some 1 /\
  trace (final (main env fl)) =
    [slog_info ("InferenceEngine: " ++ ie_version env);
     slog_info "Parsing input parameters";
     slog_err "No suitable images were found"].
Proof.
  intros Hh Hni Hi Hm Hfiles.
  assert (Hlt : (FLAGS_ni fl <? 1) = false) by (apply Z.ltb_ge; lia).
  assert (Hei : empty (FLAGS_i fl) = false).
  { destruct (empty (FLAGS_i fl)) eqn:He; [|reflexivity].
    apply empty_spec in He. contradiction. }
  assert (Hem : empty (FLAGS_m fl) = false).
  { destruct (empty (FLAGS_m fl)) eqn:He; [|reflexivity].
    apply empty_spec in He. contradiction. }
  unfold main, try_block, startup, ParseAndCheckCommandLine, bind, emit.
  rewrite Hh, Hlt, Hei, Hem. cbn [ret negb]. rewrite Hfiles. now split.
Qed.

(** [-i nothing.here], for which no file is found. *)
Lemma no_input_files_abort_witness :
  input_files (Scenario.world Scenario.net_one_input Scenario.no_failure)
              (FLAGS_i (Scenario.flags false "nothing.here" 1)) = [] /\
  exit_code (main (Scenario.world Scenario.net_one_input Scenario.no_failure)
                  (Scenario.flags false "nothing.here" 1)) = Some 1.
Proof.
  split; [reflexivity|].
  apply (no_input_files_abort
           (Scenario.world Scenario.net_one_input Scenario.no_failure)
           (Scenario.flags false "nothing.here" 1)); try reflexivity;
    discriminate.
Defined.

(** ** Configuring the outputs *)

Lemma configure_outputs_run outputInfo :
  Forall (fun p => snd p <> None) outputInfo ->
  forall firstOutputName s,
    configure_outputs outputInfo firstOutputName s =
    (Ok (map (fun p => (fst p, option_map (setPrecision FP32) (snd p))) outputInfo,
         if empty firstOutputName then first_nonempty (map fst outputInfo)
         else firstOutputName),
     s).
Proof.
  induction 1 as [|[name [d|]] rest Hd Hrest IH]; intros firstOutputName s.
  - cbn. destruct (empty firstOutputName) eqn:Hf; [|reflexivity].
    apply empty_spec in Hf. now subst.
  - cbn [configure_outputs]. rewrite (bind_Ok _ _ _ _ _ (IH _ s)).
    cbn [map fst snd option_map first_nonempty ret].
    destruct (empty firstOutputName) eqn:Hf.
    + destruct (empty name) eqn:Hn; [reflexivity | reflexivity].
    + now rewrite Hf.
  - now destruct Hd.
Qed.

Lemma configure_outputs_null outputInfo :
  Exists (fun p => snd p = None) outputInfo ->
  forall firstOutputName s,
    configure_outputs outputInfo firstOutputName s =
    (Throw (logic_error "output data pointer is not valid"), s).
Proof.
  induction outputInfo as [|[name [d|]] rest IH]; intros Hex firstOutputName s.
  - inversion Hex.
  - cbn [configure_outputs].
    apply bind_Throw. apply IH.
    inversion Hex as [? ? Hhd | ? ? Htl]; [discriminate Hhd | exact Htl].
  - reflexivity.
Qed.

(** X8: when every declared output has its data, configuring the outputs
    succeeds, logs one line and calls nothing; it leaves the batch size and
    the inputs alone, keeps the outputs in their order with their
    dimensions, sets the precision of every one of them to FP32, and records
    as the first output name the first name that is not the empty string. *)
Theorem outputs_are_set_to_FP32 network s :
  Forall (fun p => snd p <> None) (outputsInfo network) ->
  configure_output network s =
  (Ok ({| batchSize := batchSize network;
          inputsInfo := inputsInfo network;
          outputsInfo :=
            map (fun p => (fst p, option_map (setPrecision FP32) (snd p)))
                (outputsInfo network) |},
       first_nonempty (map fst (outputsInfo network))),
   log_event (slog_info "Preparing output blobs") s).
Proof.
  intros Hall. unfold configure_output.
  rewrite (bind_Ok _ _ _ _ _ (emit_run _ s)).
  rewrite (bind_Ok _ _ _ _ _ (configure_outputs_run _ Hall "" _)).
  reflexivity.
Qed.

(** Two outputs of some other precision. *)
Lemma outputs_are_set_to_FP32_witness :
  fst (configure_output
         {| batchSize := 1;
            inputsInfo := [("0", Scenario.lr_desc)];
            outputsInfo := [("129", Some {| precision := OtherPrecision;
                                            dims := [1; 3; 4; 4] |});
                            ("130", Some {| precision := OtherPrecision;
                                            dims := [1; 1; 4; 4] |})] |}
         initial_state) =
  Ok ({| batchSize := 1;
         inputsInfo := [("0", Scenario.lr_desc)];
         outputsInfo := [("129", Some {| precision := FP32; dims := [1; 3; 4; 4] |});
                         ("130", Some {| precision := FP32; dims := [1; 1; 4; 4] |})] |},
      "129").
Proof.
  rewrite outputs_are_set_to_FP32; [reflexivity|].
  repeat constructor; discriminate.
Defined.

Lemma configure_output_null network s :
  Exists (fun p => snd p = None) (outputsInfo network) ->
  configure_output network s =
  (Throw (logic_error "output data pointer is not valid"),
   log_event (slog_info "Preparing output blobs") s).
Proof.
  intros Hex. unfold configure_output.
  rewrite (bind_Ok _ _ _ _ _ (emit_run _ s)).
  apply bind_Throw. now apply configure_outputs_null.
Qed.

Lemma calls_up_to_allowed env fl lo hi k t0 t :
  (hi <= k)%nat -> calls_up_to k t0 -> Forall (allowed env fl lo hi) t ->
  calls_up_to k (t0 ++ t).
Proof.
  intros Hk H0 Ht c Hin. apply in_app_or in Hin. destruct Hin as [Hin | Hin].
  - now apply H0.
  - rewrite Forall_forall in Ht. destruct (Ht _ Hin) as [_ Hs]. lia.
Qed.

(** X9: when some declared output has no data, configuring the outputs
    raises the logic error about the output data pointer, after its one log
    line and without calling anything.  So in a run on a model with such an
    output no call is of a step after the third: the model is not loaded to
    the plugin, no request is created, nothing is inferred and no file is
    written. *)
Theorem null_output_is_an_error env fl :
  (forall network s,
      Exists (fun p => snd p = None) (outputsInfo network) ->
      configure_output network s =
      (Throw (logic_error "output data pointer is not valid"),
       log_event (slog_info "Preparing output blobs") s)) /\
  (Exists (fun p => snd p = None) (outputsInfo (getNetwork env (FLAGS_m fl))) ->
   (forall c, In (called c) (trace (final (main env fl))) -> (stage_of c <= 3)%nat) /\
   (forall network, ~ In (called (LoadNetwork network)) (trace (final (main env fl)))) /\
   forward_passes (trace (final (main env fl))) = 0%nat /\
   written_files (trace (final (main env fl))) = []).
Proof.
  split; [intros network s; apply configure_output_null|].
  intros Hex.
  set (early := on_trace (calls_up_to 3)).
  set (never := fun _ : State => False).
  assert (Hstep : forall A (m : M A) lo hi,
             (hi <= 3)%nat -> emits_only (allowed env fl lo hi) m ->
             triple early m (fun _ => early) early).
  { intros A m lo hi Hhi Hm.
    apply (triple_of_emits _ _ (allowed env fl lo hi)); [exact Hm|].
    intros t0 t. now apply calls_up_to_allowed. }
  assert (Htry : triple early (try_block env fl) (fun _ => early) early).
  { apply (try_block_stages env fl early early early never never never never
                            early early).
    - intros s Hs.
      pose proof (Hstep _ (startup env fl) 1%nat 2%nat ltac:(lia)
                        (startup_emits env fl) s Hs) as H1.
      destruct (startup env fl s) as [[[r|] | e |] s1]; exact H1.
    - apply (Hstep _ _ 3%nat 3%nat); [lia | apply configure_input_emits].
    - intros s Hs. rewrite configure_output_null by exact Hex.
      intros c Hin. cbn [trace log_event] in Hin.
      apply in_app_or in Hin. destruct Hin as [Hin | [Heq | []]];
        [now apply Hs | discriminate Heq].
    - intros network _ s [].
    - intros inputImages s [].
    - intros s [].
    - intros name s []. }
  assert (Hcalls : calls_up_to 3 (trace (final (main env fl)))).
  { destruct (main_trace env fl) as [l [Hl Hnc]]. rewrite Hl.
    pose proof (Htry initial_state ltac:(intros c [])) as Hend.
    intros c Hin. apply in_app_or in Hin. destruct Hin as [Hin | Hin].
    - destruct (try_block env fl initial_state) as [[r | e |] s]; now apply Hend.
    - rewrite Forall_forall in Hnc. destruct (Hnc _ Hin). }
  split; [exact Hcalls|]. split; [|split].
  - intros network Hin. apply Hcalls in Hin. cbn in Hin. lia.
  - destruct (forward_passes (trace (final (main env fl)))) eqn:Hp; [reflexivity|].
    exfalso. clear - Hcalls Hp. revert Hp Hcalls.
    induction (trace (final (main env fl))) as [|e t IH]; [discriminate|].
    intros Hp Hcalls.
    assert (Ht : calls_up_to 3 t) by (intros c Hc; apply Hcalls; now right).
    destruct e as [| | | | | |c]; cbn in Hp; try exact (IH Hp Ht).
    pose proof (Hcalls c (or_introl eq_refl)) as Hc.
    destruct c; cbn in Hp, Hc; try exact (IH Hp Ht); lia.
  - destruct (written_files (trace (final (main env fl)))) eqn:Hw; [reflexivity|].
    exfalso. clear - Hcalls Hw. revert Hw Hcalls.
    induction (trace (final (main env fl))) as [|e t IH]; [discriminate|].
    intros Hw Hcalls.
    assert (Ht : calls_up_to 3 t) by (intros c Hc; apply Hcalls; now right).
    destruct e as [| | | | | |c]; cbn in Hw; try exact (IH Hw Ht).
    pose proof (Hcalls c (or_introl eq_refl)) as Hc.
    destruct c; cbn in Hw, Hc; try exact (IH Hw Ht); lia.
Qed.

(** A model whose second output has no data: the run sets the batch size,
    ends with exit code 1, and does not load the model to the plugin. *)
Lemma null_output_is_an_error_witness :
  In (called (setBatchSize 1))
     (trace (final (main (Scenario.world Scenario.net_null_output Scenario.no_failure)
                         (Scenario.flags false "lr.png" 1)))) /\
  exit_code (main (Scenario.world Scenario.net_null_output Scenario.no_failure)
                  (Scenario.flags false "lr.png" 1)) = Some 1 /\
  ~ In (called (LoadNetwork (with_batchSize 1 Scenario.net_null_output)))
       (trace (final (main (Scenario.world Scenario.net_null_output Scenario.no_failure)
                           (Scenario.flags false "lr.png" 1)))) /\
  written_files
    (trace (final (main (Scenario.world Scenario.net_null_output Scenario.no_failure)
                        (Scenario.flags false "lr.png" 1)))) = [].
Proof.
  assert (Hex : Exists (fun p => snd p = None)
                       (outputsInfo
                          (getNetwork
                             (Scenario.world Scenario.net_null_output Scenario.no_failure)
                             (FLAGS_m (Scenario.flags false "lr.png" 1)))))
    by (right; left; reflexivity).
  destruct (proj2 (null_output_is_an_error
                     (Scenario.world Scenario.net_null_output Scenario.no_failure)
                     (Scenario.flags false "lr.png" 1)) Hex)
    as [_ [Hload [_ Hfiles]]].
  split; [vm_compute; do 9 right; left; reflexivity|].
  split; [reflexivity|].
  split; [apply Hload | exact Hfiles].
Defined.

(** ** A model without an input named "0" *)

Lemma collect_images_without_lr env inputInfo :
  lookup lrInputBlobName inputInfo = None ->
  forall imageNames inputImages s,
    fst (collect_images env inputInfo imageNames inputImages s) =
    if forallb (fun i => Mat_empty (imread env i)) imageNames
    then Ok inputImages else Undefined.
Proof.
  intros Hlr. induction imageNames as [|i rest IH]; intros inputImages s.
  - reflexivity.
  - cbn [collect_images forallb].
    destruct (Mat_empty (imread env i)); cbn [andb].
    + rewrite (bind_Ok _ _ _ _ _ (emit_run _ s)). apply IH.
    + unfold bind, defined. rewrite Hlr. reflexivity.
Qed.

(** X10: for a model with 1 or 2 inputs none of which is named "0", input
    binding ends with the error about valid images when no candidate
    decodes, and has undefined behaviour (a null pointer is dereferenced at
    line 142) as soon as one candidate decodes. *)
Theorem input_must_be_named_0 env network imageNames s :
  lookup lrInputBlobName (inputsInfo network) = None ->
  (List.length (inputsInfo network) = 1 \/ List.length (inputsInfo network) = 2)%nat ->
  fst (configure_input env network imageNames s) =
  if forallb (fun i => Mat_empty (imread env i)) imageNames
  then Throw (logic_error "Valid input images were not found!")
  else Undefined.
Proof.
  intros Hlr Hn. unfold configure_input.
  rewrite (bind_Ok _ _ _ _ _ (emit_run _ s)).
  assert (Hsize : negb (Z.of_nat (List.length (inputsInfo network)) =? 1)
                  && negb (Z.of_nat (List.length (inputsInfo network)) =? 2) = false).
  { destruct Hn as [-> | ->]; reflexivity. }
  rewrite Hsize.
  pose proof (collect_images_without_lr env (inputsInfo network) Hlr imageNames []
                (log_event (slog_info "Preparing input blobs") s)) as Hc.
  unfold bind at 1.
  destruct (collect_images env (inputsInfo network) imageNames []
              (log_event (slog_info "Preparing input blobs") s)) as [[imgs | e |] s1];
    cbn [fst] in Hc;
    destruct (forallb (fun i => Mat_empty (imread env i)) imageNames);
    try discriminate Hc.
  - inversion Hc. reflexivity.
  - reflexivity.
Qed.

(** A model whose one input is named "data", on a file that decodes. *)
Lemma input_must_be_named_0_witness :
  fst (configure_input (Scenario.world Scenario.net_one_input Scenario.no_failure)
                       {| batchSize := 1;
                          inputsInfo := [("data", Scenario.lr_desc)];
                          outputsInfo := [("129", Some Scenario.hr_desc)] |}
                       ["lr.png"] initial_state) = Undefined.
Proof.
  rewrite input_must_be_named_0; [reflexivity | reflexivity | left; reflexivity].
Defined.

(** ** Filling the blob of a model with one input *)

Lemma fill_inputs_one env :
  forall inputImages i s b0,
    lookup lrInputBlobName (request s) = Some b0 ->
    (i + List.length inputImages <= List.length (slots b0))%nat ->
    exists s' b0',
      fill_inputs env lrInputBlobName false inputImages i s = (Ok tt, s') /\
      trace s' = trace s /\
      lookup lrInputBlobName (request s') = Some b0' /\
      kind b0' = kind b0 /\ bdims b0' = bdims b0 /\ buffer b0' = buffer b0 /\
      List.length (slots b0') = List.length (slots b0) /\
      (forall j img, nth_error inputImages j = Some img ->
                     nth_error (slots b0') (i + j) = Some (Some img)) /\
      (forall j, (j < i \/ i + List.length inputImages <= j)%nat ->
                 nth_error (slots b0') j = nth_error (slots b0) j) /\
      (forall name, name <> lrInputBlobName ->
                    lookup name (request s') = lookup name (request s)).
Proof.
  induction inputImages as [|img rest IH]; intros i s b0 H0 Hlen.
  - exists s, b0. cbn. repeat split; try reflexivity; try assumption.
    intros j img Hj. destruct j; discriminate Hj.
  - cbn [List.length] in Hlen. cbn [fill_inputs].
    rewrite (bind_Ok _ _ _ _ _ (matU8ToBlob_run img _ i s b0 H0 ltac:(lia))).
    set (b0a := {| kind := kind b0; bdims := bdims b0;
                   slots := set_nth i (Some img) (slots b0);
                   buffer := buffer b0 |}).
    set (s1 := {| trace := trace s; clock_reads := clock_reads s;
                  infer_calls := infer_calls s;
                  request := update lrInputBlobName b0a (request s) |}).
    unfold bind at 1. cbn [ret].
    assert (H0s1 : lookup lrInputBlobName (request s1) = Some b0a).
    { cbn [request s1]. now apply (lookup_update_same _ _ b0). }
    destruct (IH (S i) s1 b0a H0s1) as
        [s' [b0' [Hrun [Htr [H0' [Hk [Hd [Hbuf [Hl [Hnew [Hkeep Hother]]]]]]]]]]].
    { cbn [slots b0a]. rewrite length_set_nth. lia. }
    exists s', b0'. rewrite Hrun.
    cbn [slots b0a] in Hl. rewrite length_set_nth in Hl.
    split; [reflexivity|]. split; [exact Htr|]. split; [exact H0'|].
    split; [exact Hk|]. split; [exact Hd|]. split; [exact Hbuf|].
    split; [exact Hl|]. split; [|split].
    + intros j img' Hj. destruct j as [|j]; cbn [nth_error] in Hj.
      * inversion Hj; subst img'. rewrite Nat.add_0_r.
        rewrite (Hkeep i ltac:(lia)). cbn [slots b0a].
        apply nth_error_set_nth_same. lia.
      * replace (i + S j)%nat with (S i + j)%nat by lia. now apply Hnew.
    + intros j Hj. cbn [List.length] in Hj.
      rewrite (Hkeep j ltac:(lia)). cbn [slots b0a].
      apply nth_error_set_nth_other. lia.
    + intros name Hname. rewrite (Hother name Hname). cbn [request s1].
      apply lookup_update_other. congruence.
Qed.

(** X11: for a model that does not have two inputs, filling the inputs
    calls nothing (no resize) and logs nothing; when the request has the
    blob "0" with a slot for every accepted image, it succeeds, slot [i] of
    that blob holds accepted image [i] as it was decoded, the slots past the
    accepted images are left as they were, and so is every other blob. *)
Theorem one_input_is_filled_as_decoded env inputInfo inputImages s b0 :
  List.length inputInfo <> 2%nat ->
  lookup lrInputBlobName (request s) = Some b0 ->
  (List.length inputImages <= List.length (slots b0))%nat ->
  exists s' b0',
    prepare_input env inputInfo inputImages s = (Ok tt, s') /\
    trace s' = trace s /\
    lookup lrInputBlobName (request s') = Some b0' /\
    bdims b0' = bdims b0 /\
    (forall i img, nth_error inputImages i = Some img ->
                   nth_error (slots b0') i = Some (Some img)) /\
    (forall j, (List.length inputImages <= j)%nat ->
               nth_error (slots b0') j = nth_error (slots b0) j) /\
    (forall name, name <> lrInputBlobName ->
                  lookup name (request s') = lookup name (request s)).
Proof.
  intros Hn H0 Hlen.
  destruct (fill_inputs_one env inputImages 0%nat s b0 H0 Hlen) as
      [s' [b0' [Hrun [Htr [H0' [_ [Hd [_ [_ [Hnew [Hkeep Hother]]]]]]]]]]].
  exists s', b0'.
  split.
  { unfold prepare_input. rewrite (bind_Ok _ _ _ _ _ (GetBlob_run _ s b0 H0)).
    destruct (Z.eqb_spec (Z.of_nat (List.length inputInfo)) 2); [lia | exact Hrun]. }
  split; [exact Htr|]. split; [exact H0'|]. split; [exact Hd|].
  split; [exact Hnew|]. split; [|exact Hother].
  intros j Hj. apply Hkeep. right. exact Hj.
Qed.

(** One accepted image and a batch of 2, as after two candidates of which
    one is rejected: slot 0 holds the image and slot 1 stays empty. *)
Lemma one_input_is_filled_as_decoded_witness :
  exists s' b0',
    prepare_input (Scenario.world Scenario.net_one_input Scenario.no_failure)
                  (inputsInfo Scenario.net_one_input) [Scenario.lr_image]
                  {| trace := []; clock_reads := 0; infer_calls := 0;
                     request := allocate_blobs
                                  (with_batchSize 2 Scenario.net_one_input) |}
    = (Ok tt, s') /\
    lookup lrInputBlobName (request s') = Some b0' /\
    nth_error (slots b0') 0 = Some (Some Scenario.lr_image) /\
    nth_error (slots b0') 1 = Some None.
Proof.
  destruct (one_input_is_filled_as_decoded
              (Scenario.world Scenario.net_one_input Scenario.no_failure)
              (inputsInfo Scenario.net_one_input) [Scenario.lr_image]
              {| trace := []; clock_reads := 0; infer_calls := 0;
                 request := allocate_blobs
                              (with_batchSize 2 Scenario.net_one_input) |}
              (allocate_input 2 Scenario.lr_desc))
    as [s' [b0' [Hrun [_ [Hb [_ [Hnew [Hkeep _]]]]]]]].
  - discriminate.
  - reflexivity.
  - apply Nat.leb_le. reflexivity.
  - exists s', b0'. split; [exact Hrun|]. split; [exact Hb|]. split.
    + apply (Hnew 0%nat). reflexivity.
    + rewrite (Hkeep 1%nat); [reflexivity | apply Nat.leb_le; reflexivity].
Defined.

(** ** A forward pass that raises *)

Lemma Infer_raises env s e :
  raises env (Infer (infer_calls s)) = Some e ->
  exists s', Infer_ env s = (Throw e, s') /\
             trace s' = (trace s ++ [called (Infer (infer_calls s))])%list.
Proof.
  intros Hr. unfold Infer_. unfold bind at 1.
  rewrite (bind_Throw _ _ _ _ _ (call_raises env _ e _ Hr)).
  eexists. split; reflexivity.
Qed.

Lemma Infer_returns env s :
  raises env (Infer (infer_calls s)) = None ->
  exists s', Infer_ env s = (Ok tt, s') /\
             trace s' = (trace s ++ [called (Infer (infer_calls s))])%list /\
             infer_calls s' = S (infer_calls s) /\
             clock_reads s' = clock_reads s.
Proof.
  intros Hr. unfold Infer_. unfold bind at 1.
  rewrite (bind_Ok _ _ _ _ _ (call_returns env _ _ Hr)).
  eexists. split; [reflexivity|]. repeat split.
Qed.

Lemma inference_loop_fails env e n :
  forall j total s,
    (j < n)%nat ->
    (forall k, (k < j)%nat -> raises env (Infer (infer_calls s + k)) = None) ->
    raises env (Infer (infer_calls s + j)) = Some e ->
    exists s',
      inference_loop env n total s = (Throw e, s') /\
      trace s' = (trace s ++ passes (infer_calls s) (S j))%list.
Proof.
  induction n as [|n IH]; intros j total s Hj Hok Hbad; [lia|].
  cbn [inference_loop]. unfold bind at 1. cbn [Time_now_].
  set (s1 := {| trace := trace s; clock_reads := S (clock_reads s);
                infer_calls := infer_calls s; request := request s |}).
  destruct j as [|j].
  - rewrite Nat.add_0_r in Hbad.
    destruct (Infer_raises env s1 e Hbad) as [s' [Hrun Htr]].
    exists s'. rewrite (bind_Throw _ _ _ _ _ Hrun). split; [reflexivity|].
    exact Htr.
  - assert (H0 : raises env (Infer (infer_calls s1)) = None).
    { cbn [infer_calls s1]. rewrite <- (Nat.add_0_r (infer_calls s)).
      apply Hok. lia. }
    destruct (Infer_returns env s1 H0) as [s2 [Hrun [Htr [Hinf Hclk]]]].
    rewrite (bind_Ok _ _ _ _ _ Hrun). unfold bind at 1. cbn [Time_now_].
    match goal with
    | |- context [inference_loop env n ?t ?s3] =>
        destruct (IH j t s3) as [s' [Hloop Htr']]
    end.
    + lia.
    + intros k Hk. cbn [infer_calls]. rewrite Hinf. cbn [infer_calls s1].
      replace (S (infer_calls s) + k)%nat with (infer_calls s + S k)%nat by lia.
      apply Hok. lia.
    + cbn [infer_calls]. rewrite Hinf. cbn [infer_calls s1].
      replace (S (infer_calls s) + j)%nat with (infer_calls s + S j)%nat by lia.
      exact Hbad.
    + exists s'. rewrite Hloop. split; [reflexivity|].
      rewrite Htr'. cbn [trace infer_calls]. rewrite Htr, Hinf.
      cbn [trace infer_calls s1]. unfold passes. cbn [seq map].
      now rewrite <- app_assoc.
Qed.

(** X12: when forward pass number [j] of the loop, below the iteration
    count, is the first to raise, the inference step ends with that
    exception after exactly [j + 1] forward passes: the loop is not
    continued, and no average is reported. *)
Theorem failing_pass_stops_the_loop env fl s j e :
  1 <= FLAGS_ni fl < 2 ^ 31 ->
  (j < Z.to_nat (FLAGS_ni fl))%nat ->
  (forall k, (k < j)%nat -> raises env (Infer (infer_calls s + k)) = None) ->
  raises env (Infer (infer_calls s + j)) = Some e ->
  exists s',
    do_inference env fl s = (Throw e, s') /\
    trace s' =
      (trace s
       ++ slog_info ("Start inference (" ++ to_string (FLAGS_ni fl) ++ " iterations)")
       :: passes (infer_calls s) (S j))%list.
Proof.
  intros Hni Hj Hok Hbad.
  destruct (inference_loop_fails env e (Z.to_nat (FLAGS_ni fl)) j 0%float
              (log_event (slog_info ("Start inference (" ++ to_string (FLAGS_ni fl)
                                     ++ " iterations)")) s) Hj Hok Hbad)
    as [s' [Hrun Htr]].
  exists s'. split.
  - unfold do_inference.
    rewrite (bind_Ok _ _ _ _ _ (emit_run _ s)).
    rewrite (iterations_of_int env fl Hni).
    now rewrite (bind_Throw _ _ _ _ _ Hrun).
  - rewrite Htr. cbn [trace infer_calls log_event].
    now rewrite <- app_assoc.
Qed.

(** Three iterations asked for, and the second pass fails. *)
Lemma failing_pass_stops_the_loop_witness :
  do_inference (Scenario.world Scenario.net_one_input Scenario.second_pass_fails)
               (Scenario.flags false "lr.png" 3) initial_state =
  (Throw (std_exception "Device lost"),
   {| trace := [slog_info "Start inference (3 iterations)";
                called (Infer 0); called (Infer 1)];
      clock_reads := 3; infer_calls := 2; request := [] |}).
Proof.
  assert (Hni : 1 <= FLAGS_ni (Scenario.flags false "lr.png" 3) < 2 ^ 31)
    by (split; [discriminate | reflexivity]).
  destruct (failing_pass_stops_the_loop
              (Scenario.world Scenario.net_one_input Scenario.second_pass_fails)
              (Scenario.flags false "lr.png" 3) initial_state 1%nat
              (std_exception "Device lost") Hni) as [s' [Hrun _]].
  - apply Nat.ltb_lt. reflexivity.
  - intros k Hk. destruct k; [reflexivity | lia].
  - reflexivity.
  - rewrite Hrun. vm_compute in Hrun. now inversion Hrun.
Defined.

(** ** What inference leaves of the request *)

Lemma same_shape_refl b : same_shape b b.
Proof. unfold same_shape. auto. Qed.

Lemma same_shape_trans b1 b2 b3 :
  same_shape b1 b2 -> same_shape b2 b3 -> same_shape b1 b3.
Proof.
  unfold same_shape.
  intros [Hk [Hd [Hs [Hl Hi]]]] [Hk' [Hd' [Hs' [Hl' Hi']]]].
  repeat split; try congruence.
  intros Hin. rewrite (Hi' ltac:(congruence)). now apply Hi.
Qed.

Lemma same_shapes_refl r : same_shapes r r.
Proof.
  unfold same_shapes. induction r as [|p r IH]; constructor; [|exact IH].
  split; [reflexivity | apply same_shape_refl].
Qed.

Lemma same_shapes_trans r1 r2 r3 :
  same_shapes r1 r2 -> same_shapes r2 r3 -> same_shapes r1 r3.
Proof.
  unfold same_shapes. intros H12. revert r3.
  induction H12 as [|p1 p2 r1 r2 [Hn Hs] H12 IH]; intros r3 H23;
    inversion H23 as [|? p3 ? r3' [Hn' Hs'] H23']; subst; constructor.
  - split; [congruence | eapply same_shape_trans; eassumption].
  - now apply IH.
Qed.

Lemma same_shapes_lookup r r' name b :
  same_shapes r r' -> lookup name r = Some b ->
  exists b', lookup name r' = Some b' /\ same_shape b b'.
Proof.
  unfold same_shapes. induction 1 as [|[k v] [k' v'] r r' [Hn Hs] Hrr IH];
    cbn; [discriminate|].
  cbn in Hn, Hs. subst k'.
  destruct (String.eqb k name).
  - intros Hb. inversion Hb; subst. now exists v'.
  - exact IH.
Qed.

(** A forward pass rewrites the buffers of the output blobs, at their
    length, and nothing else. *)
Lemma infer_blobs_same_shapes env k blobs :
  same_shapes blobs (infer_blobs env k blobs).
Proof.
  unfold same_shapes, infer_blobs.
  generalize (infer_output env k blobs). intros out.
  induction blobs as [|[name b] rest IH]; cbn [map]; constructor; [|exact IH].
  cbn [fst snd]. destruct (kind b) eqn:Hk; cbn [fst snd].
  - split; [reflexivity | apply same_shape_refl].
  - split; [reflexivity|]. unfold same_shape. cbn.
    rewrite length_map, length_seq. repeat split; try congruence.
Qed.

Lemma Infer_same_shapes env s :
  same_shapes (request s) (request (snd (Infer_ env s))).
Proof.
  unfold Infer_. unfold bind at 1. unfold bind at 1. unfold call.
  unfold bind at 1. cbn [emit].
  destruct (raises env (Infer (infer_calls s))).
  - apply same_shapes_refl.
  - cbn. apply infer_blobs_same_shapes.
Qed.

Lemma inference_loop_same_shapes env n :
  forall total s,
    same_shapes (request s) (request (snd (inference_loop env n total s))).
Proof.
  induction n as [|n IH]; intros total s; [apply same_shapes_refl|].
  cbn [inference_loop]. unfold bind at 1. cbn [Time_now_].
  set (s1 := {| trace := trace s; clock_reads := S (clock_reads s);
                infer_calls := infer_calls s; request := request s |}).
  pose proof (Infer_same_shapes env s1) as HI. cbn [request s1] in HI.
  unfold bind at 1.
  destruct (Infer_ env s1) as [[[] | e |] s2]; cbn [snd] in HI |- *;
    [|exact HI|exact HI].
  unfold bind at 1. cbn [Time_now_].
  eapply same_shapes_trans; [exact HI|].
  match goal with
  | |- context [inference_loop env n ?t ?s3] => exact (IH t s3)
  end.
Qed.

Lemma do_inference_same_shapes env fl s :
  same_shapes (request s) (request (snd (do_inference env fl s))).
Proof.
  unfold do_inference. unfold bind at 1. cbn [emit].
  pose proof (inference_loop_same_shapes env (iterations env fl) 0%float
                (log_event (slog_info ("Start inference (" ++ to_string (FLAGS_ni fl)
                                       ++ " iterations)")) s)) as HL.
  cbn [request log_event] in HL.
  unfold bind at 1.
  destruct (inference_loop env (iterations env fl) 0%float _) as [[total | e |] s1];
    cbn [snd] in HL |- *; [|exact HL|exact HL].
  unfold bind at 1. cbn [emit].
  destruct (FLAGS_pc fl); [|exact HL].
  unfold call, bind, emit.
  destruct (raises env printPerformanceCounts); exact HL.
Qed.

(** ** The output step *)

Lemma read_all_bounds buf idxs px :
  read_all buf idxs = Some px ->
  forall j, In j idxs -> 0 <= j < Z.of_nat (List.length buf).
Proof.
  revert px. induction idxs as [|i rest IH]; intros px Hread j Hin; [destruct Hin|].
  cbn [read_all] in Hread.
  destruct (nth_error buf (Z.to_nat i)) as [x|] eqn:Hnth; [|discriminate Hread].
  destruct (read_all buf rest) as [xs|]; [|discriminate Hread].
  destruct (Z.ltb_spec i 0) as [Hneg | Hpos]; [discriminate Hread|].
  destruct Hin as [<- | Hin].
  - assert (Hsome : nth_error buf (Z.to_nat i) <> None) by congruence.
    apply nth_error_Some in Hsome. lia.
  - exact (IH xs eq_refl j Hin).
Qed.

Lemma planes_bounds buf h w offs ps :
  planes buf h w offs = Some ps ->
  forall off j, In off offs -> In j (plane_indices off h w) ->
                0 <= j < Z.of_nat (List.length buf).
Proof.
  revert ps. induction offs as [|o rest IH]; intros ps Hp off j Hoff Hj;
    [destruct Hoff|].
  cbn [planes] in Hp. unfold plane in Hp.
  destruct (read_all buf (plane_indices o h w)) as [px|] eqn:Hread;
    [|discriminate Hp].
  destruct (planes buf h w rest) as [ps'|]; [|discriminate Hp].
  destruct Hoff as [<- | Hoff].
  - exact (read_all_bounds buf _ px Hread j Hj).
  - exact (IH ps' eq_refl off j Hoff Hj).
Qed.

(** The plane offsets without wrap-around, for any channel count, as long
    as the last plane starts below the modulus of [size_t]. *)
Lemma plane_offsets_no_wrap sw i C H W :
  0 <= i -> 0 <= C -> 0 <= H -> 0 <= W ->
  i * (H * W) * C + 2 * (H * W) < SIZE_MODULUS sw ->
  plane_offsets sw i (size_mul sw W H) C =
  [ i * (H * W) * C; i * (H * W) * C + H * W; i * (H * W) * C + 2 * (H * W) ].
Proof.
  intros Hi HC HH HW Hfit.
  rewrite plane_offsets_mod. cbn [map].
  assert (0 <= H * W) by (apply Z.mul_nonneg_nonneg; lia).
  assert (0 <= i * (H * W) * C).
  { apply Z.mul_nonneg_nonneg; [apply Z.mul_nonneg_nonneg|]; lia. }
  rewrite !to_size_t_small by lia.
  now rewrite Z.add_0_r.
Qed.

(** With at least 3 channels, the planes of every batch element lie inside
    the buffer. *)
Lemma planes_defined_from_3_channels sw buf N C H W i :
  3 <= C -> 0 <= H -> 0 <= W -> 0 <= i < N ->
  N * C * H * W < SIZE_MODULUS sw ->
  Z.of_nat (List.length buf) = N * C * H * W ->
  exists ps, planes buf H W (plane_offsets sw i (size_mul sw W H) C) = Some ps.
Proof.
  intros HC HH HW Hi Hfit Hlen.
  assert (Hnn : 0 <= H * W) by (apply Z.mul_nonneg_nonneg; lia).
  assert (Hchw : 3 * (H * W) <= C * (H * W))
    by (apply Z.mul_le_mono_nonneg_r; lia).
  assert (Hlast : (i + 1) * (C * (H * W)) <= N * (C * (H * W))).
  { apply Z.mul_le_mono_nonneg_r; [|lia].
    apply Z.mul_nonneg_nonneg; lia. }
  assert (Hbuf : N * C * H * W = N * (C * (H * W))) by ring.
  assert (Hbase : i * (H * W) * C = i * (C * (H * W))) by ring.
  assert (Hsucc : (i + 1) * (C * (H * W)) = i * (C * (H * W)) + C * (H * W)) by ring.
  assert (0 <= i * (C * (H * W))).
  { apply Z.mul_nonneg_nonneg; [lia|]. apply Z.mul_nonneg_nonneg; lia. }
  destruct (planes_defined buf H W (plane_offsets sw i (size_mul sw W H) C))
    as [ps [Hps _]]; [|now exists ps].
  intros off j Hoff Hj.
  rewrite plane_offsets_no_wrap in Hoff by lia.
  apply (in_plane_indices j off H W HH HW) in Hj.
  cbn [In] in Hoff. destruct Hoff as [<- | [<- | [<- | []]]]; lia.
Qed.

(** The output step as its loop, once the blob and its dimensions are
    found. *)
Lemma process_output_unfold env fl firstOutputName s b N C H W :
  lookup firstOutputName (request s) = Some b ->
  bdims b = [N; C; H; W] ->
  process_output env fl firstOutputName s =
  write_results env fl (buffer b) C H W (size_mul (size_width env) W H)
                (seq 0 (Z.to_nat N))
                (log_event
                   (slog_info ("Output size [N,C,H,W]: " ++ to_string N ++ ", "
                               ++ to_string C ++ ", " ++ to_string H ++ ", "
                               ++ to_string W)) s).
Proof.
  intros Hb Hd. unfold process_output.
  rewrite (bind_Ok _ _ _ _ _ (GetBlob_run _ s b Hb)).
  unfold deref at 1. unfold bind at 1. rewrite Hb. cbn [defined ret].
  rewrite Hd. cbn [nth_error defined].
  unfold bind at 1. cbn [ret]. unfold bind at 1. cbn [ret].
  unfold bind at 1. cbn [ret]. unfold bind at 1. cbn [ret].
  now rewrite (bind_Ok _ _ _ _ _ (emit_run _ s)).
Qed.

Lemma write_results_run env fl outputData numOfChannels h w nunOfPixels :
  (forall name img, raises env (imwrite name img) = None) ->
  (FLAGS_show fl = true ->
   (forall win img, raises env (imshow win img) = None) /\
   raises env waitKey = None) ->
  forall elems s,
    (forall i, In i elems ->
               exists ps, planes outputData h w
                                 (plane_offsets (size_width env) (Z.of_nat i)
                                                nunOfPixels numOfChannels) = Some ps) ->
    exists s',
      write_results env fl outputData numOfChannels h w nunOfPixels elems s
      = (Ok tt, s') /\
      request s' = request s.
Proof.
  intros Hwrite Hshow. induction elems as [|i rest IH]; intros s Hplanes.
  - exists s. now split.
  - cbn [write_results].
    destruct (Hplanes i (or_introl eq_refl)) as [ps Hps]. rewrite Hps.
    cbn [defined]. unfold bind at 1. cbn [ret].
    assert (Hblock :
              exists s1,
                (if FLAGS_show fl
                 then emit (cout "To close the application, press 'CTRL+C' or any key with focus on the output window") ;;
                      call env (imshow "result"
                                       (cv_merge env
                                          (map (fun img => convertTo_8UC1 env img 255%float) ps))) ;;
                      call env waitKey
                 else ret tt) s = (Ok tt, s1) /\ request s1 = request s).
    { destruct (FLAGS_show fl) eqn:Hs.
      - destruct (Hshow eq_refl) as [Hi Hk].
        rewrite (bind_Ok _ _ _ _ _ (emit_run _ s)).
        rewrite (bind_Ok _ _ _ _ _ (call_returns env _ _ (Hi _ _))).
        rewrite (call_returns env _ _ Hk). eexists. split; reflexivity.
      - exists s. now split. }
    destruct Hblock as [s1 [Hrun1 Hreq1]].
    rewrite (bind_Ok _ _ _ _ _ Hrun1).
    rewrite (bind_Ok _ _ _ _ _ (call_returns env _ _ (Hwrite _ _))).
    destruct (IH (log_event
                    (called (imwrite ("sr_" ++ to_string (size_add (size_width env)
                                                                   (Z.of_nat i) 1)
                                      ++ ".png")
                                     (cv_merge env
                                        (map (fun img => convertTo_8UC1 env img 255%float)
                                             ps)))) s1))
      as [s' [Hrun Hreq]].
    { intros k Hk. apply Hplanes. now right. }
    exists s'. split; [exact Hrun|]. rewrite Hreq. exact Hreq1.
Qed.

Lemma sr_names_of_elems sw n :
  Z.of_nat n < SIZE_MODULUS sw ->
  map (fun i => "sr_" ++ to_string (size_add sw (Z.of_nat i) 1) ++ ".png") (seq 0 n)
  = sr_names n.
Proof.
  intros Hn. unfold sr_names. rewrite <- seq_shift, map_map.
  apply map_ext_in. intros i Hi. apply in_seq in Hi.
  unfold size_add. rewrite to_size_t_small by lia.
  do 3 f_equal. lia.
Qed.

(** X13: when the first output blob is there with dimensions [N; C; H; W],
    at least 3 channels, a buffer of N*C*H*W floats (a [size_t] count), and
    the codec does not raise, the output step succeeds and writes exactly N
    files, named [sr_1.png] to [sr_N.png] in this order, one per unit of the
    batch dimension of the blob; it leaves the request as it was. *)
Theorem output_files_are_numbered env fl firstOutputName s b N C H W :
  lookup firstOutputName (request s) = Some b ->
  bdims b = [N; C; H; W] ->
  3 <= C -> 0 <= H -> 0 <= W -> 0 <= N < SIZE_MODULUS (size_width env) ->
  N * C * H * W < SIZE_MODULUS (size_width env) ->
  Z.of_nat (List.length (buffer b)) = N * C * H * W ->
  (forall name img, raises env (imwrite name img) = None) ->
  (FLAGS_show fl = true ->
   (forall win img, raises env (imshow win img) = None) /\
   raises env waitKey = None) ->
  exists s',
    process_output env fl firstOutputName s = (Ok tt, s') /\
    written_files (trace s') =
      List.app (written_files (trace s)) (sr_names (Z.to_nat N)) /\
    request s' = request s.
Proof.
  intros Hb Hd HC HH HW HN Hfit Hlen Hwrite Hshow.
  set (s1 := log_event
               (slog_info ("Output size [N,C,H,W]: " ++ to_string N ++ ", "
                           ++ to_string C ++ ", " ++ to_string H ++ ", "
                           ++ to_string W)) s).
  destruct (write_results_run env fl (buffer b) C H W
                              (size_mul (size_width env) W H) Hwrite Hshow
                              (seq 0 (Z.to_nat N)) s1)
    as [s' [Hrun Hreq]].
  { intros i Hi. apply in_seq in Hi.
    apply (planes_defined_from_3_channels (size_width env) (buffer b) N C H W);
      try assumption. lia. }
  exists s'.
  assert (Hproc : process_output env fl firstOutputName s = (Ok tt, s')).
  { unfold process_output.
    rewrite (bind_Ok _ _ _ _ _ (GetBlob_run _ s b Hb)).
    unfold deref at 1. unfold bind at 1. rewrite Hb. cbn [defined ret].
    rewrite Hd. cbn [nth_error defined].
    unfold bind at 1. cbn [ret]. unfold bind at 1. cbn [ret].
    unfold bind at 1. cbn [ret]. unfold bind at 1. cbn [ret].
    rewrite (bind_Ok _ _ _ _ _ (emit_run _ s)). exact Hrun. }
  split; [exact Hproc|]. split; [|exact Hreq].
  rewrite (write_results_files _ _ _ _ _ _ _ _ _ _ Hrun).
  cbn [trace s1 log_event]. rewrite written_files_app. cbn [written_files].
  rewrite app_nil_r. f_equal.
  apply sr_names_of_elems. rewrite Z2Nat.id; lia.
Qed.

(** An output blob of 2 batch elements with 3 channels of 1x1. *)
Lemma output_files_are_numbered_witness :
  exists s',
    process_output (Scenario.world Scenario.net_one_input Scenario.no_failure)
                   (Scenario.flags false "dir" 1) "129"
                   {| trace := []; clock_reads := 0; infer_calls := 0;
                      request := [("129", {| kind := OutputBlob; bdims := [2; 3; 1; 1];
                                             slots := [];
                                             buffer := repeat 0%float 6 |})] |}
    = (Ok tt, s') /\
    written_files (trace s') = ["sr_1.png"; "sr_2.png"].
Proof.
  destruct (output_files_are_numbered
              (Scenario.world Scenario.net_one_input Scenario.no_failure)
              (Scenario.flags false "dir" 1) "129"
              {| trace := []; clock_reads := 0; infer_calls := 0;
                 request := [("129", {| kind := OutputBlob; bdims := [2; 3; 1; 1];
                                        slots := [];
                                        buffer := repeat 0%float 6 |})] |}
              {| kind := OutputBlob; bdims := [2; 3; 1; 1]; slots := [];
                 buffer := repeat 0%float 6 |}
              2 3 1 1 eq_refl eq_refl)
    as [s' [Hrun [Hfiles _]]].
  - discriminate.
  - discriminate.
  - discriminate.
  - split; [discriminate | reflexivity].
  - reflexivity.
  - reflexivity.
  - reflexivity.
  - discriminate.
  - exists s'. split; [exact Hrun | exact Hfiles].
Defined.

Lemma write_results_Ok_planes env fl outputData numOfChannels h w nunOfPixels :
  forall elems s s',
    write_results env fl outputData numOfChannels h w nunOfPixels elems s = (Ok tt, s') ->
    forall i, In i elems ->
      exists ps, planes outputData h w
                        (plane_offsets (size_width env) (Z.of_nat i)
                                       nunOfPixels numOfChannels) = Some ps.
Proof.
  induction elems as [|k rest IH]; intros s s' Hrun i Hin; [destruct Hin|].
  cbn [write_results] in Hrun.
  apply bind_Ok_inv in Hrun. destruct Hrun as [ps [s1 [Hpl Hrun]]].
  apply defined_Ok_inv in Hpl. destruct Hpl as [Hps ->].
  apply bind_Ok_inv in Hrun. destruct Hrun as [[] [s2 [_ Hrun]]].
  apply bind_Ok_inv in Hrun. destruct Hrun as [[] [s3 [_ Hrun]]].
  destruct Hin as [<- | Hin].
  - now exists ps.
  - exact (IH _ _ Hrun i Hin).
Qed.

(** *** The planes that the output step reads *)

Lemma written_images_app t1 t2 :
  written_images (t1 ++ t2) = (written_images t1 ++ written_images t2)%list.
Proof.
  induction t1 as [|e t1 IH]; [reflexivity|].
  destruct e as [| | | | | |c]; cbn; try exact IH.
  destruct c; cbn; try exact IH. now rewrite IH.
Qed.

Lemma read_all_values buf idxs px :
  read_all buf idxs = Some px ->
  px = map (fun j => nth (Z.to_nat j) buf 0%float) idxs.
Proof.
  revert px. induction idxs as [|i rest IH]; intros px Hread.
  - now inversion Hread.
  - cbn [read_all] in Hread.
    destruct (nth_error buf (Z.to_nat i)) as [x|] eqn:Hnth; [|discriminate Hread].
    destruct (read_all buf rest) as [xs|]; [|discriminate Hread].
    destruct (i <? 0); [discriminate Hread|].
    inversion Hread. cbn [map]. rewrite (IH xs eq_refl).
    f_equal. symmetry. now apply nth_error_nth.
Qed.

(** The planes that are read without leaving the buffer are the views of
    the buffer at the offsets. *)
Lemma planes_views buf h w offs ps :
  planes buf h w offs = Some ps -> ps = map (plane_view buf h w) offs.
Proof.
  revert ps. induction offs as [|off rest IH]; intros ps Hp.
  - now inversion Hp.
  - cbn [planes] in Hp. unfold plane in Hp.
    destruct (read_all buf (plane_indices off h w)) as [px|] eqn:Hread;
      [|discriminate Hp].
    destruct (planes buf h w rest) as [ps'|]; [|discriminate Hp].
    inversion Hp. cbn [map]. rewrite (IH ps' eq_refl).
    unfold plane_view. now rewrite (read_all_values _ _ _ Hread).
Qed.

(** The image written for batch element [i]. *)
Lemma write_results_images env fl outputData numOfChannels h w nunOfPixels :
  forall elems s s',
    write_results env fl outputData numOfChannels h w nunOfPixels elems s = (Ok tt, s') ->
    written_images (trace s') =
    List.app (written_images (trace s))
             (map (fun i => result_image env outputData h w
                              (plane_offsets (size_width env) (Z.of_nat i)
                                             nunOfPixels numOfChannels))
                  elems).
Proof.
  induction elems as [|i rest IH]; intros s s' Hrun.
  - inversion Hrun. cbn. now rewrite app_nil_r.
  - cbn [write_results] in Hrun.
    apply bind_Ok_inv in Hrun. destruct Hrun as [imgPlanes [s1 [Hpl Hrun]]].
    apply defined_Ok_inv in Hpl. destruct Hpl as [Hps ->].
    apply planes_views in Hps. subst imgPlanes.
    apply bind_Ok_inv in Hrun. destruct Hrun as [[] [s2 [Hshow Hrun]]].
    assert (Hs2 : written_images (trace s2) = written_images (trace s)).
    { destruct (FLAGS_show fl).
      - apply bind_Ok_inv in Hshow. destruct Hshow as [[] [s3 [He Hshow]]].
        inversion He; subst s3.
        apply bind_Ok_inv in Hshow. destruct Hshow as [[] [s4 [Hc1 Hc2]]].
        apply call_Ok_inv in Hc1, Hc2. subst s4 s2.
        cbn [trace log_event]. rewrite !written_images_app. cbn.
        now rewrite !app_nil_r.
      - now inversion Hshow. }
    apply bind_Ok_inv in Hrun. destruct Hrun as [[] [s3 [Hw Hrun]]].
    apply call_Ok_inv in Hw. subst s3.
    rewrite (IH _ _ Hrun). cbn [trace log_event map].
    rewrite written_images_app, Hs2. cbn [written_images].
    now rewrite <- app_assoc.
Qed.

Lemma stays_defined_bind {A B} (m : M A) (f : A -> M B) :
  stays_defined m -> (forall a, stays_defined (f a)) -> stays_defined (bind m f).
Proof.
  intros Hm Hf s. unfold bind. specialize (Hm s).
  destruct (m s) as [[a | e |] s1]; cbn [fst] in *.
  - apply Hf.
  - discriminate.
  - congruence.
Qed.

Lemma stays_defined_ret {A} (a : A) : stays_defined (ret a).
Proof. intros s. discriminate. Qed.

Lemma stays_defined_emit e : stays_defined (emit e).
Proof. intros s. discriminate. Qed.

Lemma stays_defined_call env c : stays_defined (call env c).
Proof.
  intros s. unfold call, bind, emit. destruct (raises env c); discriminate.
Qed.

(** The loop over the batch elements has no undefined behaviour when the
    planes of every element lie inside the buffer. *)
Lemma write_results_stays_defined env fl outputData numOfChannels h w nunOfPixels :
  forall elems,
    (forall i, In i elems ->
               exists ps, planes outputData h w
                                 (plane_offsets (size_width env) (Z.of_nat i)
                                                nunOfPixels numOfChannels) = Some ps) ->
    stays_defined
      (write_results env fl outputData numOfChannels h w nunOfPixels elems).
Proof.
  induction elems as [|i rest IH]; intros Hplanes.
  - apply stays_defined_ret.
  - cbn [write_results].
    destruct (Hplanes i (or_introl eq_refl)) as [ps Hps]. rewrite Hps.
    apply stays_defined_bind; [apply stays_defined_ret|]. intros imgPlanes.
    apply stays_defined_bind.
    { destruct (FLAGS_show fl); [|apply stays_defined_ret].
      apply stays_defined_bind; [apply stays_defined_emit|]. intros _.
      apply stays_defined_bind; intros; apply stays_defined_call. }
    intros _. apply stays_defined_bind; [apply stays_defined_call|]. intros _.
    apply IH. intros k Hk. apply Hplanes. now right.
Qed.

(** C9: the output step, when it completes, has written for every batch
    element [i] of the first output blob the image merged from exactly three
    planes of its buffer, converted to 8 bits: the planes that start at the
    subscripts 0, H*W and 2*H*W past the start [i*H*W*C] of the element (in
    [size_t] arithmetic), whatever the channel count.  When the blob has
    exactly 3 channels, and its buffer has the N*C*H*W elements of its
    dimensions (a [size_t] count), these are the exact subscripts, every
    subscript read for an element lies in the element's own region and so
    inside the buffer, the output step has no undefined behaviour, and it
    completes when the codec does not raise. *)
Theorem output_planes_within_buffer env fl firstOutputName s b N C H W :
  lookup firstOutputName (request s) = Some b ->
  bdims b = [N; C; H; W] ->
  (forall s',
      process_output env fl firstOutputName s = (Ok tt, s') ->
      written_images (trace s') =
      List.app (written_images (trace s))
               (map (fun i =>
                       result_image env (buffer b) H W
                         (map (to_size_t (size_width env))
                              [ Z.of_nat i * (H * W) * C + 0;
                                Z.of_nat i * (H * W) * C + H * W;
                                Z.of_nat i * (H * W) * C + 2 * (H * W) ]))
                    (seq 0 (Z.to_nat N))))
  /\
  (C = 3 -> 0 <= H -> 0 <= W ->
   N * C * H * W < SIZE_MODULUS (size_width env) ->
   Z.of_nat (List.length (buffer b)) = N * C * H * W ->
   (forall i, 0 <= i < N ->
      plane_offsets (size_width env) i (size_mul (size_width env) W H) C =
        [ i * C * (H * W); i * C * (H * W) + H * W; i * C * (H * W) + 2 * (H * W) ]
      /\
      (forall j, In j (read_indices (size_width env) i C H W) ->
                 i * (C * H * W) <= j < (i + 1) * (C * H * W) /\
                 0 <= j < Z.of_nat (List.length (buffer b))))
   /\
   fst (process_output env fl firstOutputName s) <> Undefined
   /\
   ((forall name img, raises env (imwrite name img) = None) ->
    (FLAGS_show fl = true ->
     (forall win img, raises env (imshow win img) = None) /\
     raises env waitKey = None) ->
    exists s', process_output env fl firstOutputName s = (Ok tt, s'))).
Proof.
  intros Hb Hd.
  rewrite (process_output_unfold env fl firstOutputName s b N C H W Hb Hd).
  split.
  - intros s' Hrun.
    rewrite (write_results_images _ _ _ _ _ _ _ _ _ _ Hrun).
    cbn [trace log_event]. rewrite written_images_app. cbn [written_images].
    rewrite app_nil_r. f_equal.
    apply map_ext. intros i. now rewrite plane_offsets_mod.
  - intros -> HH HW Hfit Hlen.
    assert (Hnn : 0 <= H * W) by (apply Z.mul_nonneg_nonneg; lia).
    assert (Hplanes :
              forall i, In i (seq 0 (Z.to_nat N)) ->
                exists ps, planes (buffer b) H W
                                  (plane_offsets (size_width env) (Z.of_nat i)
                                                 (size_mul (size_width env) W H) 3)
                           = Some ps).
    { intros i Hi. apply in_seq in Hi.
      apply (planes_defined_from_3_channels (size_width env) (buffer b) N 3 H W);
        try assumption; lia. }
    split; [|split].
    + intros i Hi.
      pose proof (plane_offsets_exact (size_width env) N H W i HH HW Hi Hfit) as Hoffs.
      split; [exact Hoffs|].
      assert (Hlast : (i + 1) * 3 * (H * W) <= N * 3 * (H * W)).
      { apply Z.mul_le_mono_nonneg_r; lia. }
      intros j Hj. unfold read_indices in Hj.
      apply in_flat_map in Hj. destruct Hj as [off [Hoff Hj]].
      rewrite Hoffs in Hoff. rewrite Hlen.
      apply (in_plane_indices j off H W HH HW) in Hj.
      cbn [In] in Hoff. destruct Hoff as [<- | [<- | [<- | []]]]; nia.
    + apply write_results_stays_defined. exact Hplanes.
    + intros Hwrite Hshow.
      destruct (write_results_run env fl (buffer b) 3 H W
                                  (size_mul (size_width env) W H) Hwrite Hshow
                                  (seq 0 (Z.to_nat N))
                                  (log_event
                                     (slog_info ("Output size [N,C,H,W]: "
                                                 ++ to_string N ++ ", "
                                                 ++ to_string 3 ++ ", "
                                                 ++ to_string H ++ ", "
                                                 ++ to_string W)) s) Hplanes)
        as [s' [Hrun _]].
      now exists s'.
Qed.

(** Two batch elements of 1x1 pixels and 3 channels on the 32-bit target,
    over the buffer 1, 2, 3, 4, 5, 6: the first image is made of the floats
    at 0, 1 and 2, the second of those at 3, 4 and 5, and every subscript
    read for the second element lies in 3..5. *)
Lemma output_planes_within_buffer_witness :
  exists s',
    process_output (Scenario.world Scenario.net_one_input Scenario.no_failure)
                   (Scenario.flags false "lr.png" 1) "129"
                   {| trace := []; clock_reads := 0; infer_calls := 0;
                      request := [("129", {| kind := OutputBlob; bdims := [2; 3; 1; 1];
                                             slots := [];
                                             buffer := [1; 2; 3; 4; 5; 6]%float |})] |}
    = (Ok tt, s') /\
    written_images (trace s') =
      [ {| rows := 1; cols := 1; mat_type := CV_8UC3;
           mat_data := F32 [1; 2; 3]%float |};
        {| rows := 1; cols := 1; mat_type := CV_8UC3;
           mat_data := F32 [4; 5; 6]%float |} ] /\
    (forall j, In j (read_indices Size32 1 3 1 1) -> 3 <= j < 6 /\ 0 <= j < 6).
Proof.
  destruct (output_planes_within_buffer
              (Scenario.world Scenario.net_one_input Scenario.no_failure)
              (Scenario.flags false "lr.png" 1) "129"
              {| trace := []; clock_reads := 0; infer_calls := 0;
                 request := [("129", {| kind := OutputBlob; bdims := [2; 3; 1; 1];
                                        slots := [];
                                        buffer := [1; 2; 3; 4; 5; 6]%float |})] |}
              {| kind := OutputBlob; bdims := [2; 3; 1; 1]; slots := [];
                 buffer := [1; 2; 3; 4; 5; 6]%float |}
              2 3 1 1 eq_refl eq_refl)
    as [Himages Hthree].
  assert (H1 : 0 <= 1) by discriminate.
  assert (Hi : 0 <= 1 < 2) by (split; [discriminate | reflexivity]).
  destruct (Hthree eq_refl H1 H1 eq_refl eq_refl) as [Hreads [_ Hruns]].
  destruct (Hruns (fun _ _ => eq_refl) (fun Hs => False_ind _ (Bool.diff_false_true Hs)))
    as [s' Hrun].
  exists s'. split; [exact Hrun|]. split.
  - rewrite (Himages s' Hrun). vm_compute. reflexivity.
  - exact (proj2 (Hreads 1 Hi)).
Defined.

(** With fewer than 3 channels, the third plane of the last batch element
    reaches past the end of the buffer. *)
Lemma planes_overrun sw buf N C H W :
  0 <= C < 3 -> 1 <= N -> 1 <= H < 2 ^ 31 -> 1 <= W < 2 ^ 31 ->
  N * 3 * H * W < SIZE_MODULUS sw ->
  Z.of_nat (List.length buf) = N * C * H * W ->
  planes buf H W (plane_offsets sw (N - 1) (size_mul sw W H) C) = None.
Proof.
  intros HC HN HH HW Hfit Hlen.
  destruct (planes buf H W (plane_offsets sw (N - 1) (size_mul sw W H) C))
    as [ps|] eqn:Hps; [exfalso | reflexivity].
  assert (Hhw : 1 <= H * W) by nia.
  assert (Hc3 : C * (H * W) <= 2 * (H * W))
    by (apply Z.mul_le_mono_nonneg_r; lia).
  assert (Hbase : 0 <= (N - 1) * (C * (H * W))).
  { apply Z.mul_nonneg_nonneg; [lia|]. apply Z.mul_nonneg_nonneg; lia. }
  assert (Hbase3 : (N - 1) * (C * (H * W)) <= (N - 1) * (3 * (H * W))).
  { apply Z.mul_le_mono_nonneg_l; lia. }
  assert (Hbuf : N * C * H * W = (N - 1) * (C * (H * W)) + C * (H * W)) by ring.
  assert (Hmod : N * 3 * H * W = (N - 1) * (3 * (H * W)) + 3 * (H * W)) by ring.
  assert (Hoff : (N - 1) * (H * W) * C = (N - 1) * (C * (H * W))) by ring.
  rewrite plane_offsets_no_wrap in Hps by lia.
  pose proof (planes_bounds buf H W _ ps Hps
                ((N - 1) * (H * W) * C + 2 * (H * W))
                ((N - 1) * (H * W) * C + 2 * (H * W) + (H * W - 1))) as Hb.
  assert (Hin : In ((N - 1) * (H * W) * C + 2 * (H * W) + (H * W - 1))
                   (plane_indices ((N - 1) * (H * W) * C + 2 * (H * W)) H W)).
  { unfold plane_indices. rewrite !to_int_small by lia.
    apply in_map_iff. exists (Z.to_nat (H * W - 1)). split; [lia|].
    apply in_seq. lia. }
  specialize (Hb (or_intror (or_intror (or_introl eq_refl))) Hin).
  lia.
Qed.

(** X14: when the first output blob has fewer than 3 channels (and at
    least one batch element of at least one pixel), the output step never
    completes: the third plane of the last batch element is read past the
    end of the N*C*H*W buffer. *)
Theorem fewer_than_3_channels_overrun env fl firstOutputName s b N C H W :
  lookup firstOutputName (request s) = Some b ->
  bdims b = [N; C; H; W] ->
  0 <= C < 3 -> 1 <= N -> 1 <= H < 2 ^ 31 -> 1 <= W < 2 ^ 31 ->
  N * 3 * H * W < SIZE_MODULUS (size_width env) ->
  Z.of_nat (List.length (buffer b)) = N * C * H * W ->
  planes (buffer b) H W
         (plane_offsets (size_width env) (N - 1)
                        (size_mul (size_width env) W H) C) = None /\
  fst (process_output env fl firstOutputName s) <> Ok tt.
Proof.
  intros Hb Hd HC HN HH HW Hfit Hlen.
  pose proof (planes_overrun (size_width env) (buffer b) N C H W
                             HC HN HH HW Hfit Hlen) as Hover.
  split; [exact Hover|].
  intros Hok.
  destruct (process_output env fl firstOutputName s) as [o s'] eqn:Hrun.
  cbn [fst] in Hok. subst o.
  unfold process_output in Hrun.
  rewrite (bind_Ok _ _ _ _ _ (GetBlob_run _ s b Hb)) in Hrun.
  unfold deref at 1 in Hrun. unfold bind at 1 in Hrun. rewrite Hb in Hrun.
  cbn [defined ret] in Hrun. rewrite Hd in Hrun. cbn [nth_error defined] in Hrun.
  unfold bind at 1 in Hrun. cbn [ret] in Hrun.
  unfold bind at 1 in Hrun. cbn [ret] in Hrun.
  unfold bind at 1 in Hrun. cbn [ret] in Hrun.
  unfold bind at 1 in Hrun. cbn [ret] in Hrun.
  rewrite (bind_Ok _ _ _ _ _ (emit_run _ s)) in Hrun.
  destruct (write_results_Ok_planes _ _ _ _ _ _ _ _ _ _ Hrun (Z.to_nat (N - 1)))
    as [ps Hps].
  { apply in_seq. lia. }
  rewrite Z2Nat.id in Hps by lia. congruence.
Qed.

(** A single-channel output of 1x1, one batch element: the buffer has one
    float, and the planes are taken at 0, 1 and 2. *)
Lemma fewer_than_3_channels_overrun_witness :
  fst (process_output (Scenario.world Scenario.net_one_input Scenario.no_failure)
                      (Scenario.flags false "lr.png" 1) "129"
                      {| trace := []; clock_reads := 0; infer_calls := 0;
                         request := [("129", {| kind := OutputBlob;
                                                bdims := [1; 1; 1; 1];
                                                slots := [];
                                                buffer := [0%float] |})] |})
  <> Ok tt.
Proof.
  refine (proj2 (fewer_than_3_channels_overrun
                   (Scenario.world Scenario.net_one_input Scenario.no_failure)
                   (Scenario.flags false "lr.png" 1) "129"
                   {| trace := []; clock_reads := 0; infer_calls := 0;
                      request := [("129", {| kind := OutputBlob;
                                             bdims := [1; 1; 1; 1];
                                             slots := [];
                                             buffer := [0%float] |})] |}
                   {| kind := OutputBlob; bdims := [1; 1; 1; 1]; slots := [];
                      buffer := [0%float] |}
                   1 1 1 1 eq_refl eq_refl _ _ _ _ _ _)).
  - split; [discriminate | reflexivity].
  - discriminate.
  - split; [discriminate | reflexivity].
  - split; [discriminate | reflexivity].
  - reflexivity.
  - reflexivity.
Defined.

(** ** Files are written only after the whole loop *)

Lemma written_files_allowed env fl lo hi t :
  (hi < 8)%nat -> Forall (allowed env fl lo hi) t -> written_files t = [].
Proof.
  intros Hhi. induction 1 as [|e t He Ht IH]; [reflexivity|].
  destruct e as [| | | | | |c]; cbn; try exact IH.
  destruct c; cbn; try exact IH. destruct He as [_ Hs]. cbn in Hs. lia.
Qed.

Lemma forward_passes_allowed env fl lo hi t :
  (hi < 7 \/ 7 < lo)%nat -> Forall (allowed env fl lo hi) t -> forward_passes t = 0%nat.
Proof.
  intros Hr. induction 1 as [|e t He Ht IH]; [reflexivity|].
  destruct e as [| | | | | |c]; cbn; try exact IH.
  destruct c; cbn; try exact IH. destruct He as [_ Hs]. cbn in Hs. lia.
Qed.

Lemma no_calls_quiet l :
  Forall (fun e => match e with called _ => False | _ => True end) l ->
  written_files l = [] /\ forward_passes l = 0%nat.
Proof.
  induction 1 as [|e l He Hl IH]; [now split|].
  destruct e; cbn; try exact IH. destruct He.
Qed.

Lemma Infer_Ok_trace env s u s' :
  Infer_ env s = (Ok u, s') ->
  trace s' = (trace s ++ [called (Infer (infer_calls s))])%list.
Proof.
  unfold Infer_. unfold bind at 1. intros Hrun.
  apply bind_Ok_inv in Hrun. destruct Hrun as [[] [s1 [Hc Hrun]]].
  apply call_Ok_inv in Hc. subst s1. now inversion Hrun.
Qed.

Lemma inference_loop_Ok_passes env n :
  forall total s v s',
    inference_loop env n total s = (Ok v, s') ->
    forward_passes (trace s') = (forward_passes (trace s) + n)%nat.
Proof.
  induction n as [|n IH]; intros total s v s' Hrun.
  - inversion Hrun. lia.
  - cbn [inference_loop] in Hrun. unfold bind at 1 in Hrun. cbn [Time_now_] in Hrun.
    apply bind_Ok_inv in Hrun. destruct Hrun as [[] [s2 [HI Hrun]]].
    apply Infer_Ok_trace in HI. cbn [trace infer_calls] in HI.
    unfold bind at 1 in Hrun. cbn [Time_now_] in Hrun.
    apply IH in Hrun. cbn [trace] in Hrun.
    rewrite Hrun, HI, forward_passes_app. cbn. lia.
Qed.

Lemma do_inference_Ok_passes env fl s u s' :
  do_inference env fl s = (Ok u, s') ->
  forward_passes (trace s') = (forward_passes (trace s) + iterations env fl)%nat.
Proof.
  unfold do_inference. intros Hrun.
  apply bind_Ok_inv in Hrun. destruct Hrun as [[] [s1 [He Hrun]]].
  inversion He; subst s1. clear He.
  apply bind_Ok_inv in Hrun. destruct Hrun as [total [s2 [Hloop Hrun]]].
  apply inference_loop_Ok_passes in Hloop. cbn [trace log_event] in Hloop.
  rewrite forward_passes_app in Hloop. cbn in Hloop.
  apply bind_Ok_inv in Hrun. destruct Hrun as [[] [s3 [He Hrun]]].
  inversion He; subst s3. clear He.
  destruct (FLAGS_pc fl).
  - apply call_Ok_inv in Hrun. subst s'. cbn [trace log_event].
    rewrite !forward_passes_app. cbn. lia.
  - inversion Hrun; subst s'. cbn [trace log_event].
    rewrite forward_passes_app. cbn. lia.
Qed.

(** A call that returned did not raise. *)
Lemma call_Ok_returned env c s u s' :
  call env c s = (Ok u, s') -> raises env c = None.
Proof.
  unfold call, bind, emit. destruct (raises env c); [discriminate | reflexivity].
Qed.

Lemma forward_passes_0_no_Infer t :
  forward_passes t = 0%nat -> forall k, ~ In (called (Infer k)) t.
Proof.
  induction t as [|e t IH]; intros H0 k Hin; [destruct Hin|].
  destruct Hin as [-> | Hin]; [discriminate H0|].
  apply (IH ltac:(destruct e as [| | | | | |c]; cbn in H0; try exact H0;
                   destruct c; cbn in H0; try exact H0; discriminate H0) k Hin).
Qed.

Lemma Infer_Ok_returned env s u s' :
  Infer_ env s = (Ok u, s') -> raises env (Infer (infer_calls s)) = None.
Proof.
  unfold Infer_. unfold bind at 1. intros Hrun.
  apply bind_Ok_inv in Hrun. destruct Hrun as [[] [s1 [Hc _]]].
  exact (call_Ok_returned _ _ _ _ _ Hc).
Qed.

(** When the loop completes, every forward pass of the trace has returned. *)
Lemma inference_loop_Ok_returned env n :
  forall total s v s',
    inference_loop env n total s = (Ok v, s') ->
    (forall k, In (called (Infer k)) (trace s) -> raises env (Infer k) = None) ->
    forall k, In (called (Infer k)) (trace s') -> raises env (Infer k) = None.
Proof.
  induction n as [|n IH]; intros total s v s' Hrun Hbefore.
  - inversion Hrun; subst. exact Hbefore.
  - cbn [inference_loop] in Hrun. unfold bind at 1 in Hrun. cbn [Time_now_] in Hrun.
    apply bind_Ok_inv in Hrun. destruct Hrun as [[] [s2 [HI Hrun]]].
    pose proof (Infer_Ok_returned _ _ _ _ HI) as Hret.
    apply Infer_Ok_trace in HI. cbn [trace infer_calls] in HI, Hret.
    unfold bind at 1 in Hrun. cbn [Time_now_] in Hrun.
    apply (IH _ _ _ _ Hrun). cbn [trace]. rewrite HI.
    intros k Hin. apply in_app_or in Hin. destruct Hin as [Hin | [Heq | []]].
    + now apply Hbefore.
    + inversion Heq; subst k. exact Hret.
Qed.

(** When the inference step completes, every forward pass has returned and
    the average has been reported. *)
Lemma do_inference_Ok_returned env fl s u s' :
  do_inference env fl s = (Ok u, s') ->
  (forall k, In (called (Infer k)) (trace s) -> raises env (Infer k) = None) ->
  (forall k, In (called (Infer k)) (trace s') -> raises env (Infer k) = None) /\
  (exists v, In (cout_average v) (trace s')).
Proof.
  unfold do_inference. intros Hrun Hbefore.
  apply bind_Ok_inv in Hrun. destruct Hrun as [[] [s1 [He Hrun]]].
  inversion He; subst s1. clear He.
  apply bind_Ok_inv in Hrun. destruct Hrun as [total [s2 [Hloop Hrun]]].
  pose proof (inference_loop_Ok_returned _ _ _ _ _ _ Hloop) as Hret.
  cbn [trace log_event] in Hret.
  assert (Hs2 : forall k, In (called (Infer k)) (trace s2) ->
                          raises env (Infer k) = None).
  { apply Hret. intros k Hin. apply in_app_or in Hin.
    destruct Hin as [Hin | [Heq | []]]; [now apply Hbefore | discriminate Heq]. }
  apply bind_Ok_inv in Hrun. destruct Hrun as [[] [s3 [He Hrun]]].
  inversion He; subst s3. clear He.
  destruct (FLAGS_pc fl).
  - apply call_Ok_inv in Hrun. subst s'. cbn [trace log_event]. split.
    + intros k Hin. apply in_app_or in Hin. destruct Hin as [Hin | [Heq | []]];
        [|discriminate Heq].
      apply in_app_or in Hin. destruct Hin as [Hin | [Heq | []]];
        [now apply Hs2 | discriminate Heq].
    + eexists. apply in_or_app. left. apply in_or_app. right. now left.
  - inversion Hrun; subst s'. cbn [trace log_event]. split.
    + intros k Hin. apply in_app_or in Hin. destruct Hin as [Hin | [Heq | []]];
        [now apply Hs2 | discriminate Heq].
    + eexists. apply in_or_app. right. now left.
Qed.

Lemma allowed_8_no_Infer env fl t k :
  Forall (allowed env fl 8 8) t -> ~ In (called (Infer k)) t.
Proof.
  intros Hall Hin. rewrite Forall_forall in Hall.
  destruct (Hall _ Hin) as [_ Hs]. cbn in Hs. lia.
Qed.

(** X15: in every run, if any file has been written then the inference
    loop has run all its iterations before, every one of its forward passes
    has returned, and the average has been reported: the trace holds exactly
    as many forward passes as the loop has iterations, and none of them
    raised.  So a run in which a forward pass raises writes no file. *)
Theorem files_only_after_all_passes env fl :
  (written_files (trace (final (main env fl))) <> [] ->
   forward_passes (trace (final (main env fl))) = iterations env fl /\
   (forall k, In (called (Infer k)) (trace (final (main env fl))) ->
              raises env (Infer k) = None) /\
   (exists v, In (cout_average v) (trace (final (main env fl))))) /\
  (forall k e,
      In (called (Infer k)) (trace (final (main env fl))) ->
      raises env (Infer k) = Some e ->
      written_files (trace (final (main env fl))) = []).
Proof.
  set (quiet := fun t => written_files t = [] /\ forward_passes t = 0%nat).
  set (done := fun t =>
                 forward_passes t = iterations env fl /\
                 (forall k, In (called (Infer k)) t -> raises env (Infer k) = None) /\
                 (exists v, In (cout_average v) t)).
  set (inferred := fun t => written_files t = [] /\ done t).
  set (J := fun t => written_files t <> [] -> done t).
  assert (Hquiet_J : forall s, on_trace quiet s -> on_trace J s).
  { intros s [Hw _] Hne. contradiction. }
  assert (Hearly_step :
            forall A (m : M A) lo hi,
              (hi < 7)%nat -> emits_only (allowed env fl lo hi) m ->
              triple (on_trace quiet) m (fun _ => on_trace quiet) (on_trace J)).
  { intros A m lo hi Hhi Hm.
    apply (triple_conseq (on_trace quiet) _ _ (fun _ => on_trace quiet) _
                         (on_trace quiet)); auto.
    apply (triple_of_emits _ _ (allowed env fl lo hi)); [exact Hm|].
    intros t0 t [Hw Hp] Ht. unfold quiet.
    rewrite written_files_app, forward_passes_app, Hw, Hp.
    rewrite (written_files_allowed env fl lo hi t) by (lia || assumption).
    rewrite (forward_passes_allowed env fl lo hi t) by (auto; lia).
    now split. }
  assert (Htry : triple (on_trace quiet) (try_block env fl)
                        (fun _ => on_trace J) (on_trace J)).
  { apply (try_block_triple env fl
             (on_trace quiet) (on_trace quiet) (on_trace quiet) (on_trace quiet)
             (on_trace quiet) (on_trace quiet) (on_trace inferred) (on_trace J)).
    - apply (Hearly_step _ _ 1%nat 2%nat); [lia | apply startup_emits].
    - intros network.
      apply (Hearly_step _ _ 3%nat 3%nat); [lia | apply configure_input_emits].
    - intros network.
      apply (Hearly_step _ _ 3%nat 3%nat); [lia | apply configure_output_emits].
    - intros network [Hb Hi].
      apply (Hearly_step _ _ 4%nat 5%nat); [lia | now apply create_request_emits].
    - intros inputImages.
      apply (Hearly_step _ _ 6%nat 6%nat); [lia | apply prepare_input_emits].
    - intros s [Hw Hp].
      destruct (do_inference_emits env fl s) as [t [Ht Hall]].
      pose proof (written_files_allowed env fl 7 7 t ltac:(lia) Hall) as Hwt.
      destruct (do_inference env fl s) as [[[] | e |] s1] eqn:Hrun;
        cbn [snd] in Ht; unfold on_trace, inferred, J.
      + split; [now rewrite Ht, written_files_app, Hw, Hwt|].
        destruct (do_inference_Ok_returned env fl s tt s1 Hrun) as [Hret Havg].
        { intros k Hin. destruct (forward_passes_0_no_Infer _ Hp k Hin). }
        split; [|split; [exact Hret | exact Havg]].
        rewrite (do_inference_Ok_passes env fl s tt s1 Hrun), Hp. lia.
      + rewrite Ht, written_files_app, Hw, Hwt. intros Hne. contradiction.
      + rewrite Ht, written_files_app, Hw, Hwt. intros Hne. contradiction.
    - intros name.
      apply (triple_of_emits _ _ (allowed env fl 8 8));
        [apply process_output_emits|].
      intros t0 t [Hw [Hp [Hret [v Hv]]]] Ht _. split; [|split].
      + rewrite forward_passes_app, Hp.
        rewrite (forward_passes_allowed env fl 8 8 t) by (auto; lia). lia.
      + intros k Hin. apply in_app_or in Hin. destruct Hin as [Hin | Hin].
        * now apply Hret.
        * destruct (allowed_8_no_Infer env fl t k Ht Hin).
      + exists v. apply in_or_app. now left.
    - exact Hquiet_J. }
  assert (Hinit : on_trace quiet initial_state) by (split; reflexivity).
  specialize (Htry initial_state Hinit).
  destruct (main_trace env fl) as [l [Hl Hnc]].
  destruct (no_calls_quiet l Hnc) as [Hwl Hpl].
  assert (HJ : J (trace (snd (try_block env fl initial_state)))).
  { destruct (try_block env fl initial_state) as [[r | e |] s]; exact Htry. }
  assert (Hmain : written_files (trace (final (main env fl))) <> [] ->
                  done (trace (final (main env fl)))).
  { rewrite Hl, written_files_app, Hwl, app_nil_r. intros Hne.
    destruct (HJ Hne) as [Hp [Hret [v Hv]]]. split; [|split].
    - rewrite forward_passes_app, Hpl, Nat.add_0_r. exact Hp.
    - intros k Hin. apply in_app_or in Hin. destruct Hin as [Hin | Hin].
      + now apply Hret.
      + rewrite Forall_forall in Hnc. destruct (Hnc _ Hin).
    - exists v. apply in_or_app. now left. }
  split; [exact Hmain|].
  intros k e Hin Hraise.
  destruct (written_files (trace (final (main env fl)))) as [|f fs] eqn:Hw;
    [reflexivity|].
  destruct (Hmain ltac:(discriminate)) as [_ [Hret _]].
  rewrite (Hret k Hin) in Hraise. discriminate Hraise.
Qed.

(** The run on one image with two iterations writes a file after exactly
    two forward passes; and the run in which the second forward pass raises
    writes no file. *)
Lemma files_only_after_all_passes_witness :
  (written_files
     (trace (final (main (Scenario.world Scenario.net_one_input Scenario.no_failure)
                         (Scenario.flags false "lr.png" 2)))) = ["sr_1.png"] /\
   forward_passes
     (trace (final (main (Scenario.world Scenario.net_one_input Scenario.no_failure)
                         (Scenario.flags false "lr.png" 2)))) = 2%nat) /\
  (In (called (Infer 1))
      (trace (final (main (Scenario.world Scenario.net_one_input
                                          Scenario.second_pass_fails)
                          (Scenario.flags false "lr.png" 2)))) /\
   written_files
     (trace (final (main (Scenario.world Scenario.net_one_input
                                         Scenario.second_pass_fails)
                         (Scenario.flags false "lr.png" 2)))) = []).
Proof.
  assert (Hw : written_files
                 (trace (final (main (Scenario.world Scenario.net_one_input
                                                     Scenario.no_failure)
                                     (Scenario.flags false "lr.png" 2))))
               = ["sr_1.png"]) by (vm_compute; reflexivity).
  assert (Hin : In (called (Infer 1))
                   (trace (final (main (Scenario.world Scenario.net_one_input
                                                       Scenario.second_pass_fails)
                                       (Scenario.flags false "lr.png" 2)))))
    by (vm_compute; do 18 right; left; reflexivity).
  split; split.
  - exact Hw.
  - refine (proj1 (proj1 (files_only_after_all_passes
                            (Scenario.world Scenario.net_one_input Scenario.no_failure)
                            (Scenario.flags false "lr.png" 2)) _)).
    rewrite Hw. discriminate.
  - exact Hin.
  - exact (proj2 (files_only_after_all_passes
                    (Scenario.world Scenario.net_one_input Scenario.second_pass_fails)
                    (Scenario.flags false "lr.png" 2))
                 1%nat (std_exception "Device lost") Hin eq_refl).
Defined.

(** ** Every call comes after the calls of the steps before it *)

Section StepsDone.

Variable env : Env.
Variable fl : Flags.














End StepsDone.





(** ** A run in which everything is in order *)

Lemma stage_quiet {A} env fl lo hi (m : M A) s :
  (hi < 7)%nat -> emits_only (allowed env fl lo hi) m ->
  written_files (trace (snd (m s))) = written_files (trace s) /\
  forward_passes (trace (snd (m s))) = forward_passes (trace s).
Proof.
  intros Hhi Hm. destruct (Hm s) as [t [Ht Hall]].
  rewrite Ht, written_files_app, forward_passes_app.
  rewrite (written_files_allowed env fl lo hi t) by (lia || assumption).
  rewrite (forward_passes_allowed env fl lo hi t) by (auto; lia).
  now rewrite app_nil_r, Nat.add_0_r.
Qed.

Lemma not_empty s : s <> "" -> empty s = false.
Proof.
  intros Hs. destruct (empty s) eqn:He; [|reflexivity].
  apply empty_spec in He. contradiction.
Qed.

Lemma ParseAndCheckCommandLine_true fl s :
  FLAGS_h fl = false -> 1 <= FLAGS_ni fl ->
  FLAGS_i fl <> "" -> FLAGS_m fl <> "" ->
  ParseAndCheckCommandLine fl s =
  (Ok true, log_event (slog_info "Parsing input parameters") s).
Proof.
  intros Hh Hni Hi Hm.
  assert (Hlt : (FLAGS_ni fl <? 1) = false) by (apply Z.ltb_ge; lia).
  unfold ParseAndCheckCommandLine, bind, emit.
  now rewrite Hh, Hlt, (not_empty _ Hi), (not_empty _ Hm).
Qed.

Lemma load_plugin_succeeds env fl :
  (forall c, raises env c = None) ->
  forall s, exists s', load_plugin env fl s = (Ok tt, s').
Proof.
  intros Hr s. unfold load_plugin.
  rewrite (bind_Ok _ _ _ _ _ (emit_run _ s)).
  rewrite (bind_Ok _ _ _ _ _ (call_returns env _ _ (Hr _))).
  rewrite (bind_Ok _ _ _ _ _ (call_returns env _ _ (Hr _))).
  destruct (contains "CPU" (FLAGS_d fl));
    [rewrite (bind_Ok _ _ _ _ _ (call_returns env _ _ (Hr _)))
    | unfold bind at 1; cbn [ret]];
    (destruct (empty (FLAGS_l fl)); cbn [negb];
     [unfold bind at 1; cbn [ret]
     | unfold bind at 1;
       rewrite (bind_Ok _ _ _ _ _ (call_returns env _ _ (Hr _)));
       rewrite (bind_Ok _ _ _ _ _ (call_returns env _ _ (Hr _)));
       cbn [emit]]);
    (destruct (empty (FLAGS_c fl)); cbn [negb];
     [eexists; reflexivity
     | rewrite (bind_Ok _ _ _ _ _ (call_returns env _ _ (Hr _)));
       eexists; reflexivity]).
Qed.

Lemma read_network_succeeds env fl :
  (forall c, raises env c = None) ->
  forall s, exists s',
      read_network env fl s = (Ok (getNetwork env (FLAGS_m fl)), s').
Proof.
  intros Hr s. unfold read_network.
  rewrite (bind_Ok _ _ _ _ _ (emit_run _ s)).
  rewrite (bind_Ok _ _ _ _ _ (call_returns env _ _ (Hr _))).
  rewrite (bind_Ok _ _ _ _ _ (call_returns env _ _ (Hr _))).
  eexists. reflexivity.
Qed.

Lemma startup_succeeds env fl s :
  FLAGS_h fl = false -> 1 <= FLAGS_ni fl ->
  FLAGS_i fl <> "" -> FLAGS_m fl <> "" ->
  input_files env (FLAGS_i fl) <> [] ->
  (forall c, raises env c = None) ->
  exists s',
    startup env fl s =
    (Ok (Some (input_files env (FLAGS_i fl), getNetwork env (FLAGS_m fl))), s').
Proof.
  intros Hh Hni Hi Hm Hfiles Hr. unfold startup.
  rewrite (bind_Ok _ _ _ _ _ (emit_run _ s)).
  rewrite (bind_Ok _ _ _ _ _ (ParseAndCheckCommandLine_true fl _ Hh Hni Hi Hm)).
  cbn [negb].
  destruct (input_files env (FLAGS_i fl)) as [|i0 rest] eqn:Hnames;
    [contradiction|]. cbn [is_nil].
  destruct (load_plugin_succeeds env fl Hr
              (log_event (slog_info "Parsing input parameters")
                         (log_event (slog_info ("InferenceEngine: " ++ ie_version env)) s)))
    as [s1 Hl].
  rewrite (bind_Ok _ _ _ _ _ Hl).
  destruct (read_network_succeeds env fl Hr s1) as [s2 Hn].
  rewrite (bind_Ok _ _ _ _ _ Hn).
  now exists s2.
Qed.

Lemma accepted_images_length env w h imageNames :
  (List.length (accepted_images env w h imageNames) <= List.length imageNames)%nat.
Proof.
  unfold accepted_images.
  rewrite <- (length_map (imread env) imageNames).
  apply filter_length_le.
Qed.

Lemma create_request_succeeds env network s :
  (forall c, raises env c = None) ->
  exists s',
    create_request env network s = (Ok tt, s') /\
    request s' = allocate_blobs network.
Proof.
  intros Hr. unfold create_request.
  rewrite (bind_Ok _ _ _ _ _ (emit_run _ s)).
  rewrite (bind_Ok _ _ _ _ _ (call_returns env _ _ (Hr _))).
  rewrite (bind_Ok _ _ _ _ _ (emit_run _ _)).
  rewrite (bind_Ok _ _ _ _ _ (call_returns env _ _ (Hr _))).
  eexists. split; reflexivity.
Qed.

Lemma do_inference_succeeds env fl s :
  1 <= FLAGS_ni fl < 2 ^ 31 ->
  (forall c, raises env c = None) ->
  exists s', do_inference env fl s = (Ok tt, s').
Proof.
  intros Hni Hr.
  destruct (do_inference_run env fl s Hni (fun k _ => Hr _)) as [s1 [_ Hrun]].
  rewrite Hrun. destruct (FLAGS_pc fl).
  - rewrite (call_returns env _ _ (Hr _)). eexists. reflexivity.
  - eexists. reflexivity.
Qed.

(** X16: a run in which everything is in order.  The parameters are set,
    nothing raises, the model has the one input "0" of four dimensions and
    a first output, with a name other than "" and "0", of at least 3
    channels, every output has its data, and at least one candidate is
    accepted.  Then the run ends with exit code 0, has run exactly [-ni]
    forward passes, and has written the files [sr_1.png] to [sr_K.png],
    where K is the number of candidate paths; and in the end slot [i] of the
    input blob holds accepted image [i], while the slots from the number of
    accepted images up to K, one for every rejected candidate, were never
    filled. *)
Theorem run_in_order_succeeds env fl desc n c h w oname odesc oN oC oH oW rest :
  FLAGS_h fl = false -> 1 <= FLAGS_ni fl < 2 ^ 31 ->
  FLAGS_i fl <> "" -> FLAGS_m fl <> "" ->
  (forall call, raises env call = None) ->
  inputsInfo (getNetwork env (FLAGS_m fl)) = [(lrInputBlobName, desc)] ->
  dims desc = [n; c; h; w] -> 0 <= w < 2 ^ 31 -> 0 <= h < 2 ^ 31 ->
  accepted_images env w h (input_files env (FLAGS_i fl)) <> [] ->
  outputsInfo (getNetwork env (FLAGS_m fl)) = (oname, Some odesc) :: rest ->
  Forall (fun p => snd p <> None) rest ->
  oname <> "" -> oname <> lrInputBlobName ->
  dims odesc = [oN; oC; oH; oW] -> 3 <= oC -> 0 <= oH -> 0 <= oW ->
  Z.of_nat (List.length (input_files env (FLAGS_i fl))) < SIZE_MODULUS (size_width env) ->
  Z.of_nat (List.length (input_files env (FLAGS_i fl))) * oC * oH * oW
    < SIZE_MODULUS (size_width env) ->
  exit_code (main env fl) = Some 0 /\
  forward_passes (trace (final (main env fl))) = Z.to_nat (FLAGS_ni fl) /\
  written_files (trace (final (main env fl))) =
    sr_names (List.length (input_files env (FLAGS_i fl))) /\
  exists b0,
    lookup lrInputBlobName (request (final (main env fl))) = Some b0 /\
    (forall i img,
        nth_error (accepted_images env w h (input_files env (FLAGS_i fl))) i = Some img ->
        nth_error (slots b0) i = Some (Some img)) /\
    (forall j,
        (List.length (accepted_images env w h (input_files env (FLAGS_i fl))) <= j
         < List.length (input_files env (FLAGS_i fl)))%nat ->
        nth_error (slots b0) j = Some None).
Proof.
  intros Hh Hni Hi Hm Hr Hin Hdims Hw Hhh Hacc Hout Hrest Hon Hon0 Hodims HoC HoH HoW
         HK Hfit.
  set (names := input_files env (FLAGS_i fl)) in *.
  set (net := getNetwork env (FLAGS_m fl)) in *.
  set (K := Z.of_nat (List.length names)) in *.
  assert (Hnames : names <> []).
  { intros Hnil. apply Hacc. now rewrite Hnil. }
  (* up to the loaded network *)
  destruct (startup_succeeds env fl initial_state Hh (proj1 Hni) Hi Hm Hnames Hr)
    as [s1 Hstart].
  destruct (stage_quiet env fl 1 2 (startup env fl) initial_state ltac:(lia)
                        (startup_emits env fl)) as [Hw1 Hp1].
  rewrite Hstart in Hw1, Hp1. cbn [snd trace initial_state] in Hw1, Hp1.
  (* input binding *)
  assert (Hlr : lookup lrInputBlobName (inputsInfo net) = Some desc)
    by (rewrite Hin; reflexivity).
  assert (Hone : List.length (inputsInfo net) = 1%nat) by (rewrite Hin; reflexivity).
  pose proof (configure_input_run env net names desc n c h w s1 Hlr Hdims Hw Hhh
                                  (or_introl Hone)) as Hci.
  cbv zeta in Hci. fold K in Hci.
  destruct (accepted_images env w h names) as [|img0 imgs] eqn:Himgs;
    [contradiction|].
  cbn [is_nil] in Hci. rewrite (Hr (setBatchSize K)) in Hci.
  rewrite <- Himgs in Hci.
  destruct (stage_quiet env fl 3 3 (configure_input env net names) s1 ltac:(lia)
                        (configure_input_emits env fl net)) as [Hw2 Hp2].
  rewrite Hci in Hw2, Hp2. cbn [snd] in Hw2, Hp2.
  match type of Hci with _ = (_, ?st) => set (s2 := st) in * end.
  (* output binding *)
  set (net2 := {| batchSize := K;
                  inputsInfo := inputsInfo net;
                  outputsInfo :=
                    map (fun p => (fst p, option_map (setPrecision FP32) (snd p)))
                        (outputsInfo net) |}).
  assert (Hco : configure_output (with_batchSize K net) s2 =
                (Ok (net2, oname), log_event (slog_info "Preparing output blobs") s2)).
  { unfold configure_output. rewrite (bind_Ok _ _ _ _ _ (emit_run _ s2)).
    cbn [outputsInfo with_batchSize].
    assert (Hall : Forall (fun p : string * option TensorDesc => snd p <> None)
                          (outputsInfo net)).
    { rewrite Hout. constructor; [discriminate | exact Hrest]. }
    rewrite (bind_Ok _ _ _ _ _ (configure_outputs_run _ Hall "" _)).
    cbn [fst snd ret batchSize inputsInfo with_batchSize]. unfold net2.
    rewrite Hout. cbn [map fst first_nonempty]. rewrite (not_empty _ Hon).
    reflexivity. }
  set (s3 := log_event (slog_info "Preparing output blobs") s2) in *.
  assert (Hw3 : written_files (trace s3) = [] /\ forward_passes (trace s3) = 0%nat).
  { cbn [trace s3 log_event]. rewrite written_files_app, forward_passes_app.
    rewrite Hw2, Hp2, Hw1, Hp1. now split. }
  (* the request *)
  destruct (create_request_succeeds env net2 s3 Hr) as [s5 [Hcr Hreq5]].
  destruct (stage_quiet env fl 4 5 (create_request env net2) s3 ltac:(lia))
    as [Hw5 Hp5].
  { apply create_request_emits; reflexivity. }
  rewrite Hcr in Hw5, Hp5. cbn [snd] in Hw5, Hp5.
  (* filling the input *)
  assert (Hb0 : lookup lrInputBlobName (request s5) = Some (allocate_input K desc)).
  { rewrite Hreq5. unfold allocate_blobs, net2. cbn [inputsInfo batchSize].
    rewrite Hin. reflexivity. }
  destruct (fill_inputs_one env (img0 :: imgs) 0%nat s5 (allocate_input K desc) Hb0)
    as [s6 [b0' [Hfill [Htr6 [Hb0' [Hk0 [_ [_ [_ [Hnew [Hkeep Hother]]]]]]]]]]].
  { rewrite allocate_input_slots. unfold K. rewrite Nat2Z.id.
    rewrite <- Himgs. apply accepted_images_length. }
  assert (Hpi : prepare_input env (inputsInfo net) (img0 :: imgs) s5 = (Ok tt, s6)).
  { unfold prepare_input.
    rewrite (bind_Ok _ _ _ _ _ (GetBlob_run _ s5 _ Hb0)).
    rewrite Hone. exact Hfill. }
  (* inference *)
  destruct (do_inference_succeeds env fl s6 Hni Hr) as [s7 Hdi].
  pose proof (do_inference_Ok_passes env fl s6 tt s7 Hdi) as Hp7.
  destruct (do_inference_emits env fl s6) as [t7 [Ht7 Hall7]].
  rewrite Hdi in Ht7. cbn [snd] in Ht7.
  pose proof (written_files_allowed env fl 7 7 t7 ltac:(lia) Hall7) as Hwt7.
  pose proof (do_inference_same_shapes env fl s6) as Hshapes.
  rewrite Hdi in Hshapes. cbn [snd] in Hshapes.
  (* the output blob *)
  set (ob := allocate_output K (setPrecision FP32 odesc)).
  assert (Hob6 : lookup oname (request s6) = Some ob).
  { rewrite (Hother oname Hon0), Hreq5.
    unfold allocate_blobs, net2. cbn [inputsInfo outputsInfo batchSize].
    rewrite Hin, Hout. cbn [map fst snd app allocate_outputs option_map lookup].
    destruct (String.eqb_spec lrInputBlobName oname) as [Heq | _];
      [symmetry in Heq; contradiction|].
    now rewrite String.eqb_refl. }
  destruct (same_shapes_lookup _ _ oname ob Hshapes Hob6)
    as [ob' [Hob7 [_ [Hd7 [_ [Hl7 _]]]]]].
  assert (Hobd : bdims ob' = [K; oC; oH; oW]).
  { rewrite Hd7. unfold ob. cbn [bdims allocate_output setPrecision dims].
    rewrite Hodims. reflexivity. }
  assert (HK0 : 0 <= K) by (unfold K; lia).
  assert (Hlen : Z.of_nat (List.length (buffer ob')) = K * oC * oH * oW).
  { rewrite Hl7. unfold ob. cbn [buffer allocate_output setPrecision dims].
    rewrite Hodims, repeat_length. cbn [with_batch numel fold_right].
    rewrite Z2Nat.id; [ring|].
    repeat apply Z.mul_nonneg_nonneg; lia. }
  (* the output step *)
  pose proof (process_output_unfold env fl oname s7 ob' K oC oH oW Hob7 Hobd) as Hpo.
  destruct (write_results_run env fl (buffer ob') oC oH oW
                              (size_mul (size_width env) oW oH)
                              (fun _ _ => Hr _)
                              (fun _ => conj (fun _ _ => Hr _) (Hr _))
                              (seq 0 (Z.to_nat K))
                              (log_event
                                 (slog_info ("Output size [N,C,H,W]: " ++ to_string K
                                             ++ ", " ++ to_string oC ++ ", "
                                             ++ to_string oH ++ ", " ++ to_string oW))
                                 s7))
    as [s8 [Hwr Hreq8]].
  { intros i Hi8. apply in_seq in Hi8.
    apply (planes_defined_from_3_channels (size_width env) (buffer ob') K oC oH oW);
      try assumption. lia. }
  rewrite Hwr in Hpo.
  pose proof (write_results_files _ _ _ _ _ _ _ _ _ _ Hwr) as Hfiles.
  cbn [trace log_event] in Hfiles.
  rewrite written_files_app in Hfiles. cbn [written_files] in Hfiles.
  rewrite app_nil_r in Hfiles.
  rewrite (sr_names_of_elems (size_width env) (Z.to_nat K)) in Hfiles
    by (rewrite Z2Nat.id; lia).
  destruct (process_output_emits env fl oname s7) as [t8 [Ht8 Hall8]].
  rewrite Hpo in Ht8. cbn [snd] in Ht8.
  pose proof (forward_passes_allowed env fl 8 8 t8 ltac:(right; lia) Hall8) as Hpt8.
  (* the whole run *)
  assert (Hpipe : pipeline env fl names net s1 = (Ok tt, s8)).
  { unfold pipeline.
    rewrite (bind_Ok _ _ _ _ _ Hci). cbn [fst snd].
    rewrite (bind_Ok _ _ _ _ _ Hco). cbn [fst snd].
    rewrite (bind_Ok _ _ _ _ _ Hcr).
    rewrite Himgs. rewrite (bind_Ok _ _ _ _ _ Hpi).
    rewrite (bind_Ok _ _ _ _ _ Hdi).
    exact Hpo. }
  assert (Htry : try_block env fl initial_state = (Ok None, s8)).
  { unfold try_block. rewrite (bind_Ok _ _ _ _ _ Hstart).
    now rewrite (bind_Ok _ _ _ _ _ Hpipe). }
  assert (Hb07 : lookup lrInputBlobName (request s7) = Some b0').
  { destruct (same_shapes_lookup _ _ lrInputBlobName b0' Hshapes Hb0')
      as [b0'' [Hl [_ [_ [_ [_ Hsame]]]]]].
    rewrite Hl. f_equal. apply Hsame. now rewrite Hk0. }
  unfold main. rewrite Htry. cbn [exit_code final trace request log_event].
  split; [reflexivity|].
  rewrite forward_passes_app, written_files_app. cbn [forward_passes written_files].
  rewrite Nat.add_0_r, app_nil_r. split; [|split].
  - rewrite Ht8, forward_passes_app, Hpt8, Nat.add_0_r, Hp7.
    rewrite Htr6, Hp5. destruct Hw3 as [_ Hp3]. rewrite Hp3.
    rewrite (iterations_of_int env fl Hni). lia.
  - rewrite Hfiles, Ht7, written_files_app, Hwt7, app_nil_r.
    rewrite Htr6, Hw5. destruct Hw3 as [Hw3 _]. rewrite Hw3.
    unfold K. now rewrite Nat2Z.id.
  - exists b0'. rewrite Hreq8. cbn [request log_event].
    split; [exact Hb07|]. split.
    + intros i img Himg. exact (Hnew i img Himg).
    + intros j Hj. rewrite (Hkeep j) by (right; cbn [Nat.add]; lia).
      cbn [slots allocate_input]. unfold K. rewrite Nat2Z.id.
      apply nth_error_repeat. lia.
Qed.

(** Two candidates of which the second is no image, two iterations: exit
    code 0, two forward passes, two files, and a second batch slot that was
    never filled. *)
Lemma run_in_order_succeeds_witness :
  exit_code (main (Scenario.world Scenario.net_one_input Scenario.no_failure)
                  (Scenario.flags false "dir" 2)) = Some 0 /\
  forward_passes
    (trace (final (main (Scenario.world Scenario.net_one_input Scenario.no_failure)
                        (Scenario.flags false "dir" 2)))) = 2%nat /\
  written_files
    (trace (final (main (Scenario.world Scenario.net_one_input Scenario.no_failure)
                        (Scenario.flags false "dir" 2)))) = ["sr_1.png"; "sr_2.png"] /\
  exists b0,
    lookup "0"
           (request (final (main (Scenario.world Scenario.net_one_input
                                                 Scenario.no_failure)
                                 (Scenario.flags false "dir" 2)))) = Some b0 /\
    nth_error (slots b0) 0 = Some (Some Scenario.lr_image) /\
    nth_error (slots b0) 1 = Some None.
Proof.
  assert (H2 : 0 <= 2 < 2 ^ 31) by (split; [discriminate | reflexivity]).
  assert (Hni : 1 <= 2 < 2 ^ 31) by (split; [discriminate | reflexivity]).
  assert (H4 : 0 <= 4) by discriminate.
  assert (H3 : 3 <= 3) by discriminate.
  assert (Hacc : accepted_images
                   (Scenario.world Scenario.net_one_input Scenario.no_failure) 2 2
                   (input_files
                      (Scenario.world Scenario.net_one_input Scenario.no_failure)
                      (FLAGS_i (Scenario.flags false "dir" 2))) <> [])
    by (vm_compute; discriminate).
  assert (Hi : FLAGS_i (Scenario.flags false "dir" 2) <> "") by discriminate.
  assert (Hm : FLAGS_m (Scenario.flags false "dir" 2) <> "") by discriminate.
  assert (Hon : "129" <> "") by discriminate.
  assert (Hon0 : "129" <> lrInputBlobName) by discriminate.
  assert (HK : Z.of_nat (List.length
                           (input_files
                              (Scenario.world Scenario.net_one_input Scenario.no_failure)
                              (FLAGS_i (Scenario.flags false "dir" 2))))
               < SIZE_MODULUS
                   (size_width (Scenario.world Scenario.net_one_input
                                               Scenario.no_failure)))
    by (vm_compute; reflexivity).
  assert (Hfit : Z.of_nat (List.length
                             (input_files
                                (Scenario.world Scenario.net_one_input
                                                Scenario.no_failure)
                                (FLAGS_i (Scenario.flags false "dir" 2))))
                 * 3 * 4 * 4
                 < SIZE_MODULUS
                     (size_width (Scenario.world Scenario.net_one_input
                                                 Scenario.no_failure)))
    by (vm_compute; reflexivity).
  destruct (run_in_order_succeeds
              (Scenario.world Scenario.net_one_input Scenario.no_failure)
              (Scenario.flags false "dir" 2)
              Scenario.lr_desc 1 3 2 2 "129" Scenario.hr_desc 1 3 4 4 []
              eq_refl Hni Hi Hm (fun _ => eq_refl) eq_refl eq_refl H2 H2 Hacc
              eq_refl (Forall_nil _) Hon Hon0 eq_refl H3 H4 H4 HK Hfit)
    as [Hexit [Hpasses [Hfiles [b0 [Hb0 [Hnew Hkeep]]]]]].
  split; [exact Hexit|]. split; [exact Hpasses|]. split; [exact Hfiles|].
  exists b0. split; [exact Hb0|]. split.
  - apply (Hnew 0%nat). reflexivity.
  - apply Hkeep. split; apply Nat.leb_le; reflexivity.
Defined.
